(** * Price-list merger: a shallow embedding of [merge_pricelists.py],
      [view_data.py] and [export_to_excel.py], and the properties of its
      identifier sanitizer, header detector, schema materializer, ingestion
      pipeline and reporting queries.

    Python text is a sequence of Unicode code points, so a [str] is a list
    of code points ([N]); [len], slicing and [in] then mean what they mean
    in Python.  A Python [set] of names is a [gset str], the [dict] built
    for one INSERT is a [gmap] from column names to bound values, and the
    storage engine is a finite map of tables that the statements of the
    program read and extend. *)

From stdpp Require Import gmap list.
From Stdlib Require Import ZArith Lia DecimalN.
From Stdlib Require String Ascii.
Import String.StringSyntax.
Delimit Scope string_scope with string.

Local Open Scope N_scope.
Local Open Scope list_scope.

(* ================================================================== *)
(** * Text *)
(* ================================================================== *)

Module Text.

(** A code point. *)
Abbreviation char := N (only parsing).
Abbreviation str := (list N) (only parsing).

(** UTF-8 decoding of a literal of this file, so that the constants of
    the program can be written the way the source writes them. *)
Fixpoint utf8_go (pending : nat) (acc : N) (bs : list N) : str :=
  match bs with
  | [] => []
  | b :: r =>
      match pending with
      | O =>
          if b <? 128 then b :: utf8_go 0 0 r
          else if b <? 224 then utf8_go 1 (b - 192) r
          else if b <? 240 then utf8_go 2 (b - 224) r
          else utf8_go 3 (b - 240) r
      | S p =>
          let acc' := acc * 64 + (b - 128) in
          match p with
          | O => acc' :: utf8_go 0 0 r
          | S _ => utf8_go p acc' r
          end
      end
  end.

Definition u (s : String.string) : str :=
  utf8_go 0 0 (map Ascii.N_of_ascii (String.list_ascii_of_string s)).
Arguments u s%_string : simpl never.

Definition underscore : char := 95.
Definition dquote : char := 34.

(** [c in "0123456789"], the class [[0-9]] of [re]. *)
Definition is_digit (c : char) : bool := (48 <=? c) && (c <=? 57).
(** The class [[a-zA-Z0-9_]] of [re] (ASCII only: the patterns of the
    program carry no flag). *)
Definition is_word (c : char) : bool :=
  ((97 <=? c) && (c <=? 122)) || ((65 <=? c) && (c <=? 90))
  || is_digit c || (c =? underscore).

(** [s.replace(old, new)] for one-character [old] and [new]. *)
Definition replace_char (old new : char) (s : str) : str :=
  map (fun c => if c =? old then new else c) s.

(** [s.replace('__', '_')]: one left-to-right pass over the
    non-overlapping occurrences. *)
Fixpoint replace_dunder (s : str) : str :=
  match s with
  | a :: t =>
      match t with
      | b :: r =>
          if (a =? underscore) && (b =? underscore)
          then underscore :: replace_dunder r
          else a :: replace_dunder t
      | [] => s
      end
  | [] => s
  end.

(** The text ['__']. *)
Definition dunder : str := [underscore; underscore].

(** [p] is a prefix of [s]. *)
Fixpoint starts_with (p s : str) : bool :=
  match p, s with
  | [], _ => true
  | _ :: _, [] => false
  | a :: p', b :: s' => (a =? b) && starts_with p' s'
  end.

(** [p in s]: substring test. *)
Fixpoint contains (p s : str) : bool :=
  starts_with p s ||
  match s with
  | [] => false
  | _ :: s' => contains p s'
  end.

(** [s.lstrip('_')], [s.rstrip('_')] and [s.strip('_')] for a
    one-character set, and their general form over a class. *)
Fixpoint lstrip_by (f : char -> bool) (s : str) : str :=
  match s with
  | c :: r => if f c then lstrip_by f r else s
  | [] => []
  end.
Definition rstrip_by (f : char -> bool) (s : str) : str :=
  reverse (lstrip_by f (reverse s)).
Definition strip_by (f : char -> bool) (s : str) : str :=
  rstrip_by f (lstrip_by f s).
Definition strip_underscore : str -> str :=
  strip_by (fun c => c =? underscore).

(** Python's [str.isspace] on a single code point: what [strip()] and
    [split()] without argument treat as white space. *)
Definition is_space (c : char) : bool :=
  ((9 <=? c) && (c <=? 13)) || ((28 <=? c) && (c <=? 32))
  || (c =? 133) || (c =? 160) || (c =? 5760)
  || ((8192 <=? c) && (c <=? 8202))
  || (c =? 8232) || (c =? 8233) || (c =? 8239) || (c =? 8287)
  || (c =? 12288).
Definition strip : str -> str := strip_by is_space.

(** [re.sub(r'^[0-9]+', '', s)]. *)
Definition strip_leading_digits : str -> str := lstrip_by is_digit.

(** [s[:n]] guarded by [len(s) > n], as the program writes it. *)
Definition truncate (n : nat) (s : str) : str :=
  if (n <? length s)%nat then take n s else s.

(** [str(n)] for a non-negative integer: its decimal digits. *)
Fixpoint digits_of_uint (d : Decimal.uint) : str :=
  match d with
  | Decimal.Nil => []
  | Decimal.D0 d => 48 :: digits_of_uint d
  | Decimal.D1 d => 49 :: digits_of_uint d
  | Decimal.D2 d => 50 :: digits_of_uint d
  | Decimal.D3 d => 51 :: digits_of_uint d
  | Decimal.D4 d => 52 :: digits_of_uint d
  | Decimal.D5 d => 53 :: digits_of_uint d
  | Decimal.D6 d => 54 :: digits_of_uint d
  | Decimal.D7 d => 55 :: digits_of_uint d
  | Decimal.D8 d => 56 :: digits_of_uint d
  | Decimal.D9 d => 57 :: digits_of_uint d
  end.
Definition str_of_N (n : N) : str := digits_of_uint (N.to_uint n).
(** [str(z)] for any integer. *)
Definition str_of_Z (z : Z) : str :=
  match z with
  | Zneg p => 45 :: str_of_N (Npos p)
  | _ => str_of_N (Z.to_N z)
  end.

End Text.
Import Text.

(* ================================================================== *)
(** * Identifier sanitizer ([clean_column_name], [get_safe_table_name]) *)
(* ================================================================== *)

Module Sanitizer.

Definition unnamed_column : str := u "unnamed_column".
Definition unnamed_table : str := u "unnamed_table".

(** The deny-list of [clean_column_name], in source order. *)
Definition invalid_chars : list char :=
  u " -.()[]{}!@#$%^&*+=|\/:;" ++ [dquote] ++ u "',<>?".

(** [while '__' in column_name: column_name = column_name.replace('__', '_')].
    Every pass that runs shortens the text, so [length s] passes are
    enough (see [collapse_no_dunder]). *)
Fixpoint collapse_loop (fuel : nat) (s : str) : str :=
  match fuel with
  | O => s
  | S f =>
      if contains dunder s
      then collapse_loop f (replace_dunder s)
      else s
  end.
Definition collapse (s : str) : str := collapse_loop (length s) s.

(** [for char in invalid_chars: column_name = column_name.replace(char, '_')]. *)
Definition replace_invalid (column_name : str) : str :=
  fold_left (fun s c => replace_char c underscore s)
            invalid_chars column_name.

(** Lines 376-405 of [clean_column_name]: everything between the [None]
    test and the [existing_columns] test. *)
Definition clean_base (column_name : str) : str :=
  let column_name := replace_invalid column_name in
  let column_name := collapse column_name in
  let column_name := strip_underscore column_name in
  let column_name :=
    if bool_decide (column_name = []) then unnamed_column else column_name in
  let column_name := strip_leading_digits column_name in
  let column_name := strip_underscore column_name in
  let column_name :=
    if bool_decide (column_name = []) then unnamed_column else column_name in
  truncate 50 column_name.

(** [f"{original_name}_{counter}"]. *)
Definition suffixed (original_name : str) (counter : N) : str :=
  original_name ++ underscore :: str_of_N counter.

(** The names the loop below tries, in order: the name itself, then
    its forms with suffix [_1], [_2], ... *)
Definition candidate (original_name : str) (i : nat) : str :=
  match i with
  | O => original_name
  | S _ => suffixed original_name (N.of_nat i)
  end.

(** [while column_name in existing_columns: ...; counter += 1].  At
    most [size existing_columns] candidates can be taken, so
    [S (size existing_columns)] tests are enough (see
    [dedup_fresh]). *)
Fixpoint dedup_loop (fuel : nat) (existing_columns : gset str)
    (original_name column_name : str) (counter : N) : str :=
  match fuel with
  | O => column_name
  | S f =>
      if bool_decide (column_name ∈ existing_columns)
      then dedup_loop f existing_columns original_name
             (suffixed original_name counter) (counter + 1)
      else column_name
  end.
Definition dedup (existing_columns : gset str) (column_name : str) : str :=
  dedup_loop (S (size existing_columns)) existing_columns
    column_name column_name 1.

(** [clean_column_name(column_name)], the call without a set.  The
    argument is [None] for Python's [None] and [Some s] for a value whose
    [str()] is [s]. *)
Definition clean_column_name (column_name : option str) : str :=
  match column_name with
  | None => unnamed_column
  | Some column_name => clean_base column_name
  end.

(** [clean_column_name(column_name, existing_columns)], the call with a
    set; the result carries the set as the call leaves it. *)
Definition clean_column_name_with (column_name : option str)
    (existing_columns : gset str) : str * gset str :=
  match column_name with
  | None => (unnamed_column, existing_columns)
  | Some column_name =>
      let column_name := dedup existing_columns (clean_base column_name) in
      (column_name, {[column_name]} ∪ existing_columns)
  end.

(** The sanitizer on a text, without a set. *)
Definition sanitize (x : str) : str := clean_column_name (Some x).

(** [re.sub(r'_+', '_', s)]: every maximal run of underscores becomes
    one underscore. *)
Fixpoint squeeze (s : str) : str :=
  match s with
  | a :: t =>
      match t with
      | b :: _ =>
          if (a =? underscore) && (b =? underscore)
          then squeeze t
          else a :: squeeze t
      | [] => s
      end
  | [] => []
  end.

(** [table_name[0].isdigit()]; at that point every character is in
    [[a-zA-Z0-9_]], where [isdigit] is [[0-9]]. *)
Definition starts_with_digit (s : str) : bool :=
  match s with
  | c :: _ => is_digit c
  | [] => false
  end.

(** [get_safe_table_name(file_path, sheet_name=None)], on
    [file_name = Path(file_path).stem]. *)
Definition get_safe_table_name (file_name : str) (sheet_name : option str)
    : str :=
  let table_name :=
    match sheet_name with
    | Some sh =>
        if bool_decide (sh ≠ []) && bool_decide (sh ≠ u "CSV")
        then file_name ++ underscore :: sh
        else file_name
    | None => file_name
    end in
  let table_name :=
    map (fun c => if is_word c then c else underscore) table_name in
  let table_name := squeeze table_name in
  let table_name := strip_underscore table_name in
  let table_name := strip_leading_digits table_name in
  let table_name := strip_underscore table_name in
  let table_name := truncate 50 table_name in
  let table_name :=
    if bool_decide (table_name = []) then unnamed_table else table_name in
  if starts_with_digit table_name
  then u "table_" ++ table_name
  else table_name.

(** ** The sanitizer as the specification words it *)

(** A storage identifier: not empty, made of [[A-Za-z0-9_]] only, and
    not starting with a digit. *)
Definition valid_identifier (s : str) : Prop :=
  s ≠ [] /\ Forall (fun c => is_word c = true) s /\
  starts_with_digit s = false.

End Sanitizer.

Import Sanitizer.

(* ================================================================== *)
(** * Cells, grids and parsed tables *)
(* ================================================================== *)

Module Data.

(** A cell as pandas hands it over: [CNull] is whatever [pd.isna]
    accepts (NaN, None, NaT); [CNum] an [int]; [CFloat r] the [float]
    whose [str()] is [r]; [CStr] a [str]; [COther r] any other object,
    whose [str()] is [r]. *)
Inductive cell :=
| CNull
| CNum (z : Z)
| CFloat (r : str)
| CStr (s : str)
| COther (r : str).

#[global] Instance cell_eq_dec : EqDecision cell.
Proof. solve_decision. Defined.

Abbreviation row := (list cell) (only parsing).
(** [pd.read_excel(..., header=None)]: the raw grid. *)
Abbreviation grid := (list (list cell)) (only parsing).

(** A parsed table: [df.columns] (each label through [str()]) and the
    data rows, row [i] carrying index [i] ([RangeIndex]); cell [j] of a
    row is [row[df.columns[j]]]. *)
Record dataframe := {
  columns : list str;
  rows : list (list cell)
}.

(** [df.empty]: some axis has length 0. *)
Definition df_empty (df : dataframe) : bool :=
  bool_decide (rows df = []) || bool_decide (columns df = []).
Definition grid_empty (g : grid) : bool :=
  match g with
  | [] => true
  | r :: _ => bool_decide (r = [])
  end.

End Data.
Import Data.

(* ================================================================== *)
(** * Header detector ([detect_data_start_row]) *)
(* ================================================================== *)

Module Detector.

Definition typical_headers : list str := Eval vm_compute in
  [ u "артикул"; u "наименование"; u "название"; u "код"; u "номер";
    u "цена"; u "стоимость";
    u "количество"; u "ед"; u "шт"; u "руб"; u "usd"; u "eur";
    u "category"; u "категория";
    u "partnumber"; u "описание"; u "характеристики"; u "вес";
    u "объем"; u "номенклатура";
    u "заказ"; u "товар"; u "продукт"; u "изделие"; u "модель";
    u "марка"; u "бренд";
    u "производитель"; u "поставщик"; u "материал"; u "цвет";
    u "размер"; u "длина";
    u "ширина"; u "высота"; u "диаметр"; u "мощность"; u "напряжение";
    u "ток";
    u "частота"; u "температура"; u "давление"; u "скорость";
    u "время"; u "дата";
    u "сумма"; u "итого"; u "скидка"; u "наценка"; u "налог";
    u "пошлина";
    u "доставка"; u "упаковка"; u "гарантия"; u "сервис";
    u "обслуживание";
    u "кг"; u "г"; u "л"; u "мл"; u "м"; u "см"; u "мм"; u "кв.м";
    u "куб.м";
    u "шт"; u "компл"; u "упак"; u "пачка"; u "коробка"; u "ящик";
    u "мешок";
    u "статус"; u "состояние"; u "наличие"; u "остаток"; u "склад";
    u "место";
    u "адрес"; u "контакт"; u "телефон"; u "email"; u "сайт";
    u "информация" ].

Definition strong_headers : list str := Eval vm_compute in
  [ u "заказ"; u "название"; u "артикул"; u "код"; u "цена";
    u "номенклатура" ].

Definition service_words : list str := Eval vm_compute in
  [ u "электрорешения"; u "устойчивого"; u "будущего"; u "калькуляторы";
    u "конфигураторы";
    u "артикулов"; u "собственных"; u "производственных"; u "комплекса";
    u "итого";
    u "зеленый"; u "цвет"; u "наименования"; u "позиция"; u "ожидается";
    u "указанную";
    u "дату"; u "оранжевый"; u "новинки"; u "экспресс"; u "доставка";
    u "отфильтруйте";
    u "непустые"; u "значения"; u "полю"; u "ims"; u "нажмите";
    u "загрузить"; u "xls" ].

(** [str.lower] on the letters the vocabularies are written in (ASCII
    and the Russian alphabet); an instance of the [lower] the detector
    is stated over, used to run it. *)
Definition lower_char (c : char) : char :=
  if (65 <=? c) && (c <=? 90) then c + 32
  else if (1040 <=? c) && (c <=? 1071) then c + 32
  else if c =? 1025 then 1105
  else c.
Definition lower_basic (s : str) : str := map lower_char s.

Section Detect.
(** [str.lower]: Unicode case mapping, left to the caller. *)
Variable lower : str -> str.

(** The inner [for ... in vocabulary: if w in val_lower: count += 1;
    break] under its guard [pd.notna(val) and isinstance(val, str)]:
    does the cell count? *)
Definition cell_hits (vocabulary : list str) (val : cell) : bool :=
  match val with
  | CStr s =>
      let val_lower := strip (lower s) in
      existsb (fun w => contains w val_lower) vocabulary
  | _ => false
  end.

(** One counting loop [for val in row]. *)
Definition count_hits (vocabulary : list str) (r : row) : nat :=
  fold_left (fun n val => if cell_hits vocabulary val then S n else n)
            r 0%nat.

(** The body of [for i in range(min(30, len(df)))], over the rows
    still to visit; [None] when the loop ends without [return]. *)
Fixpoint scan_rows (i : nat) (rs : grid) : option nat :=
  match rs with
  | [] => None
  | r :: rest =>
      let found_headers := count_hits typical_headers r in
      let strong_matches := count_hits strong_headers r in
      let service_count := count_hits service_words r in
      if (2 <? service_count)%nat then scan_rows (S i) rest
      else if (3 <=? found_headers)%nat || (2 <=? strong_matches)%nat
           then Some i
           else scan_rows (S i) rest
  end.

Definition detect_data_start_row (df : grid) : nat :=
  match scan_rows 0 (take (Nat.min 30 (length df)) df) with
  | Some i => i
  | None => 0%nat
  end.

(** The two tests of the loop body, taken together. *)
Definition accepts_row (r : row) : bool :=
  negb (2 <? count_hits service_words r)%nat &&
  ((3 <=? count_hits typical_headers r)%nat
   || (2 <=? count_hits strong_headers r)%nat).

(** ** The detector as the specification words it *)

(** Number of cells of the row that match a vocabulary. *)
Definition matching_cells (vocabulary : list str) (r : row) : nat :=
  length (filter (fun val => cell_hits vocabulary val = true) r).

(** A row qualifies: not vetoed as boilerplate, and enough header or
    strong-indicator cells. *)
Definition qualifies (r : row) : Prop :=
  (matching_cells service_words r <= 2)%nat /\
  ((3 <= matching_cells typical_headers r)%nat \/
   (2 <= matching_cells strong_headers r)%nat).

(** What [detectHeaderRow] is to return for [df]. *)
Inductive header_choice (df : grid) : nat -> Prop :=
| first_qualifying (i : nat) (r : row) :
    (i < 30)%nat ->
    df !! i = Some r ->
    qualifies r ->
    (forall j r', (j < i)%nat -> df !! j = Some r' -> ~ qualifies r') ->
    header_choice df i
| fallback :
    (forall i r, (i < 30)%nat -> df !! i = Some r -> ~ qualifies r) ->
    header_choice df 0%nat.

End Detect.

End Detector.
Import Detector.

(* ================================================================== *)
(** * Storage engine *)
(* ================================================================== *)

Module Storage.

(** A Python [float] met by the program: a cell, known by its [str()],
    or a file size in bytes divided by [1024 * 1024]. *)
Inductive pyfloat :=
| FloatCell (r : str)
| MegaBytes (bytes : N).

(** A value bound to a [?] placeholder. *)
Inductive sqlval :=
| SNull
| SInt (z : Z)
| SReal (x : pyfloat)
| SText (s : str).

#[global] Instance pyfloat_eq_dec : EqDecision pyfloat.
Proof. solve_decision. Defined.
#[global] Instance sqlval_eq_dec : EqDecision sqlval.
Proof. solve_decision. Defined.

(** A table: its column names in declaration order, and its rows in
    insertion order.  A row keeps the values its INSERT bound; a column
    it does not mention is NULL (or the declared default: the synthetic
    [id] and [processed_at]). *)
Record table := {
  tcolumns : list str;
  trows : list (gmap str sqlval)
}.

Abbreviation store := (gmap str table) (only parsing).

Inductive sql_error :=
| NoSuchTable
| NoSuchColumn
| DuplicateColumn.

Inductive exn :=
| SqlError (why : sql_error)
| ConnectError
| ReadError
| UnicodeDecodeError
| IndexError
| NoConnection.

#[global] Instance sql_error_eq_dec : EqDecision sql_error.
Proof. solve_decision. Defined.
#[global] Instance exn_eq_dec : EqDecision exn.
Proof. solve_decision. Defined.

Inductive outcome (A : Type) :=
| Ok (a : A)
| Raise (e : exn).
Arguments Ok {A} a.
Arguments Raise {A} e.

(** The statements of the program.  Names are atomic identifiers that
    compare as texts; a statement fails only for a missing table, a
    missing column or a duplicate column. *)

(** [CREATE TABLE IF NOT EXISTS name (cols)]. *)
Definition create_table_if_not_exists (name : str) (cols : list str)
    (s : store) : outcome store :=
  match s !! name with
  | Some _ => Ok s
  | None =>
      if bool_decide (NoDup cols)
      then Ok (<[name := {| tcolumns := cols; trows := [] |}]> s)
      else Raise (SqlError DuplicateColumn)
  end.

(** [ALTER TABLE name ADD COLUMN col TEXT]. *)
Definition alter_table_add_column (name col : str) (s : store)
    : outcome store :=
  match s !! name with
  | None => Raise (SqlError NoSuchTable)
  | Some t =>
      if bool_decide (col ∈ tcolumns t)
      then Raise (SqlError DuplicateColumn)
      else Ok (<[name := {| tcolumns := tcolumns t ++ [col];
                            trows := trows t |}]> s)
  end.

(** Every column an INSERT names is a column of the table. *)
Definition names_known (data : gmap str sqlval) (t : table) : bool :=
  bool_decide (dom data ⊆ (list_to_set (tcolumns t) : gset str)).

(** [INSERT INTO name (keys of data) VALUES (values of data)]. *)
Definition insert_into (name : str) (data : gmap str sqlval) (s : store)
    : outcome store :=
  match s !! name with
  | None => Raise (SqlError NoSuchTable)
  | Some t =>
      if names_known data t
      then Ok (<[name := {| tcolumns := tcolumns t;
                            trows := trows t ++ [data] |}]> s)
      else Raise (SqlError NoSuchColumn)
  end.

(** [INSERT OR REPLACE INTO name ...] where column [key] is UNIQUE: a
    row with the same key is deleted first. *)
Definition insert_or_replace (name key : str) (data : gmap str sqlval)
    (s : store) : outcome store :=
  match s !! name with
  | None => Raise (SqlError NoSuchTable)
  | Some t =>
      if names_known data t
      then Ok (<[name :=
                  {| tcolumns := tcolumns t;
                     trows := filter (fun r => r !! key ≠ data !! key)
                                     (trows t) ++ [data] |}]> s)
      else Raise (SqlError NoSuchColumn)
  end.

(** [PRAGMA table_info(name)], column 1 of each answer row; no row for
    a table that does not exist. *)
Definition table_info (name : str) (s : store) : list str :=
  match s !! name with
  | Some t => tcolumns t
  | None => []
  end.

(** [SELECT COUNT( * ) FROM name]. *)
Definition select_count (name : str) (s : store) : outcome nat :=
  match s !! name with
  | Some t => Ok (length (trows t))
  | None => Raise (SqlError NoSuchTable)
  end.

(** [SELECT SUM(col) FROM name]: NULL for no row, else the sum of the
    integer values. *)
Definition select_sum (name col : str) (s : store) : outcome (option Z) :=
  match s !! name with
  | None => Raise (SqlError NoSuchTable)
  | Some t =>
      if bool_decide (col ∈ tcolumns t)
      then Ok (match trows t with
               | [] => None
               | rs => Some (foldr (fun r acc =>
                                match r !! col with
                                | Some (SInt z) => (z + acc)%Z
                                | _ => acc
                                end) 0%Z rs)
               end)
      else Raise (SqlError NoSuchColumn)
  end.

End Storage.
Import Storage.

(* ================================================================== *)
(** * Ingestion pipeline ([PricelistMerger]) *)
(* ================================================================== *)

Declare Scope py_scope.
Delimit Scope py_scope with py.

Module Pipeline.

(** ** What the run reads: files and their decoding *)

(** One sheet of a workbook: its name, what
    [pd.read_excel(..., header=None)] answers, and what
    [pd.read_excel(..., header=h)] answers for each [h]. *)
Record sheet := {
  sheet_title : str;
  read_raw : outcome grid;
  read_with_header : nat -> outcome dataframe
}.

Inductive encoding := utf_8 | cp1251 | windows_1251 | iso_8859_1.

(** What [pd.read_csv(file_path, encoding=...)] answers. *)
Inductive csv_attempt :=
| CsvDecoded (df : dataframe)
| CsvUnicodeError
| CsvRaises (e : exn).

(** One discovered file: its path, [os.path.basename], [Path.stem] and
    [Path.suffix.lower()] of the path, and the answers of
    [os.path.getsize], [pd.ExcelFile] and [pd.read_csv]. *)
Record file := {
  file_path : str;
  basename : str;
  stem : str;
  suffix_lower : str;
  getsize : outcome N;
  excel_file : outcome (list sheet);
  read_csv : encoding -> csv_attempt
}.

(** One run: whether [sqlite3.connect] fails, and [get_all_files()]. *)
Record environment := {
  connect_failure : option exn;
  files : list file
}.

(** ** The log *)

Inductive level := INFO | WARNING | ERROR.

(** One constructor per [logger] call of the class, with its key
    arguments. *)
Inductive message :=
| MsgConnected
| MsgConnectFailed (e : exn)
| MsgMetadataTableCreated
| MsgMetadataTableFailed (e : exn)
| MsgUnifiedTableCreated
| MsgUnifiedTableFailed (e : exn)
| MsgUnifiedInserted
| MsgUnifiedInsertFailed (e : exn)
| MsgTableCreated (table_name : str)
| MsgTableCreateFailed (table_name : str) (e : exn)
| MsgRowsInserted (n : nat) (table_name : str)
| MsgInsertFailed (table_name : str) (e : exn)
| MsgProcessingFile (path : str)
| MsgProcessingSheet (name : str)
| MsgSheetEmpty (name : str)
| MsgSheetEmptyAfterHeader (name : str)
| MsgExcelFailed (path : str) (e : exn)
| MsgProcessingCsv (path : str)
| MsgCsvEncoding (enc : encoding)
| MsgCsvUndecodable (path : str)
| MsgCsvEmpty (path : str)
| MsgCsvFailed (path : str) (e : exn)
| MsgMetadataAdded (table_name : str)
| MsgMetadataFailed (e : exn)
| MsgHeaderFound (i : nat)
| MsgHeaderNotFound
| MsgStart
| MsgFilesFound (n : nat)
| MsgNoFiles
| MsgUnsupported (ext : str)
| MsgDone
| MsgTablesCreated (n : nat)
| MsgTotalRows (z : Z)
| MsgMergeFailed (e : exn)
| MsgClosed.

#[global] Instance level_eq_dec : EqDecision level.
Proof. solve_decision. Defined.
#[global] Instance encoding_eq_dec : EqDecision encoding.
Proof. solve_decision. Defined.
#[global] Instance message_eq_dec : EqDecision message.
Proof. solve_decision. Defined.

(** ** The state the methods act on *)

(** [disk] is the committed content of the database file; [conn] is
    [self.conn]: [None] before [connect_db] and after [close], else the
    content as the open connection sees it, uncommitted changes
    included. *)
Record world := {
  disk : store;
  conn : option store;
  log : list (level * message)
}.

(** A method: it ends normally or raises, and leaves a world either
    way. *)
Definition M (A : Type) : Type := world -> outcome A * world.

Definition ret {A} (a : A) : M A := fun w => (Ok a, w).
Definition raise {A} (e : exn) : M A := fun w => (Raise e, w).
Definition bind {A B} (m : M A) (k : A -> M B) : M B :=
  fun w =>
    match m w with
    | (Ok a, w') => k a w'
    | (Raise e, w') => (Raise e, w')
    end.
(** [try: m / except Exception as e: h e]. *)
Definition try_except {A} (m : M A) (h : exn -> M A) : M A :=
  fun w =>
    match m w with
    | (Ok a, w') => (Ok a, w')
    | (Raise e, w') => h e w'
    end.
(** [try: m / finally: f]. *)
Definition finally {A} (m : M A) (f : M unit) : M A :=
  fun w =>
    match m w with
    | (r, w') =>
        match f w' with
        | (Ok _, w'') => (r, w'')
        | (Raise e, w'') => (Raise e, w'')
        end
    end.

Notation "x ← y ; z" := (bind y (fun x => z))
  (at level 20, y at level 100, z at level 200, only parsing) : py_scope.
Notation "y ;; z" := (bind y (fun _ => z))
  (at level 100, z at level 200, only parsing, right associativity)
  : py_scope.
Local Open Scope py_scope.

(** [for x in l: body x]. *)
Fixpoint for_each {A} (l : list A) (body : A -> M unit) : M unit :=
  match l with
  | [] => ret tt
  | x :: rest => body x ;; for_each rest body
  end.

(** [enumerate]: what [df.iterrows()] yields under a [RangeIndex]. *)
Definition iterrows (df : dataframe) : list (nat * list cell) :=
  zip (seq 0 (length (rows df))) (rows df).

(** The answer of a collaborator, raised if it is an exception. *)
Definition lift {A} (r : outcome A) : M A :=
  match r with
  | Ok a => ret a
  | Raise e => raise e
  end.

Definition logger (l : level) (m : message) : M unit :=
  fun w => (Ok tt, {| disk := disk w; conn := conn w;
                      log := log w ++ [(l, m)] |}).

(** [self.cursor.execute(...)] for a statement that changes the
    store. *)
Definition execute (stmt : store -> outcome store) : M unit :=
  fun w =>
    match conn w with
    | None => (Raise NoConnection, w)
    | Some live =>
        match stmt live with
        | Ok live' => (Ok tt, {| disk := disk w; conn := Some live';
                                 log := log w |})
        | Raise e => (Raise e, w)
        end
    end.

(** [self.cursor.execute(...)] and [fetch...] for a statement that
    reads. *)
Definition query {A} (q : store -> outcome A) : M A :=
  fun w =>
    match conn w with
    | None => (Raise NoConnection, w)
    | Some live => (q live, w)
    end.

(** [self.conn.commit()], [self.conn.rollback()], [self.conn.close()]. *)
Definition commit : M unit :=
  fun w =>
    match conn w with
    | None => (Raise NoConnection, w)
    | Some live => (Ok tt, {| disk := live; conn := Some live;
                              log := log w |})
    end.
Definition rollback : M unit :=
  fun w =>
    match conn w with
    | None => (Raise NoConnection, w)
    | Some _ => (Ok tt, {| disk := disk w; conn := Some (disk w);
                           log := log w |})
    end.
Definition close : M unit :=
  fun w => (Ok tt, {| disk := disk w; conn := None; log := log w |}).

(** ** Names the program writes out *)

Definition all_pricelists : str := u "all_pricelists".
Definition pricelists_metadata : str := u "pricelists_metadata".
Definition source_file : str := u "source_file".
Definition sheet_name_col : str := u "sheet_name".
Definition source_row : str := u "source_row".
Definition table_name_col : str := u "table_name".
Definition row_count : str := u "row_count".

Definition metadata_columns : list str :=
  [ u "id"; table_name_col; source_file; u "source_sheet"; row_count;
    u "column_count"; u "processed_at"; u "file_size_mb";
    u "file_format" ].
Definition unified_columns : list str :=
  [ u "id"; source_file; sheet_name_col; source_row; u "processed_at" ].
Definition system_columns : list str :=
  [ u "id"; source_row; u "processed_at" ].

(** ** The methods *)

Definition connect_db (failure : option exn) : M unit :=
  try_except
    (match failure with
     | Some e => raise e
     | None =>
         (fun w => (Ok tt, {| disk := disk w; conn := Some (disk w);
                              log := log w |})) ;;
         logger INFO MsgConnected
     end)
    (fun e => logger ERROR (MsgConnectFailed e) ;; raise e).

Definition create_metadata_table : M unit :=
  try_except
    (execute (create_table_if_not_exists pricelists_metadata
                metadata_columns) ;;
     commit ;;
     logger INFO MsgMetadataTableCreated)
    (fun e => logger ERROR (MsgMetadataTableFailed e) ;; raise e).

Definition create_unified_table : M unit :=
  try_except
    (execute (create_table_if_not_exists all_pricelists
                unified_columns) ;;
     commit ;;
     logger INFO MsgUnifiedTableCreated)
    (fun e => logger ERROR (MsgUnifiedTableFailed e) ;; raise e).

Definition add_column_to_unified_table (column_name : str) : M unit :=
  try_except
    (let clean_column := clean_column_name (Some column_name) in
     execute (alter_table_add_column all_pricelists clean_column) ;;
     commit)
    (fun _ => ret tt).

(** [str(row[col]) if pd.notna(row[col]) else None]. *)
Definition value_for_unified (value : cell) : sqlval :=
  match value with
  | CNull => SNull
  | CNum z => SText (str_of_Z z)
  | CFloat r => SText r
  | CStr s => SText s
  | COther r => SText r
  end.

(** The body of [for col in df.columns] in [insert_to_unified_table]. *)
Definition unified_step (insert_data : gmap str sqlval)
    (cv : str * cell) : gmap str sqlval :=
  let '(col, value) := cv in
  let clean_col := clean_column_name (Some col) in
  <[clean_col := value_for_unified value]> insert_data.

(** The [insert_data] dict of [insert_to_unified_table] for one row. *)
Definition insert_data_for_unified (df : dataframe)
    (file_name sheet_name : str) (index : nat) (row : list cell)
    : gmap str sqlval :=
  let insert_data : gmap str sqlval :=
    <[source_row := SInt (Z.of_nat index + 1)]>
      (<[sheet_name_col := SText sheet_name]>
         {[source_file := SText file_name]}) in
  fold_left unified_step (zip (columns df) row) insert_data.

Definition insert_to_unified_table (df : dataframe)
    (file_name sheet_name : str) : M unit :=
  try_except
    (for_each (columns df) add_column_to_unified_table ;;
     for_each (iterrows df)
       (fun '(index, row) =>
          execute (insert_into all_pricelists
                     (insert_data_for_unified df file_name sheet_name
                        index row))) ;;
     commit ;;
     logger INFO MsgUnifiedInserted)
    (fun e => logger ERROR (MsgUnifiedInsertFailed e) ;; raise e).

(** The names [create_table_for_file] gives the header cells: each
    through [clean_column_name] with the one set of the call. *)
Fixpoint table_column_names (cols : list str) (existing_columns : gset str)
    : list str :=
  match cols with
  | [] => []
  | col :: rest =>
      let '(clean_col, existing_columns) :=
        clean_column_name_with (Some col) existing_columns in
      clean_col :: table_column_names rest existing_columns
  end.

Definition create_table_for_file (table_name : str) (df : dataframe)
    : M unit :=
  try_except
    (let columns := table_column_names (columns df) ∅ in
     let columns := system_columns ++ columns in
     execute (create_table_if_not_exists table_name columns) ;;
     commit ;;
     logger INFO (MsgTableCreated table_name))
    (fun e => logger ERROR (MsgTableCreateFailed table_name e) ;; raise e).

(** The [if pd.isna / elif isinstance(value, (int, float)) / else]
    chain of [insert_data_to_table]. *)
Definition value_for_table (value : cell) : sqlval :=
  match value with
  | CNull => SNull
  | CNum z => SInt z
  | CFloat r => SReal (FloatCell r)
  | CStr s => SText s
  | COther r => SText r
  end.

(** The body of [for col in df.columns] in [insert_data_to_table]. *)
Definition table_step (table_columns : list str)
    (insert_data : gmap str sqlval) (cv : str * cell) : gmap str sqlval :=
  let '(col, value) := cv in
  let clean_col := clean_column_name (Some col) in
  if bool_decide (clean_col ∈ table_columns)
  then <[clean_col := value_for_table value]> insert_data
  else insert_data.

(** The [insert_data] dict of [insert_data_to_table] for one row. *)
Definition insert_data_for_table (table_columns : list str)
    (df : dataframe) (index : nat) (row : list cell) : gmap str sqlval :=
  let insert_data : gmap str sqlval :=
    {[source_row := SInt (Z.of_nat index + 1)]} in
  fold_left (table_step table_columns) (zip (columns df) row) insert_data.

Definition insert_data_to_table (table_name : str) (df : dataframe)
    : M unit :=
  try_except
    (table_columns ← query (fun s => Ok (table_info table_name s)) ;
     for_each (iterrows df)
       (fun '(index, row) =>
          execute (insert_into table_name
                     (insert_data_for_table table_columns df index row))) ;;
     commit ;;
     logger INFO (MsgRowsInserted (length (rows df)) table_name))
    (fun e =>
       logger ERROR (MsgInsertFailed table_name e) ;;
       rollback ;;
       raise e).

Definition add_metadata (table_name file_name sheet_name : str)
    (n_rows n_columns : nat) (size : N) (file_format : str) : M unit :=
  try_except
    (let record : gmap str sqlval :=
       <[table_name_col := SText table_name]>
       (<[source_file := SText file_name]>
       (<[u "source_sheet" := SText sheet_name]>
       (<[row_count := SInt (Z.of_nat n_rows)]>
       (<[u "column_count" := SInt (Z.of_nat n_columns)]>
       (<[u "file_size_mb" := SReal (MegaBytes size)]>
       {[u "file_format" := SText file_format]}))))) in
     execute (insert_or_replace pricelists_metadata table_name_col
                record) ;;
     commit ;;
     logger INFO (MsgMetadataAdded table_name))
    (fun e => logger ERROR (MsgMetadataFailed e)).

Section WithLower.
(** [str.lower], as the detector takes it. *)
Variable lower : str -> str.

(** The two INFO lines of [detect_data_start_row]. *)
Definition header_message (raw_df : grid) : message :=
  match scan_rows lower 0 (take (Nat.min 30 (length raw_df)) raw_df) with
  | Some i => MsgHeaderFound i
  | None => MsgHeaderNotFound
  end.

(** The body of [for sheet_name in excel_file.sheet_names]. *)
Definition excel_sheet_body (f : file) (file_size : N) (sh : sheet)
    : M unit :=
  let sheet_name := sheet_title sh in
  logger INFO (MsgProcessingSheet sheet_name) ;;
  raw_df ← lift (read_raw sh) ;
  if grid_empty raw_df
  then logger WARNING (MsgSheetEmpty sheet_name)
  else
    let header_row_index := detect_data_start_row lower raw_df in
    logger INFO (header_message raw_df) ;;
    df ← lift (read_with_header sh header_row_index) ;
    if df_empty df
    then logger WARNING (MsgSheetEmptyAfterHeader sheet_name)
    else
      let table_name :=
        get_safe_table_name (stem f) (Some sheet_name) in
      create_table_for_file table_name df ;;
      insert_data_to_table table_name df ;;
      insert_to_unified_table df (basename f) sheet_name ;;
      add_metadata table_name (basename f) sheet_name
        (length (rows df)) (length (columns df)) file_size
        (suffix_lower f).

Definition process_excel_file (f : file) : M unit :=
  try_except
    (logger INFO (MsgProcessingFile (file_path f)) ;;
     file_size ← lift (getsize f) ;
     sheets ← lift (excel_file f) ;
     for_each sheets (excel_sheet_body f file_size))
    (fun e => logger ERROR (MsgExcelFailed (file_path f) e)).

(** [for encoding in encodings: try ... except UnicodeDecodeError:
    continue]. *)
Fixpoint try_encodings (f : file) (encodings : list encoding)
    : M (option dataframe) :=
  match encodings with
  | [] => ret None
  | enc :: rest =>
      match read_csv f enc with
      | CsvDecoded df => logger INFO (MsgCsvEncoding enc) ;; ret (Some df)
      | CsvUnicodeError => try_encodings f rest
      | CsvRaises e => raise e
      end
  end.

Definition process_csv_file (f : file) : M unit :=
  try_except
    (logger INFO (MsgProcessingCsv (file_path f)) ;;
     file_size ← lift (getsize f) ;
     df ← try_encodings f [utf_8; cp1251; windows_1251; iso_8859_1] ;
     match df with
     | None => logger ERROR (MsgCsvUndecodable (file_path f))
     | Some df =>
         if df_empty df
         then logger WARNING (MsgCsvEmpty (file_path f))
         else
           let table_name :=
             get_safe_table_name (stem f) (Some (u "CSV")) in
           create_table_for_file table_name df ;;
           insert_data_to_table table_name df ;;
           insert_to_unified_table df (basename f) (u "CSV") ;;
           add_metadata table_name (basename f) (u "CSV")
             (length (rows df)) (length (columns df)) file_size
             (u "csv")
     end)
    (fun e => logger ERROR (MsgCsvFailed (file_path f) e)).

(** The body of [for file_path in files] of
    [merge_all_pricelists]. *)
Definition process_file (f : file) : M unit :=
  logger INFO (MsgProcessingFile (file_path f)) ;;
  let file_ext := suffix_lower f in
  if bool_decide (file_ext ∈ [u ".xlsx"; u ".xls"; u ".xlsm"])
  then process_excel_file f
  else if bool_decide (file_ext = u ".csv")
  then process_csv_file f
  else logger WARNING (MsgUnsupported file_ext).

Definition merge_all_pricelists (env : environment) : M unit :=
  finally
    (try_except
       (logger INFO MsgStart ;;
        connect_db (connect_failure env) ;;
        create_metadata_table ;;
        create_unified_table ;;
        let files := files env in
        logger INFO (MsgFilesFound (length files)) ;;
        if bool_decide (files = [])
        then logger WARNING MsgNoFiles
        else
          for_each files process_file ;;
          total_tables ← query (select_count pricelists_metadata) ;
          total_rows ← query (select_sum pricelists_metadata row_count) ;
          logger INFO MsgDone ;;
          logger INFO (MsgTablesCreated total_tables) ;;
          logger INFO (MsgTotalRows (default 0%Z total_rows)))
       (fun e => logger ERROR (MsgMergeFailed e) ;; raise e))
    (fun w =>
       match conn w with
       | Some _ => (close ;; logger INFO MsgClosed) w
       | None => (Ok tt, w)
       end).

End WithLower.

End Pipeline.
Import Pipeline.

(* ================================================================== *)
(** * Catalog queries ([search_by_source], [export_by_source]) *)
(* ================================================================== *)

Module Reporting.

Definition percent : char := 37.

(** The engine's LIKE folds the case of ASCII letters only. *)
Definition ascii_fold (c : char) : char :=
  if (65 <=? c) && (c <=? 90) then c + 32 else c.

(** [s LIKE p]: [%] stands for any text, [_] for any one character,
    any other character for itself up to ASCII case. *)
Fixpoint like (p s : str) : bool :=
  match p with
  | [] => bool_decide (s = [])
  | c :: p' =>
      if c =? percent
      then (fix any (s : str) : bool :=
              like p' s ||
              match s with
              | [] => false
              | _ :: s' => any s'
              end) s
      else
        match s with
        | [] => false
        | d :: s' =>
            ((c =? underscore) || (ascii_fold c =? ascii_fold d))
            && like p' s'
        end
  end.

(** The leading run of characters that are not white space. *)
Fixpoint word_prefix (s : str) : str :=
  match s with
  | c :: r => if is_space c then [] else c :: word_prefix r
  | [] => []
  end.

(** [source_file.split()[0]]: the first white-space-delimited word;
    [IndexError] when there is none. *)
Definition first_word (source_file : str) : outcome str :=
  match lstrip_by is_space source_file with
  | [] => Raise IndexError
  | t => Ok (word_prefix t)
  end.

(** [value LIKE p] on a stored value; the catalog keeps file names as
    text, and NULL matches nothing. *)
Definition like_value (p : str) (v : option sqlval) : bool :=
  match v with
  | Some (SText s) => like p s
  | _ => false
  end.

(** One fetched row: [(table_name, source_sheet, row_count)]. *)
Definition result_row : Type := sqlval * sqlval * sqlval.

Definition project (r : gmap str sqlval) : result_row :=
  (default SNull (r !! table_name_col),
   default SNull (r !! u "source_sheet"),
   default SNull (r !! row_count)).

(** The columns the query names. *)
Definition query_columns : list str :=
  [table_name_col; u "source_sheet"; row_count; source_file].

(** [SELECT table_name, source_sheet, row_count FROM
    pricelists_metadata WHERE source_file LIKE ?] with the parameter
    [f'%{source_file.split()[0]}%'], and [cursor.fetchall()]. *)
Definition fetch_by_source (source_file_arg : str) (s : store)
    : outcome (list result_row) :=
  match first_word source_file_arg with
  | Raise e => Raise e
  | Ok w =>
      let pattern := percent :: w ++ [percent] in
      match s !! pricelists_metadata with
      | None => Raise (SqlError NoSuchTable)
      | Some t =>
          if forallb (fun c => bool_decide (c ∈ tcolumns t)) query_columns
          then Ok (map project
                     (filter (fun r => like_value pattern (r !! source_file)
                                       = true)
                             (trows t)))
          else Raise (SqlError NoSuchColumn)
      end
  end.

(** What [search_by_source] reports. *)
Inductive search_output :=
| FileNotFound
| TablesFound (results : list result_row)
| SearchFailed (e : exn).

Definition search_by_source (source_file_arg : str) (s : store)
    : search_output :=
  match fetch_by_source source_file_arg s with
  | Raise e => SearchFailed e
  | Ok [] => FileNotFound
  | Ok results => TablesFound results
  end.

(** What [export_by_source] returns, with the rows of its summary
    sheet when it returns [True]. *)
Inductive export_output :=
| ExportFalse
| ExportTrue (summary : list result_row).

Definition export_by_source (source_file_arg : str) (s : store)
    : export_output :=
  match fetch_by_source source_file_arg s with
  | Raise _ => ExportFalse
  | Ok [] => ExportFalse
  | Ok results => ExportTrue results
  end.

(** ** The query as the specification words it *)

(** The rows whose stored file name contains the whole of [q],
    compared exactly. *)
Definition name_contains (q : str) (v : option sqlval) : bool :=
  match v with
  | Some (SText name) => contains q name
  | _ => false
  end.
(** A character that stands for itself in a LIKE pattern. *)
Definition plain_char (c : char) : Prop := c ≠ percent /\ c ≠ underscore.

(** The rows the query returns when its word holds no wild card: the
    stored file name contains the word, up to the case of ASCII
    letters. *)
Definition name_contains_folded (w : str) (v : option sqlval) : bool :=
  match v with
  | Some (SText name) => contains (ascii_fold <$> w) (ascii_fold <$> name)
  | _ => false
  end.

Definition rows_containing (q : str) (s : store) : list result_row :=
  match s !! pricelists_metadata with
  | None => []
  | Some t =>
      map project
        (filter (fun r => name_contains q (r !! source_file) = true)
                (trows t))
  end.

End Reporting.
Import Reporting.

(* ================================================================== *)
(** * What a run keeps true *)
(* ================================================================== *)

Module Invariants.

Local Open Scope py_scope.

(** The store as the connection sees it (empty without a connection). *)
Definition live_of (w : world) : store := default ∅ (conn w).

(** The columns of every table. *)
Definition schema (s : store) : gmap str (list str) := tcolumns <$> s.

(** Every table of [s] is still in [s'], with its columns in place and
    possibly more after them. *)
Definition store_le (s s' : store) : Prop :=
  forall name t, s !! name = Some t ->
    exists t' more, s' !! name = Some t' /\ tcolumns t' = tcolumns t ++ more.

(** Between two methods: a connection is open and every schema change
    has been committed. *)
Definition good (w : world) : Prop :=
  is_Some (conn w) /\ schema (live_of w) = schema (disk w).

(** A method keeps [good] and only extends schemas, whether it returns
    or raises. *)
Definition sound {A} (m : M A) : Prop :=
  forall w r w', good w -> m w = (r, w') ->
    good w' /\ store_le (live_of w) (live_of w').

(** A method that always returns normally. *)
Definition total (m : M unit) : Prop :=
  forall w, exists w', m w = (Ok tt, w').

(** A statement that only extends schemas. *)
Definition grows (stmt : store -> outcome store) : Prop :=
  forall s s', stmt s = Ok s' -> store_le s s'.

(** A statement that leaves every schema as it is. *)
Definition keeps_schema (stmt : store -> outcome store) : Prop :=
  forall s s', stmt s = Ok s' -> schema s' = schema s.

(** The columns of the union table, as the connection sees them. *)
Definition union_columns (w : world) : list str :=
  table_info all_pricelists (live_of w).

(** The first three calls of [merge_all_pricelists], with a connection
    that opens. *)
Definition setup : M unit :=
  connect_db None ;; create_metadata_table ;; create_unified_table.

(** A database file the program can have written: its catalog, if
    there is one, has the [row_count] column. *)
Definition sane (s : store) : Prop :=
  forall t, s !! pricelists_metadata = Some t -> row_count ∈ tcolumns t.

(** The catalog is there and can be summed. *)
Definition has_catalog (s : store) : Prop :=
  exists t, s !! pricelists_metadata = Some t /\ row_count ∈ tcolumns t.

(** The world after one more log line. *)
Definition logged (l : level) (m : message) (w : world) : world :=
  {| disk := disk w; conn := conn w; log := log w ++ [(l, m)] |}.

End Invariants.
Import Invariants.

(* ================================================================== *)
(** * Sample inputs *)
(* ================================================================== *)

Module Samples.

Definition empty_world : world := {| disk := ∅; conn := None; log := [] |}.

(** The world [merge_all_pricelists] processes its files in, on a new
    database file. *)
Definition ready_world : world := (setup empty_world).2.

Definition two_columns : dataframe :=
  {| columns := [u "Наименование"; u "Цена (руб.)"];
     rows := [[CStr (u "Кабель"); CNum 120]; [CStr (u "Розетка"); CNull]] |}.

Definition one_price : dataframe :=
  {| columns := [u "Цена"]; rows := [[CNum 120]] |}.

(** Two cells that collide, and a third that sanitizes to the suffixed
    name. *)
Definition three_cells : dataframe :=
  {| columns := [u "a b"; u "a-b"; u "a_b_1"];
     rows := [[CNum 1; CNum 2; CNum 3]] |}.

(** Two cells that collide, and nothing else. *)
Definition two_alike : dataframe :=
  {| columns := [u "a b"; u "a-b"; u "c"];
     rows := [[CNum 1; CNum 2; CNum 3]] |}.

Definition price_table : dataframe :=
  {| columns := [u "Артикул"; u "Цена"];
     rows := [[CStr (u "A-1"); CNum 120]] |}.

Definition good_sheet : sheet :=
  {| sheet_title := u "Prices";
     read_raw := Ok [[CStr (u "Артикул"); CStr (u "Цена")];
                     [CStr (u "A-1"); CNum 120]];
     read_with_header := fun _ => Ok price_table |}.

(** A sheet that cannot be decoded. *)
Definition bad_sheet : sheet :=
  {| sheet_title := u "Broken";
     read_raw := Raise ReadError;
     read_with_header := fun _ => Raise ReadError |}.

Definition workbook (sheets : list sheet) : file :=
  {| file_path := u "doc/book.xlsx";
     basename := u "book.xlsx";
     stem := u "book";
     suffix_lower := u ".xlsx";
     getsize := Ok 2048;
     excel_file := Ok sheets;
     read_csv := fun _ => CsvRaises ReadError |}.

(** The world a run over [fs] leaves, from a new database file. *)
Definition run_of (fs : list file) : world :=
  (merge_all_pricelists lower_basic
     {| connect_failure := None; files := fs |} empty_world).2.

Definition catalog_entry (table_name file_name : str) : gmap str sqlval :=
  <[table_name_col := SText table_name]>
  (<[source_file := SText file_name]>
  (<[u "source_sheet" := SText (u "CSV")]>
  {[row_count := SInt 2]})).

Definition small_catalog : store :=
  {[ pricelists_metadata :=
       {| tcolumns := metadata_columns;
          trows := [catalog_entry (u "price") (u "price.csv");
                    catalog_entry (u "stock") (u "Stock.csv")] |} ]}.

(** Five banner rows, the header row and two data rows. *)
Definition banner_row : list cell :=
  [CStr (u "Электрорешения для устойчивого будущего");
   CStr (u "Калькуляторы и конфигураторы");
   CStr (u "Новинки: экспресс доставка"); CNull].
Definition header_row : list cell :=
  [CStr (u "Артикул"); CStr (u "Наименование"); CStr (u "Цена"); CNull].
Definition data_row : list cell :=
  [CStr (u "A-1"); CStr (u "Кабель"); CNum 120; CNull].
Definition banner_grid : list (list cell) :=
  [banner_row; banner_row; banner_row; banner_row; banner_row;
   header_row; data_row; data_row].

End Samples.
Import Samples.

(* ================================================================== *)
(** * More of the program *)
(* ================================================================== *)

Module Cleaning.

(** [clean_dataframe(df, start_row)]: [df.iloc[start_row:]] when
    [start_row > 0], else [df] itself; with the frame comes the number
    the INFO line of the first case reports, [None] when no line is
    logged. *)
Definition clean_dataframe (df : grid) (start_row : Z)
    : grid * option Z :=
  if (0 <? start_row)%Z
  then (drop (Z.to_nat start_row) df, Some start_row)
  else (df, None).

End Cleaning.
Import Cleaning.

Module Frames.

Local Open Scope py_scope.

(** A property of stores that holds of the committed store and of the
    store the open connection sees. *)
Definition holds (J : store -> Prop) (w : world) : Prop :=
  is_Some (conn w) /\ J (disk w) /\ J (live_of w).

(** A method that keeps such a property, whether it returns or
    raises. *)
Definition preserves {A : Type} (J : store -> Prop) (m : M A) : Prop :=
  forall w r w', holds J w -> m w = (r, w') -> holds J w'.

(** A statement that keeps it. *)
Definition stable (J : store -> Prop) (stmt : store -> outcome store)
    : Prop :=
  forall s s', J s -> stmt s = Ok s' -> J s'.

(** What a method returns, when it returns. *)
Definition returns {A : Type} (Q : A -> Prop) (m : M A) : Prop :=
  forall w a w', m w = (Ok a, w') -> Q a.

(** Every table of [s0] other than the union table is in [s] with the
    columns it has in [s0]. *)
Definition schemas_fixed (s0 s : store) : Prop :=
  forall name t, name ≠ all_pricelists -> s0 !! name = Some t ->
    exists t', s !! name = Some t' /\ tcolumns t' = tcolumns t.

(** Every table of [s0] other than the catalog is in [s] with the rows
    it has in [s0], in place, and possibly more after them. *)
Definition rows_kept (s0 s : store) : Prop :=
  forall name t, name ≠ pricelists_metadata -> s0 !! name = Some t ->
    exists t' more, s !! name = Some t' /\ trows t' = trows t ++ more.

(** The union table is there and all its columns are [allowed]. *)
Definition union_within (allowed : str -> Prop) (s : store) : Prop :=
  exists t, s !! all_pricelists = Some t /\
    forall c, c ∈ tcolumns t -> allowed c.

Section HeaderCells.
Variable lower : str -> str.

(** [col] is a header cell of a table the run can parse from [f]: of a
    sheet of the workbook, read again at the index the detector
    returns, or of the CSV text under one of the encodings. *)
Definition header_cell (f : file) (col : str) : Prop :=
  (exists sheets sh raw df,
     excel_file f = Ok sheets /\ sh ∈ sheets /\ read_raw sh = Ok raw /\
     read_with_header sh (detect_data_start_row lower raw) = Ok df /\
     col ∈ columns df) \/
  (exists enc df, read_csv f enc = CsvDecoded df /\ col ∈ columns df).

(** A sheet that gives nothing to ingest: it has no first row, or the
    table read again at the detected header row is empty. *)
Definition blank_sheet (sh : sheet) : Prop :=
  exists raw, read_raw sh = Ok raw /\
    (grid_empty raw = true \/
     (grid_empty raw = false /\
      exists df,
        read_with_header sh (detect_data_start_row lower raw) = Ok df /\
        df_empty df = true)).

End HeaderCells.

End Frames.
Import Frames.

Module Viewing.

(** [display_cols = ['id', 'source_row', 'processed_at']] of
    [search_by_source] in view_data.py. *)
Definition display_base : list str := [u "id"; source_row; u "processed_at"].

(** [[col for col in df.columns if col not in display_cols and not
    col.startswith('Unnamed')]]. *)
Definition data_cols (cols : list str) : list str :=
  filter (fun col => negb (bool_decide (col ∈ display_base)) &&
                     negb (starts_with (u "Unnamed") col) = true) cols.

(** [display_cols.extend(data_cols[:3])]. *)
Definition display_cols (cols : list str) : list str :=
  display_base ++ take 3 (data_cols cols).

(** The columns of [df[display_cols]] for a frame with columns [cols];
    [None] is the [KeyError] for a label that is not a column. *)
Definition preview_columns (cols : list str) : option (list str) :=
  if forallb (fun c => bool_decide (c ∈ cols)) (display_cols cols)
  then Some (display_cols cols)
  else None.

End Viewing.
Import Viewing.

Module Exporting.

Definition section_separator : str := u "section_separator".

(** The value of a TEXT column in a fetched row: a text, or [None] for
    NULL. *)
Definition text_at (r : gmap str sqlval) (name : str) : option str :=
  match r !! name with
  | Some (SText s) => Some s
  | _ => None
  end.

(** [drop_duplicates()]: the first occurrence of each value stays. *)
Fixpoint drop_duplicates (l : list str) : list str :=
  match l with
  | [] => []
  | x :: rest => x :: filter (fun y => y ≠ x) (drop_duplicates rest)
  end.

(** [df[df['section_separator'].notna()][['section_separator']]
    .drop_duplicates()]. *)
Definition sections_sheet (rs : list (gmap str sqlval)) : list str :=
  drop_duplicates (omap (fun r => text_at r section_separator) rs).

(** [groupby(['source_file', 'sheet_name']).size()] over the rows given:
    the size of each group; a row with a NULL key is in no group. *)
Definition group_sizes (rs : list (gmap str sqlval))
    : gmap (str * str) nat :=
  fold_left
    (fun m r =>
       match text_at r source_file, text_at r sheet_name_col with
       | Some f, Some sh => <[(f, sh) := S (default 0%nat (m !! (f, sh)))]> m
       | _, _ => m
       end) rs ∅.

(** [df[df['section_separator'].isna()].groupby(...).size()]. *)
Definition source_stats (rs : list (gmap str sqlval))
    : gmap (str * str) nat :=
  group_sizes
    (filter (fun r => text_at r section_separator = None) rs).

Inductive export_failure :=
| TableMissing
| ColumnMissing (name : str).

(** What [export_unified_table] does: it finds no row and returns, or
    ends in its [except] clause (the table or a column it names is not
    there), or hands three sheets to the writer:
    all rows, the distinct section separators, and the number of rows
    per source. *)
Inductive unified_export :=
| UnifiedEmpty
| UnifiedFailed (why : export_failure)
| UnifiedWritten (all_data : table) (sections : list str)
    (stats : gmap (str * str) nat).

(** [export_unified_table()], on the committed store.  The columns the
    three sheets read are declared TEXT, so a value in them is a text or
    NULL. *)
Definition export_unified_table (s : store) : unified_export :=
  match s !! all_pricelists with
  | None => UnifiedFailed TableMissing
  | Some t =>
      if negb (bool_decide (u "id" ∈ tcolumns t))
      then UnifiedFailed (ColumnMissing (u "id"))
      else if bool_decide (trows t = []) then UnifiedEmpty
      else if negb (bool_decide (section_separator ∈ tcolumns t))
      then UnifiedFailed (ColumnMissing section_separator)
      else if negb (bool_decide (source_file ∈ tcolumns t))
      then UnifiedFailed (ColumnMissing source_file)
      else if negb (bool_decide (sheet_name_col ∈ tcolumns t))
      then UnifiedFailed (ColumnMissing sheet_name_col)
      else UnifiedWritten t (sections_sheet (trows t))
             (source_stats (trows t))
  end.

End Exporting.
Import Exporting.

Module MoreSamples.

(** A CSV file in a one-byte Cyrillic encoding: not UTF-8, decoded by
    the second encoding. *)
Definition latin_file : file :=
  {| file_path := u "doc/price.csv";
     basename := u "price.csv";
     stem := u "price";
     suffix_lower := u ".csv";
     getsize := Ok 2048;
     excel_file := Raise ReadError;
     read_csv := fun e =>
       match e with
       | utf_8 => CsvUnicodeError
       | _ => CsvDecoded price_table
       end |}.

(** A file named [.csv] that no encoding decodes. *)
Definition binary_file : file :=
  {| file_path := u "doc/blob.csv";
     basename := u "blob.csv";
     stem := u "blob";
     suffix_lower := u ".csv";
     getsize := Ok 4096;
     excel_file := Raise ReadError;
     read_csv := fun _ => CsvUnicodeError |}.

(** The world after [latin_file] has been processed once on a new
    database file. *)
Definition once_world : world := (process_csv_file latin_file ready_world).2.

(** A workbook sheet with a banner above its header row. *)
Definition banner_sheet : sheet :=
  {| sheet_title := u "Лист1";
     read_raw := Ok banner_grid;
     read_with_header := fun h =>
       match h with
       | 5%nat => Ok price_table
       | _ => Raise ReadError
       end |}.

(** A sheet with no cell, and a sheet with a header row and no data. *)
Definition empty_sheet : sheet :=
  {| sheet_title := u "Пустой";
     read_raw := Ok [];
     read_with_header := fun _ => Ok {| columns := []; rows := [] |} |}.
Definition header_only_sheet : sheet :=
  {| sheet_title := u "Шапка";
     read_raw := Ok [header_row];
     read_with_header := fun _ =>
       Ok {| columns := [u "Артикул"; u "Наименование"; u "Цена"];
             rows := [] |} |}.

End MoreSamples.
Import MoreSamples.

(* ================================================================== *)
(** * Properties *)
(* ================================================================== *)

Local Open Scope py_scope.

(** ** Substrings and stripping *)

Lemma starts_with_spec (p s : list N) :
  starts_with p s = true <-> exists l, s = p ++ l.
Proof.
  revert s. induction p as [|a p IH]; intros s; simpl.
  - split; eauto.
  - destruct s as [|b s].
    + split; [discriminate | intros [l Hl]; discriminate].
    + rewrite andb_true_iff, N.eqb_eq, IH. split.
      * intros [-> [l ->]]. eauto.
      * intros [l Hl]. injection Hl as -> ->. eauto.
Qed.

Lemma contains_spec (p s : list N) :
  contains p s = true <-> exists l1 l2, s = l1 ++ p ++ l2.
Proof.
  induction s as [|b s IH]; simpl.
  - rewrite orb_false_r, starts_with_spec. split.
    + intros [l Hl]. exists [], l. done.
    + intros (l1 & l2 & Hl). destruct l1; simpl in *; [eauto | discriminate].
  - rewrite orb_true_iff, starts_with_spec, IH. split.
    + intros [[l Hl] | (l1 & l2 & Hl)].
      * exists [], l. done.
      * exists (b :: l1), l2. by rewrite Hl.
    + intros (l1 & l2 & Hl). destruct l1 as [|c l1]; simpl in *.
      * left. eauto.
      * right. injection Hl as -> ->. eauto.
Qed.

Lemma contains_infix (p s l1 l2 : list N) :
  contains p s = true -> contains p (l1 ++ s ++ l2) = true.
Proof.
  rewrite !contains_spec. intros (a & b & ->).
  exists (l1 ++ a), (b ++ l2). by rewrite <- !app_assoc.
Qed.

Lemma not_contains_infix (p s l1 l2 : list N) :
  contains p (l1 ++ s ++ l2) = false -> contains p s = false.
Proof.
  intros H. destruct (contains p s) eqn:E; [|done].
  by rewrite (contains_infix _ _ l1 l2 E) in H.
Qed.

Lemma lstrip_by_spec (f : N -> bool) (s : list N) :
  exists l, s = l ++ lstrip_by f s /\ Forall (fun c => f c = true) l.
Proof.
  induction s as [|c s (l & Hl & Hf)]; simpl.
  - exists []. split; [done | constructor].
  - destruct (f c) eqn:E.
    + exists (c :: l). split; [by rewrite Hl at 1 | by constructor].
    + exists []. split; [done | constructor].
Qed.

Lemma lstrip_by_head (f : N -> bool) (s : list N) (c : N) :
  head (lstrip_by f s) = Some c -> f c = false.
Proof.
  induction s as [|a s IH]; simpl; [done|].
  destruct (f a) eqn:E; [done|]. simpl. by intros [= <-].
Qed.

Lemma lstrip_by_all (f : N -> bool) (s : list N) :
  Forall (fun c => f c = true) s -> lstrip_by f s = [].
Proof.
  induction 1 as [|c s Hc _ IH]; simpl; [done|]. by rewrite Hc.
Qed.

Lemma rstrip_by_spec (f : N -> bool) (s : list N) :
  exists l, s = rstrip_by f s ++ l /\ Forall (fun c => f c = true) l.
Proof.
  unfold rstrip_by. destruct (lstrip_by_spec f (reverse s)) as (l & Hl & Hf).
  exists (reverse l). split.
  - rewrite <- reverse_app, <- Hl. by rewrite reverse_involutive.
  - by apply Forall_reverse.
Qed.

Lemma rstrip_by_last (f : N -> bool) (s : list N) (c : N) :
  last (rstrip_by f s) = Some c -> f c = false.
Proof.
  unfold rstrip_by. rewrite last_reverse. apply lstrip_by_head.
Qed.

Lemma strip_by_infix (f : N -> bool) (s : list N) :
  exists l1 l2, s = l1 ++ strip_by f s ++ l2.
Proof.
  unfold strip_by.
  destruct (lstrip_by_spec f s) as (l1 & H1 & _).
  destruct (rstrip_by_spec f (lstrip_by f s)) as (l2 & H2 & _).
  exists l1, l2. by rewrite <- H2.
Qed.

Lemma strip_by_head (f : N -> bool) (s : list N) (c : N) :
  head (strip_by f s) = Some c -> f c = false.
Proof.
  unfold strip_by. intros H.
  destruct (rstrip_by_spec f (lstrip_by f s)) as (l2 & H2 & _).
  apply (lstrip_by_head f s). rewrite H2.
  destruct (rstrip_by f (lstrip_by f s)); [done | exact H].
Qed.

Lemma strip_by_last (f : N -> bool) (s : list N) (c : N) :
  last (strip_by f s) = Some c -> f c = false.
Proof. apply rstrip_by_last. Qed.

Lemma strip_by_all (f : N -> bool) (s : list N) :
  Forall (fun c => f c = true) s -> strip_by f s = [].
Proof. intros H. unfold strip_by. by rewrite (lstrip_by_all f s H). Qed.

(** ** The passes of [clean_column_name] *)

Lemma list_ind2 (P : list N -> Prop) :
  P [] -> (forall a, P [a]) ->
  (forall a b r, P r -> P (b :: r) -> P (a :: b :: r)) ->
  forall s, P s.
Proof.
  intros H0 H1 H2 s.
  enough (P s /\ forall a, P (a :: s)) as [? _] by done.
  induction s as [|b r [IHr IHa]]; split; auto.
Qed.



Lemma contains_dunder_cons2 (a b : N) (r : list N) :
  contains dunder (a :: b :: r) =
  ((a =? underscore) && (b =? underscore)) || contains dunder (b :: r).
Proof.
  change (contains dunder (a :: b :: r))
    with (starts_with dunder (a :: b :: r) || contains dunder (b :: r)).
  f_equal. unfold dunder. cbn [starts_with].
  rewrite (N.eqb_sym underscore a), (N.eqb_sym underscore b).
  by rewrite andb_true_r.
Qed.

Lemma replace_dunder_length (s : list N) :
  (length (replace_dunder s) <= length s)%nat.
Proof.
  induction s as [|a|a b r IHr IHb] using list_ind2; [done..|].
  cbn [replace_dunder].
  destruct ((a =? underscore) && (b =? underscore)); simpl in *; lia.
Qed.

Lemma replace_dunder_shrinks (s : list N) :
  contains dunder s = true ->
  (length (replace_dunder s) < length s)%nat.
Proof.
  induction s as [|a|a b r IHr IHb] using list_ind2.
  - discriminate.
  - cbn. rewrite andb_false_r. discriminate.
  - rewrite contains_dunder_cons2. cbn [replace_dunder].
    destruct ((a =? underscore) && (b =? underscore)); simpl.
    + intros _. pose proof (replace_dunder_length r). lia.
    + intros H. specialize (IHb H). simpl in IHb. lia.
Qed.

Lemma replace_dunder_elem (s : list N) (c : N) :
  c ∈ replace_dunder s -> c ∈ s.
Proof.
  induction s as [|a|a b r IHr IHb] using list_ind2; [done..|].
  cbn [replace_dunder].
  destruct ((a =? underscore) && (b =? underscore)) eqn:E.
  - apply andb_true_iff in E as [Ea _]. apply N.eqb_eq in Ea as ->.
    rewrite !elem_of_cons. intros [->|H]; auto.
  - rewrite elem_of_cons. intros [->|H]; [left|right]; auto.
Qed.

Lemma collapse_loop_no_dunder (fuel : nat) (s : list N) :
  (length s <= fuel)%nat -> contains dunder (collapse_loop fuel s) = false.
Proof.
  revert s. induction fuel as [|f IH]; intros s Hlen; simpl.
  - destruct s; [done | simpl in Hlen; lia].
  - fold dunder. destruct (contains dunder s) eqn:E; [|done].
    apply IH. pose proof (replace_dunder_shrinks s E). lia.
Qed.

(** The loop stops because no [__] is left, not because the bound on
    the number of passes is reached. *)
Lemma collapse_no_dunder (s : list N) : contains dunder (collapse s) = false.
Proof. by apply collapse_loop_no_dunder. Qed.

Lemma collapse_loop_elem (fuel : nat) (s : list N) (c : N) :
  c ∈ collapse_loop fuel s -> c ∈ s.
Proof.
  revert s. induction fuel as [|f IH]; intros s; simpl; [done|].
  destruct (contains _ s); [|done].
  intros H. by apply replace_dunder_elem, IH.
Qed.

Lemma collapse_elem (s : list N) (c : N) : c ∈ collapse s -> c ∈ s.
Proof. apply collapse_loop_elem. Qed.

Lemma fold_replace_char (l s : list N) :
  fold_left (fun s c => replace_char c underscore s) l s =
  map (fun ch => if bool_decide (ch ∈ l) then underscore else ch) s.
Proof.
  revert s. induction l as [|c l IH]; intros s; simpl.
  - induction s as [|a s IHs]; simpl; [done|]. by rewrite <- IHs.
  - rewrite IH. unfold replace_char. rewrite map_map.
    apply map_ext. intros ch.
    destruct (N.eqb_spec ch c) as [->|Hne].
    + rewrite (bool_decide_true (c ∈ c :: l)) by left.
      by destruct (bool_decide (underscore ∈ l)).
    + destruct (bool_decide (ch ∈ l)) eqn:E.
      * apply bool_decide_eq_true in E.
        by rewrite bool_decide_true by (by right).
      * apply bool_decide_eq_false in E.
        rewrite bool_decide_false; [done|].
        rewrite elem_of_cons. intros [?|?]; done.
Qed.

Lemma truncate_prefix (n : nat) (s : list N) :
  exists l, s = truncate n s ++ l.
Proof.
  unfold truncate. destruct (n <? length s)%nat.
  - exists (drop n s). by rewrite take_drop.
  - exists []. by rewrite app_nil_r.
Qed.

Lemma truncate_length (n : nat) (s : list N) :
  (length (truncate n s) <= n)%nat.
Proof.
  unfold truncate. destruct (Nat.ltb_spec n (length s)).
  - rewrite length_take. lia.
  - lia.
Qed.

Lemma truncate_head (n : nat) (s : list N) :
  (0 < n)%nat -> head (truncate n s) = head s.
Proof.
  intros Hn. unfold truncate. destruct (n <? length s)%nat; [|done].
  destruct n; [lia|]. by destruct s.
Qed.

Lemma clean_base_unfold (x : list N) :
  clean_base x =
  let s3 := strip_underscore (collapse (replace_invalid x)) in
  let s4 := if bool_decide (s3 = []) then unnamed_column else s3 in
  let s6 := strip_underscore (strip_leading_digits s4) in
  truncate 50 (if bool_decide (s6 = []) then unnamed_column else s6).
Proof. reflexivity. Qed.

Lemma clean_base_cases (x : list N) :
  clean_base x = unnamed_column \/
  exists l1 l2, collapse (replace_invalid x) = l1 ++ clean_base x ++ l2.
Proof.
  rewrite clean_base_unfold. cbv zeta.
  unfold strip_underscore, strip_leading_digits.
  generalize (collapse (replace_invalid x)). intros s2.
  destruct (strip_by_infix (fun c => c =? underscore) s2) as (a1 & a2 & Ha).
  revert Ha. generalize (strip_by (fun c => c =? underscore) s2).
  intros s3 Ha. destruct (bool_decide (s3 = [])) eqn:E3; [left; vm_compute; reflexivity|].
  destruct (lstrip_by_spec is_digit s3) as (d & Hd & _).
  revert Hd. generalize (lstrip_by is_digit s3). intros s5 Hd.
  destruct (strip_by_infix (fun c => c =? underscore) s5) as (b1 & b2 & Hb).
  revert Hb. generalize (strip_by (fun c => c =? underscore) s5).
  intros s6 Hb. destruct (bool_decide (s6 = [])) eqn:E6; [left; vm_compute; reflexivity|].
  right. destruct (truncate_prefix 50 s6) as (t & Ht).
  revert Ht. generalize (truncate 50 s6). intros y Ht.
  exists (a1 ++ d ++ b1), (t ++ b2 ++ a2).
  rewrite Ha, Hd, Hb, Ht. by rewrite <- !app_assoc.
Qed.

Lemma clean_base_head (x : list N) : head (clean_base x) ≠ Some underscore.
Proof.
  rewrite clean_base_unfold. cbv zeta.
  rewrite truncate_head by lia.
  case_bool_decide as E6; [done|].
  intros H. apply strip_by_head in H. done.
Qed.

Lemma clean_base_nonempty (x : list N) : clean_base x ≠ [].
Proof.
  rewrite clean_base_unfold. cbv zeta. intros H.
  apply (f_equal head) in H. rewrite truncate_head in H by lia.
  case_bool_decide as E6; [done|]. by destruct (strip_underscore _).
Qed.

Lemma clean_base_length (x : list N) : (length (clean_base x) <= 50)%nat.
Proof. rewrite clean_base_unfold. apply truncate_length. Qed.

Lemma underscore_allowed : underscore ∉ invalid_chars.
Proof. apply (bool_decide_unpack _). vm_compute. exact I. Qed.

Lemma unnamed_column_allowed :
  Forall (fun c => c ∉ invalid_chars) unnamed_column.
Proof. apply (bool_decide_unpack _). vm_compute. exact I. Qed.

Lemma replace_invalid_chars (x : list N) :
  Forall (fun c => (c ∉ invalid_chars) /\ (c = underscore \/ c ∈ x)) (replace_invalid x).
Proof.
  unfold replace_invalid. rewrite fold_replace_char. apply Forall_forall.
  intros c Hc. apply list_elem_of_fmap in Hc as (ch & -> & Hch).
  case_bool_decide as E.
  - split; [exact underscore_allowed | by left].
  - split; [done | by right].
Qed.

Lemma clean_base_chars (x : list N) :
  Forall (fun c => c ∉ invalid_chars) (clean_base x) /\
  (clean_base x = unnamed_column \/
   Forall (fun c => c = underscore \/ c ∈ x) (clean_base x)).
Proof.
  assert (Hin : forall l1 l2, collapse (replace_invalid x) = l1 ++ clean_base x ++ l2 ->
               Forall (fun c => (c ∉ invalid_chars) /\ (c = underscore \/ c ∈ x))
                      (clean_base x)).
  { intros l1 l2 H. apply Forall_forall. intros c Hc.
    pose proof (replace_invalid_chars x) as Hr. rewrite Forall_forall in Hr.
    apply Hr, collapse_elem. rewrite H, !elem_of_app. auto. }
  destruct (clean_base_cases x) as [-> | (l1 & l2 & H)].
  - split; [exact unnamed_column_allowed | by left].
  - specialize (Hin _ _ H). split; [|right].
    + eapply Forall_impl; [exact Hin|]. by intros c [? _].
    + eapply Forall_impl; [exact Hin|]. by intros c [_ ?].
Qed.

Lemma clean_base_no_dunder (x : list N) :
  contains dunder (clean_base x) = false.
Proof.
  destruct (clean_base_cases x) as [-> | (l1 & l2 & H)];
    [vm_compute; reflexivity|].
  apply (not_contains_infix _ _ l1 l2). rewrite <- H. apply collapse_no_dunder.
Qed.

(** ** The de-duplication loop *)

Lemma digits_of_uint_inj (d d' : Decimal.uint) :
  digits_of_uint d = digits_of_uint d' -> d = d'.
Proof.
  revert d'. induction d; intros []; simpl; intros H;
    try discriminate H; try reflexivity;
    injection H as H; f_equal; auto.
Qed.

Lemma str_of_N_inj (n m : N) : str_of_N n = str_of_N m -> n = m.
Proof.
  unfold str_of_N. intros H.
  by apply Unsigned.to_uint_inj, digits_of_uint_inj.
Qed.

Lemma suffixed_inj (original_name : list N) (n m : N) :
  suffixed original_name n = suffixed original_name m -> n = m.
Proof.
  unfold suffixed. intros H. apply app_inv_head in H.
  injection H as H. by apply str_of_N_inj.
Qed.

Lemma suffixed_longer (original_name : list N) (n : N) :
  suffixed original_name n ≠ original_name.
Proof.
  unfold suffixed. intros H. apply (f_equal length) in H.
  rewrite length_app in H. simpl in H. lia.
Qed.

Lemma candidate_inj (original_name : list N) (i j : nat) :
  candidate original_name i = candidate original_name j -> i = j.
Proof.
  destruct i, j; simpl; intros H; [done| | |].
  - symmetry in H. by apply suffixed_longer in H.
  - by apply suffixed_longer in H.
  - apply suffixed_inj in H. lia.
Qed.

(** Pigeonhole: the candidates are pairwise different, so a set cannot
    hold more of them than it has elements. *)
Lemma candidates_taken_bound (E : gset (list N)) (original_name : list N)
    (i : nat) :
  (forall j, (j < i)%nat -> candidate original_name j ∈ E) ->
  (i <= size E)%nat.
Proof.
  intros H.
  set (l := candidate original_name <$> seq 0 i).
  assert (NoDup l) as Hnd.
  { apply NoDup_fmap_2_strong; [|apply NoDup_seq].
    intros a b _ _. apply candidate_inj. }
  assert (list_to_set l ⊆ E) as Hsub.
  { intros c Hc. apply elem_of_list_to_set in Hc.
    apply list_elem_of_fmap in Hc as (j & -> & Hj).
    apply H. apply elem_of_seq in Hj. lia. }
  apply subseteq_size in Hsub.
  rewrite size_list_to_set in Hsub by done.
  unfold l in Hsub. by rewrite length_fmap, length_seq in Hsub.
Qed.

Lemma dedup_loop_spec (fuel : nat) (E : gset (list N))
    (original_name : list N) (i : nat) :
  (forall j, (j < i)%nat -> candidate original_name j ∈ E) ->
  (size E < fuel + i)%nat ->
  exists k,
    dedup_loop fuel E original_name (candidate original_name i)
      (N.of_nat (S i)) = candidate original_name k /\
    (i <= k)%nat /\
    (candidate original_name k ∉ E) /\
    (forall j, (j < k)%nat -> candidate original_name j ∈ E).
Proof.
  revert i. induction fuel as [|f IH]; intros i Htaken Hfuel.
  - apply candidates_taken_bound in Htaken. lia.
  - cbn [dedup_loop]. case_bool_decide as Hin.
    + destruct (IH (S i)) as (k & Hk & Hle & Hfresh & Hall).
      * intros j Hj. destruct (decide (j = i)) as [->|]; [done|].
        apply Htaken. lia.
      * lia.
      * exists k. split; [|split; [lia | done]].
        rewrite <- Hk. f_equal. lia.
    + exists i. done.
Qed.

(** The loop ends on a name that is not in the set: the bound on the
    number of tests is never what stops it. *)
Lemma dedup_spec (E : gset (list N)) (column_name : list N) :
  exists k,
    dedup E column_name = candidate column_name k /\
    (candidate column_name k ∉ E) /\
    (forall j, (j < k)%nat -> candidate column_name j ∈ E).
Proof.
  destruct (dedup_loop_spec (S (size E)) E column_name 0) as (k & ? & _ & ? & ?);
    [intros; lia | lia |].
  by exists k.
Qed.

Lemma dedup_fresh (E : gset (list N)) (column_name : list N) :
  dedup E column_name ∉ E.
Proof. destruct (dedup_spec E column_name) as (k & -> & ? & _). done. Qed.

Lemma dedup_free (E : gset (list N)) (column_name : list N) :
  column_name ∉ E -> dedup E column_name = column_name.
Proof.
  intros H. destruct (dedup_spec E column_name) as (k & -> & _ & Hall).
  destruct k; [done|]. destruct H. apply (Hall 0%nat). lia.
Qed.

(** ** Claims on the sanitizer *)

(** C4, as stated, fails: the sanitizer keeps every character that is not
    on its deny-list, so a Cyrillic header comes out unchanged. *)
Lemma sanitize_keeps_cyrillic :
  sanitize (u "Цена") = u "Цена" /\
  ~ Forall (fun c => is_word c = true) (sanitize (u "Цена")).
Proof.
  assert (sanitize (u "Цена") = u "Цена") as E by (vm_compute; reflexivity).
  split; [exact E|]. rewrite E. intros H. vm_compute in H.
  apply Forall_inv in H. vm_compute in H. discriminate H.
Qed.

(** C4, amended: for every input text the output of the sanitizer called
    without a set is not empty, has at most 50 characters, holds no
    character of the deny-list, holds no run of two underscores, does not
    start with an underscore, and is the placeholder or made of underscores
    and characters of the input. *)
Theorem sanitize_output (x : list N) :
  sanitize x ≠ [] /\
  (length (sanitize x) <= 50)%nat /\
  Forall (fun c => c ∉ invalid_chars) (sanitize x) /\
  contains dunder (sanitize x) = false /\
  head (sanitize x) ≠ Some underscore /\
  (sanitize x = unnamed_column \/
   Forall (fun c => c = underscore \/ c ∈ x) (sanitize x)).
Proof.
  unfold sanitize, clean_column_name.
  destruct (clean_base_chars x) as [Hc Hx].
  repeat split.
  - apply clean_base_nonempty.
  - apply clean_base_length.
  - exact Hc.
  - apply clean_base_no_dunder.
  - apply clean_base_head.
  - exact Hx.
Qed.

(** C5: the sanitizer is not idempotent.  A name whose digits are
    followed by an underscore keeps a leading digit, which the second
    pass removes. *)
Theorem sanitize_twice_differs :
  sanitize (u "1_2") = u "2" /\
  sanitize (sanitize (u "1_2")) = unnamed_column /\
  sanitize (sanitize (u "1_2")) ≠ sanitize (u "1_2").
Proof.
  split; [vm_compute; reflexivity|].
  split; [vm_compute; reflexivity|].
  vm_compute. discriminate.
Qed.

(** C6: two names whose sanitized forms collide, sanitized one after the
    other against the same set, come out different; each output is the
    first of [base], [base_1], [base_2], ... that the set does not hold,
    and the call adds it to the set. *)
Theorem collision_gives_distinct_names (a b : list N) (E : gset (list N)) :
  clean_base a = clean_base b ->
  let base := clean_base a in
  let r1 := clean_column_name_with (Some a) E in
  let r2 := clean_column_name_with (Some b) r1.2 in
  r1.1 ≠ r2.1 /\
  (r1.1 ∉ E) /\ r1.2 = {[r1.1]} ∪ E /\
  (r2.1 ∉ r1.2) /\ r2.2 = {[r2.1]} ∪ r1.2 /\
  exists i k, (i < k)%nat /\
    r1.1 = candidate base i /\
    (forall j, (j < i)%nat -> candidate base j ∈ E) /\
    r2.1 = candidate base k /\
    (forall j, (j < k)%nat -> candidate base j ∈ r1.2).
Proof.
  intros Hcoll base r1 r2. subst r1 r2. cbn [clean_column_name_with fst snd].
  rewrite <- Hcoll. fold base.
  destruct (dedup_spec E base) as (i & Hi & Hfi & Hai).
  set (E1 := {[dedup E base]} ∪ E).
  destruct (dedup_spec E1 base) as (k & Hk & Hfk & Hak).
  assert (dedup E base ∈ E1) as Hin1 by (apply elem_of_union_l, elem_of_singleton; reflexivity).
  assert (i < k)%nat as Hlt.
  { destruct (Nat.lt_ge_cases i k) as [|Hge]; [done|].
    destruct Hfk. destruct (decide (k = i)) as [->|Hne].
    - by rewrite <- Hi.
    - apply elem_of_union_r, Hai. lia. }
  split; [|repeat split].
  - rewrite Hi, Hk. intros Heq. apply candidate_inj in Heq. lia.
  - by rewrite Hi.
  - by rewrite Hk.
  - exists i, k. repeat split; done.
Qed.

(** Two headers that collide: ["a b"] and ["a-b"], against the empty set. *)
Lemma collision_gives_distinct_names_witness :
  clean_base (u "a b") = clean_base (u "a-b") /\
  (clean_column_name_with (Some (u "a b")) ∅).1 = u "a_b" /\
  (clean_column_name_with (Some (u "a-b"))
     (clean_column_name_with (Some (u "a b")) ∅).2).1 = u "a_b_1" /\
  (clean_column_name_with (Some (u "a b")) ∅).1 ≠
  (clean_column_name_with (Some (u "a-b"))
     (clean_column_name_with (Some (u "a b")) ∅).2).1.
Proof.
  assert (clean_base (u "a b") = clean_base (u "a-b")) as H
    by (vm_compute; reflexivity).
  split; [exact H|].
  split; [vm_compute; reflexivity|].
  split; [vm_compute; reflexivity|].
  exact (proj1 (collision_gives_distinct_names (u "a b") (u "a-b") ∅ H)).
Defined.

(** ** The table-name variant *)

Lemma squeeze_elem (s : list N) (c : N) : c ∈ squeeze s -> c ∈ s.
Proof.
  induction s as [|a t IH]; [done|]. cbn [squeeze].
  destruct t as [|b r]; [done|].
  destruct ((a =? underscore) && (b =? underscore)).
  - intros H. right. by apply IH.
  - rewrite elem_of_cons. intros [->|H]; [left | right; by apply IH].
Qed.

(** C7: a stem with no character of [[A-Za-z0-9_]], with no sheet name
    or with the sheet name ["CSV"], gives the placeholder table name. *)
Theorem table_name_placeholder (file_name : list N)
    (sheet_name : option (list N)) :
  Forall (fun c => is_word c = false) file_name ->
  sheet_name = None \/ sheet_name = Some (u "CSV") ->
  get_safe_table_name file_name sheet_name = unnamed_table.
Proof.
  intros Hw Hs. unfold get_safe_table_name.
  set (t0 := match sheet_name with
             | Some sh => if bool_decide (sh ≠ []) && bool_decide (sh ≠ u "CSV")
                          then file_name ++ underscore :: sh else file_name
             | None => file_name end).
  assert (t0 = file_name) as ->.
  { subst t0. destruct Hs as [-> | ->]; [done|].
    rewrite (bool_decide_false (u "CSV" ≠ u "CSV")) by (intros H; by apply H).
    by rewrite andb_false_r. }
  set (t1 := map _ file_name).
  assert (Forall (fun c => (c =? underscore) = true) (squeeze t1)) as Hall.
  { apply Forall_forall. intros c Hc. apply squeeze_elem in Hc.
    subst t1. apply list_elem_of_fmap in Hc as (d & -> & Hd).
    rewrite Forall_forall in Hw. by rewrite (Hw d Hd). }
  assert (strip_underscore (squeeze t1) = []) as E
    by apply (strip_by_all _ _ Hall).
  rewrite E. vm_compute. reflexivity.
Qed.

(** A Cyrillic stem with punctuation, for a CSV file. *)
Lemma table_name_placeholder_witness :
  Forall (fun c => is_word c = false) (u "прайс-лист (новый)") /\
  get_safe_table_name (u "прайс-лист (новый)") (Some (u "CSV")) = unnamed_table.
Proof.
  assert (Forall (fun c => is_word c = false) (u "прайс-лист (новый)")) as H
    by (apply (bool_decide_unpack _); vm_compute; exact I).
  split; [exact H|].
  apply (table_name_placeholder _ _ H). right. reflexivity.
Defined.

(** ** Header detector *)

Section DetectorFacts.
Variable lower : list N -> list N.

Lemma count_loop (vocabulary : list (list N)) (r : list cell) (n : nat) :
  fold_left (fun n val => if cell_hits lower vocabulary val then S n else n)
            r n =
  (n + matching_cells lower vocabulary r)%nat.
Proof.
  unfold matching_cells. revert n.
  induction r as [|val r IH]; intros n; cbn [fold_left].
  - rewrite filter_nil. cbn [length]. lia.
  - rewrite IH, filter_cons.
    destruct (cell_hits lower vocabulary val) eqn:E.
    + rewrite decide_True by reflexivity. cbn [length]. lia.
    + rewrite decide_False by discriminate. lia.
Qed.

(** Each counting loop counts the cells that match. *)
Lemma count_hits_matching (vocabulary : list (list N)) (r : list cell) :
  count_hits lower vocabulary r = matching_cells lower vocabulary r.
Proof. unfold count_hits. by rewrite count_loop. Qed.

Lemma accepts_row_qualifies (r : list cell) :
  accepts_row lower r = true <-> qualifies lower r.
Proof.
  unfold accepts_row, qualifies. rewrite !count_hits_matching.
  rewrite andb_true_iff, negb_true_iff, orb_true_iff.
  rewrite Nat.ltb_ge, !Nat.leb_le. done.
Qed.

Lemma scan_rows_step (i : nat) (r : list cell) (rest : list (list cell)) :
  scan_rows lower i (r :: rest) =
  if accepts_row lower r then Some i else scan_rows lower (S i) rest.
Proof.
  cbn [scan_rows]. unfold accepts_row.
  destruct (2 <? count_hits lower service_words r)%nat; [done|].
  by destruct ((3 <=? _)%nat || (2 <=? _)%nat).
Qed.

Lemma scan_rows_some (rs : list (list cell)) (i k : nat) :
  scan_rows lower i rs = Some k ->
  exists j r, k = (i + j)%nat /\ rs !! j = Some r /\ qualifies lower r /\
    forall j' r', (j' < j)%nat -> rs !! j' = Some r' -> ~ qualifies lower r'.
Proof.
  revert i. induction rs as [|r rest IH]; intros i; [discriminate|].
  rewrite scan_rows_step. destruct (accepts_row lower r) eqn:E.
  - intros [= <-]. exists 0%nat, r. split; [lia|]. split; [done|].
    split; [by apply accepts_row_qualifies | intros; lia].
  - intros H. destruct (IH _ H) as (j & r0 & -> & Hj & Hq & Hfirst).
    exists (S j), r0. split; [lia|]. split; [done|]. split; [done|].
    intros [|j'] r' Hlt Hr'.
    + injection Hr' as <-. rewrite <- accepts_row_qualifies. by rewrite E.
    + apply (Hfirst j'); [lia | done].
Qed.

Lemma scan_rows_none (rs : list (list cell)) (i : nat) :
  scan_rows lower i rs = None ->
  forall j r, rs !! j = Some r -> ~ qualifies lower r.
Proof.
  revert i. induction rs as [|r rest IH]; intros i; [done|].
  rewrite scan_rows_step. destruct (accepts_row lower r) eqn:E; [discriminate|].
  intros H [|j] r0 Hr0.
  - injection Hr0 as <-. rewrite <- accepts_row_qualifies. by rewrite E.
  - by apply (IH _ H j).
Qed.

Lemma rows_visited (df : list (list cell)) :
  take (Nat.min 30 (length df)) df = take 30 df.
Proof.
  destruct (Nat.le_ge_cases 30 (length df)).
  - by rewrite Nat.min_l.
  - rewrite Nat.min_r by done. by rewrite firstn_all, take_ge.
Qed.

Lemma detect_chooses (df : list (list cell)) :
  header_choice lower df (detect_data_start_row lower df).
Proof.
  unfold detect_data_start_row. rewrite rows_visited.
  destruct (scan_rows lower 0 (take 30 df)) as [k|] eqn:E.
  - apply scan_rows_some in E as (j & r & -> & Hj & Hq & Hfirst).
    apply lookup_take_Some in Hj as [Hj Hlt].
    apply (first_qualifying lower df _ r); [done..|].
    intros j' r' Hlt' Hr'. apply (Hfirst j'); [done|].
    apply lookup_take_Some. split; [done | lia].
  - apply fallback. intros i r Hi Hr.
    apply (scan_rows_none _ _ E i). apply lookup_take_Some. done.
Qed.

Lemma header_choice_unique (df : list (list cell)) (i k : nat) :
  header_choice lower df i -> header_choice lower df k -> i = k.
Proof.
  intros [i' r Hi Hr Hq Hfirst | Hnone] [k' s Hk Hs Hqs Hfirsts | Hnone'].
  - destruct (Nat.lt_trichotomy i' k') as [Hlt | [-> | Hgt]]; [|done|].
    + destruct (Hfirsts _ _ Hlt Hr Hq).
    + destruct (Hfirst _ _ Hgt Hs Hqs).
  - destruct (Hnone' _ _ Hi Hr Hq).
  - destruct (Hnone _ _ Hk Hs Hqs).
  - done.
Qed.

(** C1: for every raw grid, the detector returns the index of the
    first row among the first 30 that is not vetoed (at most 2
    boilerplate cells) and has at least 3 header cells or at least 2
    strong-indicator cells, and 0 if there is none. *)
Theorem detect_first_qualifying_row (df : list (list cell)) (i : nat) :
  detect_data_start_row lower df = i <-> header_choice lower df i.
Proof.
  split.
  - intros <-. apply detect_chooses.
  - intros H. apply (header_choice_unique df); [apply detect_chooses | done].
Qed.

End DetectorFacts.

(** The scenario of the specification: five banner rows, then the
    header row, then the data. *)
Example detect_after_banner :
  detect_data_start_row lower_basic banner_grid = 5%nat.
Proof. vm_compute. reflexivity. Qed.

(** ** Schemas only grow *)

Lemma store_le_refl (s : gmap (list N) table) : store_le s s.
Proof. intros name t H. exists t, []. by rewrite app_nil_r. Qed.

Lemma store_le_trans (s1 s2 s3 : gmap (list N) table) :
  store_le s1 s2 -> store_le s2 s3 -> store_le s1 s3.
Proof.
  intros H12 H23 name t H.
  destruct (H12 _ _ H) as (t2 & m2 & H2 & E2).
  destruct (H23 _ _ H2) as (t3 & m3 & H3 & E3).
  exists t3, (m2 ++ m3). split; [done|]. by rewrite E3, E2, app_assoc.
Qed.

Lemma store_le_schema (s s' : gmap (list N) table) :
  schema s' = schema s -> store_le s s'.
Proof.
  intros E name t H.
  assert (schema s' !! name = Some (tcolumns t)) as H'.
  { rewrite E. unfold schema. by rewrite lookup_fmap, H. }
  unfold schema in H'. rewrite lookup_fmap in H'.
  destruct (s' !! name) as [t'|] eqn:Et; [|done].
  injection H' as H'. exists t', []. by rewrite app_nil_r.
Qed.

Lemma store_le_info (s s' : gmap (list N) table) (name c : list N) :
  store_le s s' -> c ∈ table_info name s -> c ∈ table_info name s'.
Proof.
  intros Hle. unfold table_info. destruct (s !! name) as [t|] eqn:E.
  - destruct (Hle _ _ E) as (t' & more & -> & ->). intros H.
    apply elem_of_app. by left.
  - intros H. by apply elem_of_nil in H.
Qed.

Lemma schema_insert_same (s : gmap (list N) table) (name : list N)
    (t t' : table) :
  s !! name = Some t -> tcolumns t' = tcolumns t ->
  schema (<[name := t']> s) = schema s.
Proof.
  intros H E. unfold schema. rewrite fmap_insert, E.
  apply insert_id. by rewrite lookup_fmap, H.
Qed.

(** ** The statements *)

Lemma create_table_grows (name : list N) (cols : list (list N)) :
  grows (create_table_if_not_exists name cols).
Proof.
  intros s s'. unfold create_table_if_not_exists.
  destruct (s !! name) as [t|] eqn:E.
  - intros [= <-]. apply store_le_refl.
  - case_bool_decide; [|discriminate]. intros [= <-] n t Hn.
    exists t, []. rewrite app_nil_r. split; [|done].
    rewrite lookup_insert_ne; [done|]. intros ->. by rewrite E in Hn.
Qed.

Lemma alter_table_grows (name col : list N) :
  grows (alter_table_add_column name col).
Proof.
  intros s s'. unfold alter_table_add_column.
  destruct (s !! name) as [t|] eqn:E; [|discriminate].
  case_bool_decide; [discriminate|]. intros [= <-] n t0 Hn.
  destruct (decide (n = name)) as [->|Hne].
  - rewrite E in Hn. injection Hn as <-.
    eexists _, [col]. rewrite lookup_insert_eq. done.
  - exists t0, []. rewrite app_nil_r, lookup_insert_ne; done.
Qed.

Lemma insert_into_keeps (name : list N) (data : gmap (list N) sqlval) :
  keeps_schema (insert_into name data).
Proof.
  intros s s'. unfold insert_into.
  destruct (s !! name) as [t|] eqn:E; [|discriminate].
  destruct (names_known data t); [|discriminate]. intros [= <-].
  by apply (schema_insert_same _ _ t).
Qed.

Lemma insert_or_replace_keeps (name key : list N)
    (data : gmap (list N) sqlval) :
  keeps_schema (insert_or_replace name key data).
Proof.
  intros s s'. unfold insert_or_replace.
  destruct (s !! name) as [t|] eqn:E; [|discriminate].
  destruct (names_known data t); [|discriminate]. intros [= <-].
  by apply (schema_insert_same _ _ t).
Qed.

(** ** The combinators *)

Lemma bind_inv {A B} (m : M A) (k : A -> M B) (w w' : world) (r : outcome B) :
  bind m k w = (r, w') ->
  (exists a w1, m w = (Ok a, w1) /\ k a w1 = (r, w')) \/
  (exists e, m w = (Raise e, w') /\ r = Raise e).
Proof.
  unfold bind. destruct (m w) as [[a|e] w1].
  - intros H. left. eauto.
  - intros [= <- <-]. right. eauto.
Qed.

Lemma try_except_inv {A} (m : M A) (h : exn -> M A) (w w' : world)
    (r : outcome A) :
  try_except m h w = (r, w') ->
  (exists a, m w = (Ok a, w') /\ r = Ok a) \/
  (exists e w1, m w = (Raise e, w1) /\ h e w1 = (r, w')).
Proof.
  unfold try_except. destruct (m w) as [[a|e] w1].
  - intros [= <- <-]. left. eauto.
  - intros H. right. eauto.
Qed.

Lemma sound_ret {A} (a : A) : sound (ret a).
Proof. intros w r w' Hg [= <- <-]. split; [done | apply store_le_refl]. Qed.

Lemma sound_raise {A} (e : exn) : sound (@raise A e).
Proof. intros w r w' Hg [= <- <-]. split; [done | apply store_le_refl]. Qed.

Lemma sound_lift {A} (x : outcome A) : sound (lift x).
Proof. destruct x; [apply sound_ret | apply sound_raise]. Qed.

Lemma sound_logger (l : level) (m : message) : sound (logger l m).
Proof. intros w r w' Hg [= <- <-]. split; [done | apply store_le_refl]. Qed.

Lemma sound_bind {A B} (m : M A) (k : A -> M B) :
  sound m -> (forall a, sound (k a)) -> sound (bind m k).
Proof.
  intros Hm Hk w r w' Hg H.
  apply bind_inv in H as [(a & w1 & H1 & H2) | (e & H1 & ->)].
  - destruct (Hm _ _ _ Hg H1) as [Hg1 Hle1].
    destruct (Hk a _ _ _ Hg1 H2) as [Hg2 Hle2].
    split; [done | by eapply store_le_trans].
  - by apply (Hm _ _ _ Hg H1).
Qed.

Lemma sound_try_except {A} (m : M A) (h : exn -> M A) :
  sound m -> (forall e, sound (h e)) -> sound (try_except m h).
Proof.
  intros Hm Hh w r w' Hg H.
  apply try_except_inv in H as [(a & H1 & ->) | (e & w1 & H1 & H2)].
  - by apply (Hm _ _ _ Hg H1).
  - destruct (Hm _ _ _ Hg H1) as [Hg1 Hle1].
    destruct (Hh e _ _ _ Hg1 H2) as [Hg2 Hle2].
    split; [done | by eapply store_le_trans].
Qed.

Lemma sound_for_each {A} (l : list A) (body : A -> M unit) :
  (forall x, sound (body x)) -> sound (for_each l body).
Proof.
  intros Hb. induction l as [|x l IH]; cbn [for_each].
  - apply sound_ret.
  - apply sound_bind; [apply Hb | intros _; exact IH].
Qed.

Lemma sound_query {A} (q : gmap (list N) table -> outcome A) :
  sound (query q).
Proof.
  intros w r w' Hg. unfold query. destruct (conn w).
  - intros [= <- <-]. split; [done | apply store_le_refl].
  - intros [= <- <-]. split; [done | apply store_le_refl].
Qed.

Lemma sound_commit : sound commit.
Proof.
  intros w r w' [[live Hc] Hs]. unfold commit. rewrite Hc.
  intros [= <- <-]. split.
  - split; [by eexists | done].
  - unfold live_of. cbn. rewrite Hc. apply store_le_refl.
Qed.

Lemma sound_rollback : sound rollback.
Proof.
  intros w r w' [[live Hc] Hs]. unfold rollback. rewrite Hc.
  intros [= <- <-]. split.
  - split; [by eexists | done].
  - unfold live_of in *. cbn. rewrite Hc in *. cbn in *.
    by apply store_le_schema.
Qed.

(** A statement that changes no schema may stay uncommitted. *)
Lemma live_of_conn (w : world) (live : gmap (list N) table) :
  conn w = Some live -> live_of w = live.
Proof. unfold live_of. by intros ->. Qed.

Lemma sound_execute_keeps (stmt : gmap (list N) table -> outcome (gmap (list N) table)) :
  keeps_schema stmt -> sound (execute stmt).
Proof.
  intros Hk w r w' [[live Hc] Hs]. unfold execute. rewrite Hc.
  rewrite (live_of_conn w live Hc) in *.
  destruct (stmt live) as [live'|e] eqn:E.
  - intros [= <- <-]. apply Hk in E. split.
    + split; [by eexists|]. rewrite (live_of_conn _ live') by done.
      cbn [disk]. congruence.
    + rewrite (live_of_conn _ live') by done. by apply store_le_schema.
  - intros [= <- <-]. rewrite (live_of_conn w live Hc).
    split; [|apply store_le_refl].
    split; [by eexists|]. by rewrite (live_of_conn w live Hc).
Qed.

(** A statement that extends a schema is committed at once. *)
Lemma sound_execute_commit {A : Type}
    (stmt : gmap (list N) table -> outcome (gmap (list N) table))
    (k : M A) :
  grows stmt -> sound k -> sound (execute stmt ;; commit ;; k).
Proof.
  intros Hgr Hk w r w' Hg H. pose proof Hg as [[live Hc] Hs].
  unfold bind at 1 in H. unfold execute in H. rewrite Hc in H.
  destruct (stmt live) as [live'|e] eqn:E.
  - unfold bind at 1 in H. unfold commit in H. cbn in H.
    match type of H with k ?w1 = _ => assert (good w1) as Hg1 end.
    { split; [by eexists | done]. }
    destruct (Hk _ _ _ Hg1 H) as [Hg2 Hle]. split; [done|].
    eapply store_le_trans; [|exact Hle].
    unfold live_of. rewrite Hc. cbn. by apply Hgr.
  - injection H as <- <-. split; [done | apply store_le_refl].
Qed.

Lemma sound_execute_commit_end
    (stmt : gmap (list N) table -> outcome (gmap (list N) table)) :
  grows stmt -> sound (execute stmt ;; commit).
Proof.
  intros Hgr w r w' Hg H.
  apply (sound_execute_commit stmt (ret tt) Hgr (sound_ret tt) w r w' Hg).
  revert H. unfold bind, execute, commit, ret.
  destruct (conn w); [|done]. destruct (stmt _); done.
Qed.

(** ** Every method keeps the invariant *)

Create HintDb sound discriminated.
#[local] Hint Resolve create_table_grows alter_table_grows
  insert_into_keeps insert_or_replace_keeps : sound.

Ltac sound_step :=
  first
    [ apply sound_ret | apply sound_raise | apply sound_logger
    | apply sound_lift | apply sound_query | apply sound_commit
    | apply sound_rollback
    | apply sound_execute_commit; [solve [auto with sound] | ]
    | apply sound_execute_commit_end; solve [auto with sound]
    | apply sound_execute_keeps; solve [auto with sound]
    | apply sound_try_except; [ | intros ? ]
    | apply sound_for_each; intros ?
    | apply sound_bind; [ | intros ? ]
    | solve [auto with sound] ].
Ltac sound_auto :=
  repeat first
    [ sound_step
    | match goal with
      | |- sound (if ?b then _ else _) => destruct b
      | |- sound (match ?x with _ => _ end) => destruct x
      | |- sound (let _ := _ in _) => cbv zeta
      end ].

Lemma sound_create_metadata_table : sound create_metadata_table.
Proof. unfold create_metadata_table. sound_auto. Qed.

Lemma sound_create_unified_table : sound create_unified_table.
Proof. unfold create_unified_table. sound_auto. Qed.

Lemma sound_add_column (column_name : list N) :
  sound (add_column_to_unified_table column_name).
Proof. unfold add_column_to_unified_table. cbv zeta. sound_auto. Qed.
#[local] Hint Resolve sound_add_column : sound.

Lemma sound_insert_to_unified_table (df : dataframe)
    (file_name sheet_name : list N) :
  sound (insert_to_unified_table df file_name sheet_name).
Proof.
  unfold insert_to_unified_table. sound_auto.
Qed.

Lemma sound_create_table_for_file (table_name : list N) (df : dataframe) :
  sound (create_table_for_file table_name df).
Proof. unfold create_table_for_file. cbv zeta. sound_auto. Qed.

Lemma sound_insert_data_to_table (table_name : list N) (df : dataframe) :
  sound (insert_data_to_table table_name df).
Proof.
  unfold insert_data_to_table. sound_auto.
Qed.

Lemma sound_add_metadata (table_name file_name sheet_name : list N)
    (n_rows n_columns : nat) (size : N) (file_format : list N) :
  sound (add_metadata table_name file_name sheet_name n_rows n_columns
           size file_format).
Proof. unfold add_metadata. cbv zeta. sound_auto. Qed.

#[local] Hint Resolve sound_insert_to_unified_table
  sound_create_table_for_file sound_insert_data_to_table
  sound_add_metadata : sound.

Section PipelineFacts.
Variable lower : list N -> list N.

Lemma sound_excel_sheet_body (f : file) (file_size : N) (sh : sheet) :
  sound (excel_sheet_body lower f file_size sh).
Proof.
  unfold excel_sheet_body. cbv zeta. sound_auto.
Qed.

Lemma sound_process_excel_file (f : file) :
  sound (process_excel_file lower f).
Proof.
  unfold process_excel_file. sound_auto; apply sound_excel_sheet_body.
Qed.

Lemma sound_try_encodings (f : file) (encodings : list encoding) :
  sound (try_encodings f encodings).
Proof.
  induction encodings as [|enc rest IH]; cbn [try_encodings].
  - sound_auto.
  - destruct (read_csv f enc); [sound_auto | exact IH | sound_auto].
Qed.

Lemma sound_process_csv_file (f : file) : sound (process_csv_file f).
Proof.
  unfold process_csv_file. sound_auto; apply sound_try_encodings.
Qed.

Lemma sound_process_file (f : file) : sound (process_file lower f).
Proof.
  unfold process_file. cbv zeta.
  apply sound_bind; [apply sound_logger | intros _].
  repeat case_bool_decide;
    [apply sound_process_excel_file | apply sound_process_csv_file
    | apply sound_logger].
Qed.

Lemma sound_process_files (fs : list file) :
  sound (for_each fs (process_file lower)).
Proof. apply sound_for_each, sound_process_file. Qed.

End PipelineFacts.

(** ** The union table *)

Lemma store_le_is_Some (s s' : gmap (list N) table) (name : list N) :
  store_le s s' -> is_Some (s !! name) -> is_Some (s' !! name).
Proof. intros Hle [t Ht]. destruct (Hle _ _ Ht) as (t' & _ & -> & _). eauto. Qed.

Lemma union_columns_mono (w w' : world) :
  store_le (live_of w) (live_of w') ->
  union_columns w ⊆ union_columns w'.
Proof. intros Hle c. apply store_le_info, Hle. Qed.

(** Adding a column never raises, and does nothing when the column is
    there. *)
Lemma try_except_total (m : M unit) (h : exn -> M unit) :
  (forall e, total (h e)) -> total (try_except m h).
Proof.
  intros Hh w. unfold try_except. destruct (m w) as [[[]|e] w1]; [eauto|].
  apply Hh.
Qed.

Lemma add_column_total (column_name : list N) (w : world) :
  exists w', add_column_to_unified_table column_name w = (Ok tt, w').
Proof.
  apply (try_except_total _ (fun _ => ret tt)). intros _ w0. by exists w0.
Qed.

Lemma add_column_present (column_name : list N) (w : world) :
  sanitize column_name ∈ union_columns w ->
  add_column_to_unified_table column_name w = (Ok tt, w).
Proof.
  unfold union_columns, table_info, live_of. intros H.
  unfold add_column_to_unified_table, try_except, bind, execute. cbv zeta.
  destruct (conn w) as [live|]; [|done]. cbn in H.
  unfold alter_table_add_column.
  destruct (live !! all_pricelists) as [t|]; [|done].
  fold (sanitize column_name). by rewrite bool_decide_true.
Qed.

Lemma add_column_post (column_name : list N) (w w' : world) (r : outcome unit) :
  good w -> is_Some (live_of w !! all_pricelists) ->
  add_column_to_unified_table column_name w = (r, w') ->
  sanitize column_name ∈ union_columns w'.
Proof.
  intros [[live Hc] _] [t Ht]. rewrite (live_of_conn _ _ Hc) in Ht.
  unfold add_column_to_unified_table, try_except, bind, execute. cbv zeta.
  rewrite Hc. unfold alter_table_add_column. rewrite Ht.
  fold (sanitize column_name). case_bool_decide as Hin.
  - intros [= <- <-]. unfold union_columns, table_info.
    by rewrite (live_of_conn _ _ Hc), Ht.
  - unfold commit. cbn. intros [= <- <-].
    unfold union_columns, table_info, live_of. cbn.
    rewrite lookup_insert_eq. cbn. apply elem_of_app. right. by left.
Qed.

Lemma add_columns_post (cols : list (list N)) (w : world) :
  good w -> is_Some (live_of w !! all_pricelists) ->
  exists w', for_each cols add_column_to_unified_table w = (Ok tt, w') /\
    good w' /\ store_le (live_of w) (live_of w') /\
    forall col, col ∈ cols -> sanitize col ∈ union_columns w'.
Proof.
  revert w. induction cols as [|c cols IH]; intros w Hg Hex.
  - exists w. split; [done|]. split; [done|]. split; [apply store_le_refl|].
    intros col H. by apply elem_of_nil in H.
  - cbn [for_each]. unfold bind at 1.
    destruct (add_column_total c w) as [w1 H1]. rewrite H1.
    destruct (sound_add_column c _ _ _ Hg H1) as [Hg1 Hle1].
    pose proof (add_column_post c _ _ _ Hg Hex H1) as Hc.
    destruct (IH w1 Hg1 (store_le_is_Some _ _ _ Hle1 Hex))
      as (w' & H' & Hg' & Hle' & Hall).
    exists w'. split; [done|]. split; [done|].
    split; [by eapply store_le_trans|].
    intros col [->|Hin]%elem_of_cons; [|by apply Hall].
    by apply (union_columns_mono w1 w').
Qed.

Lemma try_except_bind_ok {A B : Type} (m : M A) (k : A -> M B)
    (h : exn -> M B) (w w1 : world) (a : A) :
  m w = (Ok a, w1) -> try_except (bind m k) h w = try_except (k a) h w1.
Proof. intros H. unfold try_except, bind. by rewrite H. Qed.

Lemma insert_to_unified_table_post (df : dataframe)
    (file_name sheet_name : list N) (w w' : world) (r : outcome unit) :
  good w -> is_Some (live_of w !! all_pricelists) ->
  insert_to_unified_table df file_name sheet_name w = (r, w') ->
  forall col, col ∈ columns df -> sanitize col ∈ union_columns w'.
Proof.
  intros Hg Hex H col Hcol.
  destruct (add_columns_post (columns df) w Hg Hex)
    as (wa & Ha & Hga & Hlea & Hall).
  set (rest := for_each (iterrows df)
         (fun '(index, row) =>
            execute (insert_into all_pricelists
                       (insert_data_for_unified df file_name sheet_name
                          index row))) ;;
       commit ;; logger INFO MsgUnifiedInserted).
  set (h := fun e => logger ERROR (MsgUnifiedInsertFailed e) ;; @raise unit e).
  assert (try_except rest h wa = (r, w')) as H'.
  { rewrite <- H. unfold insert_to_unified_table.
    symmetry. exact (try_except_bind_ok _ (fun _ => rest) h w wa tt Ha). }
  assert (sound (try_except rest h)) as Hs.
  { subst rest h. sound_auto. }
  destruct (Hs _ _ _ Hga H') as [_ Hle].
  apply (union_columns_mono wa w' Hle). by apply Hall.
Qed.

Lemma metadata_columns_NoDup : NoDup metadata_columns.
Proof. apply (bool_decide_unpack _). vm_compute. exact I. Qed.
Lemma unified_columns_NoDup : NoDup unified_columns.
Proof. apply (bool_decide_unpack _). vm_compute. exact I. Qed.

Lemma create_table_ok (name : list N) (cols : list (list N))
    (s : gmap (list N) table) :
  NoDup cols ->
  exists s', create_table_if_not_exists name cols s = Ok s' /\
    is_Some (s' !! name) /\ store_le s s' /\
    (s !! name = None -> s' !! name = Some {| tcolumns := cols; trows := [] |}).
Proof.
  intros Hnd. unfold create_table_if_not_exists.
  destruct (s !! name) as [t|] eqn:E.
  - exists s. rewrite E. split; [done|]. split; [eauto|].
    split; [apply store_le_refl | done].
  - rewrite bool_decide_true by done. eexists. split; [done|].
    rewrite lookup_insert_eq. split; [eauto|]. split; [|done].
    apply (create_table_grows name cols s).
    unfold create_table_if_not_exists. by rewrite E, bool_decide_true.
Qed.

Lemma setup_ok (w : world) :
  exists w', setup w = (Ok tt, w') /\ good w' /\
    is_Some (live_of w' !! all_pricelists) /\
    is_Some (live_of w' !! pricelists_metadata) /\
    store_le (disk w) (live_of w').
Proof.
  unfold setup, connect_db, create_metadata_table, create_unified_table.
  destruct (create_table_ok pricelists_metadata metadata_columns (disk w)
              metadata_columns_NoDup) as (s1 & E1 & Hm1 & Hle1 & _).
  destruct (create_table_ok all_pricelists unified_columns s1
              unified_columns_NoDup) as (s2 & E2 & Hu2 & Hle2 & _).
  eexists. unfold bind, try_except, execute, commit, logger, ret. cbn.
  rewrite E1. cbn. rewrite E2. cbn. split; [reflexivity|].
  split; [split; [by eexists | done]|].
  unfold live_of. cbn. split; [done|].
  split; [by eapply store_le_is_Some | by eapply store_le_trans].
Qed.



(** ** The two [insert_data] dicts of one row *)

Lemma insert_data_for_table_fold (table_columns : list (list N))
    (df : dataframe) (index : nat) (row : list cell) :
  insert_data_for_table table_columns df index row =
  fold_left (table_step table_columns) (zip (columns df) row)
    {[source_row := SInt (Z.of_nat index + 1)]}.
Proof. reflexivity. Qed.

Lemma insert_data_for_unified_fold (df : dataframe)
    (file_name sheet_name : list N) (index : nat) (row : list cell) :
  insert_data_for_unified df file_name sheet_name index row =
  fold_left unified_step (zip (columns df) row)
    (<[source_row := SInt (Z.of_nat index + 1)]>
       (<[sheet_name_col := SText sheet_name]>
          {[source_file := SText file_name]})).
Proof. reflexivity. Qed.

(** A key that no header cell sanitizes to keeps its first value. *)
Lemma table_fold_untouched (tc : list (list N)) (l : list (list N * cell))
    (d : gmap (list N) sqlval) (k : list N) :
  (forall col v, (col, v) ∈ l -> sanitize col ≠ k) ->
  fold_left (table_step tc) l d !! k = d !! k.
Proof.
  revert d. induction l as [|[col v] l IH]; intros d H; [done|].
  cbn [fold_left]. rewrite IH.
  - unfold table_step. case_bool_decide; [|done].
    apply lookup_insert_ne. apply (H col v). by left.
  - intros col' v' Hin. apply (H col' v'). by right.
Qed.

Lemma unified_fold_untouched (l : list (list N * cell))
    (d : gmap (list N) sqlval) (k : list N) :
  (forall col v, (col, v) ∈ l -> sanitize col ≠ k) ->
  fold_left unified_step l d !! k = d !! k.
Proof.
  revert d. induction l as [|[col v] l IH]; intros d H; [done|].
  cbn [fold_left]. rewrite IH.
  - unfold unified_step. apply lookup_insert_ne. apply (H col v). by left.
  - intros col' v' Hin. apply (H col' v'). by right.
Qed.

(** A key holds the value of the last header cell that sanitizes to it. *)
Lemma table_fold_last (tc : list (list N)) (l1 l2 : list (list N * cell))
    (d : gmap (list N) sqlval) (col : list N) (v : cell) :
  sanitize col ∈ tc ->
  (forall col' v', (col', v') ∈ l2 -> sanitize col' ≠ sanitize col) ->
  fold_left (table_step tc) (l1 ++ (col, v) :: l2) d !! sanitize col =
  Some (value_for_table v).
Proof.
  intros Hin Hlast. rewrite fold_left_app. cbn [fold_left].
  rewrite table_fold_untouched by done.
  unfold table_step at 1. fold (sanitize col).
  rewrite bool_decide_true by done. apply lookup_insert_eq.
Qed.

(** Both loops, run over the same cells, keep the two dicts aligned. *)
Lemma folds_aligned (tc : list (list N)) (row : list cell)
    (l : list (list N * cell)) (dt du : gmap (list N) sqlval) :
  (forall col v, (col, v) ∈ l -> v ∈ row) ->
  (forall k v, k ≠ source_row -> dt !! k = Some v ->
     k ∈ tc /\
     exists value, value ∈ row /\ v = value_for_table value /\
       du !! k = Some (value_for_unified value)) ->
  forall k v, k ≠ source_row ->
    fold_left (table_step tc) l dt !! k = Some v ->
    k ∈ tc /\
    exists value, value ∈ row /\ v = value_for_table value /\
      fold_left unified_step l du !! k = Some (value_for_unified value).
Proof.
  revert dt du. induction l as [|[col c] l IH]; intros dt du Hrow Hinv;
    [exact Hinv|].
  cbn [fold_left]. apply IH.
  - intros col' v' Hin. apply (Hrow col' v'). by right.
  - intros k v Hk. unfold table_step, unified_step.
    fold (sanitize col).
    destruct (decide (k = sanitize col)) as [->|Hne].
    + rewrite lookup_insert_eq. case_bool_decide as Htc.
      * rewrite lookup_insert_eq. intros [= <-]. split; [done|]. exists c.
        split; [apply (Hrow col c); by left | done].
      * intros Hdt. by destruct (Hinv _ _ Hk Hdt) as [? _].
    + rewrite lookup_insert_ne by done. case_bool_decide.
      * rewrite lookup_insert_ne by done. by apply Hinv.
      * by apply Hinv.
Qed.

(** C3, as stated, fails: a numeric cell reaches the per-source table as
    a number and the union table as text. *)
Lemma number_stored_differently :
  insert_data_for_table (system_columns ++ [u "Цена"]) one_price 0 [CNum 120]
    !! u "Цена" = Some (SInt 120) /\
  insert_data_for_unified one_price (u "a.csv") (u "CSV") 0 [CNum 120]
    !! u "Цена" = Some (SText (u "120")) /\
  insert_data_for_table (system_columns ++ [u "Цена"]) one_price 0 [CNum 120]
    !! u "Цена" ≠
  insert_data_for_unified one_price (u "a.csv") (u "CSV") 0 [CNum 120]
    !! u "Цена".
Proof.
  assert (insert_data_for_table (system_columns ++ [u "Цена"]) one_price 0
            [CNum 120] !! u "Цена" = Some (SInt 120)) as E1
    by (vm_compute; reflexivity).
  assert (insert_data_for_unified one_price (u "a.csv") (u "CSV") 0
            [CNum 120] !! u "Цена" = Some (SText (u "120"))) as E2
    by (vm_compute; reflexivity).
  split; [exact E1|]. split; [exact E2|]. rewrite E1, E2. discriminate.
Qed.

(** C3, amended: when no header cell sanitizes to the reserved name
    [source_row], both inserts of a row record the ordinal [index + 1],
    and every other value the per-source insert binds comes from a cell
    of the row from which the union insert binds the same column: null
    for a null cell in both, the same text for a text cell in both, and
    for a number the number in the per-source insert and its [str()] in
    the union insert. *)
Theorem inserts_agree_up_to_text (table_columns : list (list N))
    (df : dataframe) (file_name sheet_name : list N) (index : nat)
    (row : list cell) :
  (forall col, col ∈ columns df -> sanitize col ≠ source_row) ->
  let per_source := insert_data_for_table table_columns df index row in
  let union := insert_data_for_unified df file_name sheet_name index row in
  per_source !! source_row = Some (SInt (Z.of_nat index + 1)) /\
  union !! source_row = Some (SInt (Z.of_nat index + 1)) /\
  (forall k v, k ≠ source_row -> per_source !! k = Some v ->
     exists value, value ∈ row /\ v = value_for_table value /\
       union !! k = Some (value_for_unified value)) /\
  (value_for_table CNull = SNull /\ value_for_unified CNull = SNull) /\
  (forall s, value_for_table (CStr s) = SText s /\
             value_for_unified (CStr s) = SText s) /\
  (forall z, value_for_table (CNum z) = SInt z /\
             value_for_unified (CNum z) = SText (str_of_Z z)).
Proof.
  intros Hres per_source union. subst per_source union.
  rewrite insert_data_for_table_fold, insert_data_for_unified_fold.
  assert (forall col v, (col, v) ∈ zip (columns df) row ->
            sanitize col ≠ source_row) as Hres'.
  { intros col v Hin. apply Hres. by apply elem_of_zip_l in Hin. }
  split; [|split; [|split; [|done]]].
  - rewrite table_fold_untouched by done. apply lookup_singleton_eq.
  - rewrite unified_fold_untouched by done. apply lookup_insert_eq.
  - intros k v Hk Hv.
    eapply (folds_aligned table_columns row) in Hv as [_ Hv]; [exact Hv| |  |done].
    + intros col c Hin. by apply elem_of_zip_r in Hin.
    + intros k' v' Hk'. rewrite lookup_singleton_ne by done. discriminate.
Qed.

(** A table with the single column ["Цена"] and one row. *)
Lemma inserts_agree_up_to_text_witness :
  (forall col, col ∈ columns one_price -> sanitize col ≠ source_row) /\
  insert_data_for_table (system_columns ++ [u "Цена"]) one_price 0 [CNum 120]
    !! source_row = Some (SInt 1) /\
  insert_data_for_unified one_price (u "a.csv") (u "CSV") 0 [CNum 120]
    !! source_row = Some (SInt 1).
Proof.
  assert (forall col, col ∈ columns one_price -> sanitize col ≠ source_row)
    as H.
  { intros col Hcol. apply list_elem_of_singleton in Hcol as ->.
    vm_compute. discriminate. }
  split; [exact H|].
  pose proof (inserts_agree_up_to_text (system_columns ++ [u "Цена"])
                one_price (u "a.csv") (u "CSV") 0 [CNum 120] H)
    as (H1 & H2 & _).
  split; [exact H1 | exact H2].
Defined.

(** ** Column names of a per-source table *)

Lemma table_column_names_app (l1 l2 : list (list N)) (E : gset (list N)) :
  table_column_names (l1 ++ l2) E =
  table_column_names l1 E ++
  table_column_names l2 (list_to_set (table_column_names l1 E) ∪ E).
Proof.
  revert E. induction l1 as [|c l1 IH]; intros E.
  - cbn. f_equal. by rewrite (left_id_L ∅ (∪)).
  - cbn [app table_column_names clean_column_name_with]. cbv zeta.
    rewrite IH. cbn [app]. do 3 f_equal.
    rewrite list_to_set_cons.
    generalize (dedup E (clean_base c)). intros x.
    generalize (table_column_names l1 ({[x]} ∪ E)). intros names.
    generalize (list_to_set names : gset (list N)). intros A.
    apply set_eq. intros y. rewrite !elem_of_union. tauto.
Qed.

(** Without a collision every cell gets its plain sanitized name. *)
Lemma table_column_names_plain (cols : list (list N)) (E : gset (list N)) :
  NoDup (sanitize <$> cols) ->
  (forall c, c ∈ cols -> sanitize c ∉ E) ->
  table_column_names cols E = sanitize <$> cols.
Proof.
  revert E. induction cols as [|c cols IH]; intros E Hnd HE; [done|].
  cbn [table_column_names clean_column_name_with]. cbv zeta.
  rewrite fmap_cons in Hnd. apply NoDup_cons in Hnd as [Hc Hnd].
  assert (dedup E (clean_base c) = sanitize c) as ->.
  { apply dedup_free. apply HE. by left. }
  rewrite fmap_cons. f_equal. apply IH; [done|].
  intros c' Hc'. rewrite elem_of_union, elem_of_singleton.
  intros [Heq | Hin].
  - apply Hc. rewrite <- Heq. apply list_elem_of_fmap. eauto.
  - revert Hin. apply HE. by right.
Qed.

Lemma dedup_second (E : gset (list N)) (base : list N) :
  base ∈ E -> suffixed base 1 ∉ E -> dedup E base = suffixed base 1.
Proof.
  intros Hin Hfree. destruct (dedup_spec E base) as (k & -> & Hk & Hall).
  destruct k as [|[|k]]; [done | done |].
  destruct Hfree. apply (Hall 1%nat). lia.
Qed.

Lemma suffixed_1_not_source_row (base : list N) :
  suffixed base 1 ≠ source_row.
Proof.
  unfold suffixed. change (str_of_N 1) with [49].
  change (base ++ [underscore; 49]) with (base ++ [underscore] ++ [49]).
  intros H. apply (f_equal last) in H.
  rewrite app_assoc, last_snoc in H. vm_compute in H. discriminate H.
Qed.

(** The header of the amended C10: cell [cj] collides with a cell of
    [pre]; apart from it no two cells collide, and no cell sanitizes to
    the suffixed name. *)
Section DuplicateHeader.
Variables (pre post : list (list N)) (ci cj : list N).
Hypothesis Hci : ci ∈ pre.
Hypothesis Hcoll : sanitize ci = sanitize cj.
Hypothesis Hothers : NoDup (sanitize <$> (pre ++ post)).
Hypothesis Hfree : suffixed (sanitize cj) 1 ∉ (sanitize <$> (pre ++ post)).

Lemma base_in_pre : sanitize cj ∈ (sanitize <$> pre).
Proof. rewrite <- Hcoll. apply list_elem_of_fmap. eauto. Qed.

Lemma base_not_in_post : sanitize cj ∉ (sanitize <$> post).
Proof.
  rewrite fmap_app in Hothers. apply NoDup_app in Hothers as (_ & Hdis & _).
  intros H. exact (Hdis _ base_in_pre H).
Qed.

Lemma duplicate_header_names :
  table_column_names (pre ++ cj :: post) ∅ =
  (sanitize <$> pre) ++ suffixed (sanitize cj) 1 :: (sanitize <$> post).
Proof.
  pose proof Hothers as Hnd. rewrite fmap_app in Hnd.
  apply NoDup_app in Hnd as (Hpre & Hdis & Hpost).
  pose proof Hfree as Hfree'. rewrite fmap_app, elem_of_app in Hfree'.
  rewrite table_column_names_app.
  rewrite (table_column_names_plain pre ∅ Hpre)
    by (intros; apply not_elem_of_empty).
  f_equal. cbn [table_column_names clean_column_name_with]. cbv zeta.
  change (clean_base cj) with (sanitize cj).
  set (E1 := list_to_set (sanitize <$> pre) ∪ (∅ : gset (list N))).
  assert (forall x, x ∈ E1 <-> x ∈ (sanitize <$> pre)) as HE1.
  { intros x. subst E1. rewrite elem_of_union, elem_of_list_to_set.
    split; [intros [?|H]; [done | by apply not_elem_of_empty in H] | auto]. }
  rewrite (dedup_second E1 (sanitize cj)).
  - f_equal. apply table_column_names_plain; [done|].
    intros c Hc. rewrite elem_of_union, elem_of_singleton, HE1.
    intros [Heq | Hin].
    + apply Hfree'. right. rewrite <- Heq. apply list_elem_of_fmap. eauto.
    + apply (Hdis _ Hin). apply list_elem_of_fmap. eauto.
  - apply HE1, base_in_pre.
  - rewrite HE1. intros H. apply Hfree'. by left.
Qed.

Lemma duplicate_header_NoDup : NoDup (table_column_names (pre ++ cj :: post) ∅).
Proof.
  rewrite duplicate_header_names.
  pose proof Hothers as Hnd. rewrite fmap_app in Hnd.
  apply NoDup_app in Hnd as (Hpre & Hdis & Hpost).
  pose proof Hfree as Hfree'. rewrite fmap_app, elem_of_app in Hfree'.
  apply NoDup_app. split; [done|]. split.
  - intros x Hx [->|Hin]%elem_of_cons; [apply Hfree'; by left|].
    exact (Hdis _ Hx Hin).
  - apply NoDup_cons. split; [|done]. intros H. apply Hfree'. by right.
Qed.

Lemma duplicate_header_row (df : dataframe) (index : nat)
    (rpre rpost : list cell) (vj : cell) :
  columns df = pre ++ cj :: post ->
  length rpre = length pre ->
  let data := insert_data_for_table
                (system_columns ++ table_column_names (pre ++ cj :: post) ∅)
                df index (rpre ++ vj :: rpost) in
  data !! suffixed (sanitize cj) 1 = None /\
  data !! sanitize cj = Some (value_for_table vj).
Proof.
  intros Hcols Hlen data. subst data.
  rewrite insert_data_for_table_fold, Hcols. rewrite duplicate_header_names.
  assert (zip (pre ++ cj :: post) (rpre ++ vj :: rpost) =
          zip pre rpre ++ (cj, vj) :: zip post rpost) as ->.
  { by apply (zip_with_app pair pre (cj :: post) rpre (vj :: rpost)). }
  pose proof Hfree as Hfree'. rewrite fmap_app, elem_of_app in Hfree'.
  split.
  - rewrite table_fold_untouched.
    + apply lookup_singleton_ne. intros H. symmetry in H.
      by apply suffixed_1_not_source_row in H.
    + intros col v [Hin | [[= -> ->] | Hin]%elem_of_cons]%elem_of_app.
      * intros Heq. apply Hfree'. left. rewrite <- Heq.
        apply list_elem_of_fmap. exists col.
        split; [done | by apply elem_of_zip_l in Hin].
      * intros H. symmetry in H. by apply suffixed_longer in H.
      * intros Heq. apply Hfree'. right. rewrite <- Heq.
        apply list_elem_of_fmap. exists col.
        split; [done | by apply elem_of_zip_l in Hin].
  - apply table_fold_last.
    + apply elem_of_app. right.
      apply elem_of_app. left. apply base_in_pre.
    + intros col v Hin Heq. apply base_not_in_post.
      rewrite <- Heq. apply list_elem_of_fmap. exists col.
      split; [done | by apply elem_of_zip_l in Hin].
Qed.

End DuplicateHeader.




(** ** Failure isolation *)

Lemma total_logger (l : level) (m : message) : total (logger l m).
Proof. intros w. by eexists. Qed.

Lemma total_bind (m k : M unit) : total m -> total k -> total (m ;; k).
Proof.
  intros Hm Hk w. destruct (Hm w) as [w1 H1]. destruct (Hk w1) as [w2 H2].
  exists w2. unfold bind. by rewrite H1.
Qed.

Lemma total_for_each {A : Type} (l : list A) (body : A -> M unit) :
  (forall x, total (body x)) -> total (for_each l body).
Proof.
  intros Hb. induction l as [|x l IH]; cbn [for_each].
  - intros w. by exists w.
  - by apply total_bind.
Qed.

Lemma bind_assoc {A B C : Type} (m : M A) (k : A -> M B) (k' : B -> M C)
    (w : world) :
  bind m (fun a => bind (k a) k') w = bind (bind m k) k' w.
Proof. unfold bind. by destruct (m w) as [[a|e] w1]. Qed.

Lemma for_each_app {A : Type} (l1 l2 : list A) (body : A -> M unit)
    (w : world) :
  for_each (l1 ++ l2) body w = (for_each l1 body ;; for_each l2 body) w.
Proof.
  revert w. induction l1 as [|x l1 IH]; intros w; [reflexivity|].
  cbn [app for_each]. unfold bind.
  destruct (body x w) as [[[]|e] w1]; [|reflexivity].
  rewrite IH. reflexivity.
Qed.

Section IsolationFacts.
Variable lower : list N -> list N.

Lemma total_process_excel_file (f : file) :
  total (process_excel_file lower f).
Proof. apply try_except_total. intros e. apply total_logger. Qed.

Lemma total_process_csv_file (f : file) : total (process_csv_file f).
Proof. apply try_except_total. intros e. apply total_logger. Qed.

Lemma total_process_file (f : file) : total (process_file lower f).
Proof.
  unfold process_file. cbv zeta. apply total_bind; [apply total_logger|].
  repeat case_bool_decide;
    [apply total_process_excel_file | apply total_process_csv_file
    | apply total_logger].
Qed.

(** A sheet that raises ends the workbook: the error is logged and the
    sheets after it are not read. *)
Lemma excel_file_stops_at_failure (f : file) (size : N)
    (pre post : list sheet) (sh : sheet) (w w1 w2 : world) (e : exn) :
  getsize f = Ok size ->
  excel_file f = Ok (pre ++ sh :: post) ->
  for_each pre (excel_sheet_body lower f size)
    (logged INFO (MsgProcessingFile (file_path f)) w) = (Ok tt, w1) ->
  excel_sheet_body lower f size sh w1 = (Raise e, w2) ->
  process_excel_file lower f w =
  (Ok tt, logged ERROR (MsgExcelFailed (file_path f) e) w2).
Proof.
  intros Hsize Hopen Hpre Hsh.
  unfold process_excel_file, try_except. rewrite Hsize, Hopen.
  unfold bind at 1. cbn [logger lift]. unfold bind at 1. cbn [ret].
  unfold bind at 1. cbn [ret].
  fold (logged INFO (MsgProcessingFile (file_path f)) w).
  rewrite for_each_app. unfold bind at 1. rewrite Hpre.
  cbn [for_each]. unfold bind at 1. rewrite Hsh. reflexivity.
Qed.

Lemma connect_failure_propagates (env : environment) (w : world) (e : exn) :
  connect_failure env = Some e ->
  exists w', merge_all_pricelists lower env w = (Raise e, w') /\
    disk w' = disk w /\
    (ERROR, MsgConnectFailed e) ∈ log w'.
Proof.
  intros Hfail. unfold merge_all_pricelists, finally, try_except.
  unfold bind at 1. cbn [logger].
  unfold bind at 1. unfold connect_db at 1. rewrite Hfail.
  unfold try_except, raise, bind, logger. cbn.
  destruct (conn w); eexists; (split; [reflexivity|]); cbn;
    (split; [reflexivity|]);
    rewrite !elem_of_app, !list_elem_of_singleton; auto.
Qed.

End IsolationFacts.

(** ** A run with a connection that opens *)

Lemma bind_ok {A B : Type} (m : M A) (k : A -> M B) (w w1 : world) (a : A) :
  m w = (Ok a, w1) -> bind m k w = k a w1.
Proof. intros H. unfold bind. by rewrite H. Qed.

Lemma has_catalog_le (s s' : gmap (list N) table) :
  store_le s s' -> has_catalog s -> has_catalog s'.
Proof.
  intros Hle (t & Ht & Hin). destruct (Hle _ _ Ht) as (t' & more & Ht' & E).
  exists t'. split; [done|]. rewrite E. apply elem_of_app. by left.
Qed.

Lemma row_count_in_metadata : row_count ∈ metadata_columns.
Proof. apply (bool_decide_unpack _). vm_compute. exact I. Qed.

Lemma connect_ok (w : world) :
  exists w', connect_db None w = (Ok tt, w') /\ good w' /\
    live_of w' = disk w /\ disk w' = disk w.
Proof. eexists. split; [reflexivity|]. repeat split. by eexists. Qed.

Lemma create_stmt_ok (name : list N) (cols : list (list N)) (k : M unit)
    (w : world) :
  NoDup cols -> good w ->
  exists w1,
    (execute (create_table_if_not_exists name cols) ;; commit ;; k) w = k w1 /\
    good w1 /\ store_le (live_of w) (live_of w1) /\
    (live_of w !! name = None ->
     live_of w1 !! name = Some {| tcolumns := cols; trows := [] |}).
Proof.
  intros Hnd [[live Hc] Hs]. rewrite (live_of_conn _ _ Hc) in *.
  destruct (create_table_ok name cols live Hnd) as (s' & E & _ & Hle & Hnew).
  eexists. unfold bind at 1, execute. rewrite Hc, E.
  unfold bind at 1, commit. cbn [conn]. split; [reflexivity|].
  split; [split; [by eexists | done]|]. done.
Qed.

Lemma create_metadata_table_ok (w : world) :
  good w -> sane (live_of w) ->
  exists w', create_metadata_table w = (Ok tt, w') /\ good w' /\
    store_le (live_of w) (live_of w') /\ has_catalog (live_of w').
Proof.
  intros Hg Hsane.
  destruct (create_stmt_ok pricelists_metadata metadata_columns
              (logger INFO MsgMetadataTableCreated) w
              metadata_columns_NoDup Hg) as (w1 & E & Hg1 & Hle & Hnew).
  eexists. unfold create_metadata_table, try_except. rewrite E.
  cbn [logger]. split; [reflexivity|].
  split; [exact Hg1|]. split; [exact Hle|].
  unfold has_catalog, live_of at 1. cbn [conn].
  destruct (live_of w !! pricelists_metadata) as [t|] eqn:Et.
  - destruct (Hle _ _ Et) as (t' & more & Ht' & Ecols).
    exists t'. split; [done|]. rewrite Ecols. apply elem_of_app. left.
    by apply Hsane.
  - eexists. split; [by apply Hnew|]. apply row_count_in_metadata.
Qed.

Lemma create_unified_table_ok (w : world) :
  good w ->
  exists w', create_unified_table w = (Ok tt, w') /\ good w' /\
    store_le (live_of w) (live_of w').
Proof.
  intros Hg.
  destruct (create_stmt_ok all_pricelists unified_columns
              (logger INFO MsgUnifiedTableCreated) w
              unified_columns_NoDup Hg) as (w1 & E & Hg1 & Hle & _).
  eexists. unfold create_unified_table, try_except. rewrite E.
  cbn [logger]. split; [reflexivity|]. split; [exact Hg1 | exact Hle].
Qed.

Section RunFacts.
Variable lower : list N -> list N.

Lemma statistics_ok (w : world) :
  good w -> has_catalog (live_of w) ->
  exists w',
    (total_tables ← query (select_count pricelists_metadata) ;
     total_rows ← query (select_sum pricelists_metadata row_count) ;
     logger INFO MsgDone ;;
     logger INFO (MsgTablesCreated total_tables) ;;
     logger INFO (MsgTotalRows (default 0%Z total_rows))) w = (Ok tt, w') /\
    conn w' = conn w.
Proof.
  intros [[live Hc] _] (t & Ht & Hin). rewrite (live_of_conn _ _ Hc) in Ht.
  eexists. unfold bind, query, select_count, select_sum, logger.
  rewrite Hc, Ht. cbn [conn]. rewrite Hc, Ht.
  rewrite bool_decide_true by done. split; [reflexivity | exact Hc].
Qed.

(** With a connection that opens and a database file the program can
    have written, the run returns normally whatever the files are. *)
Lemma merge_returns (env : environment) (w : world) :
  connect_failure env = None -> sane (disk w) ->
  exists w', merge_all_pricelists lower env w = (Ok tt, w').
Proof.
  intros Hconn Hsane.
  destruct (connect_ok (logged INFO MsgStart w))
    as (wc & Ec & Hgc & Hlive & _).
  destruct (create_metadata_table_ok wc Hgc) as (wm & Em & Hgm & _ & Hcat).
  { by rewrite Hlive. }
  destruct (create_unified_table_ok wm Hgm) as (wu & Eu & Hgu & Hleu).
  pose proof (has_catalog_le _ _ Hleu Hcat) as Hcatu.
  unfold merge_all_pricelists, finally, try_except. rewrite Hconn.
  rewrite (bind_ok _ _ w (logged INFO MsgStart w) tt) by reflexivity.
  rewrite (bind_ok _ _ _ _ _ Ec), (bind_ok _ _ _ _ _ Em),
    (bind_ok _ _ _ _ _ Eu).
  cbv zeta.
  rewrite (bind_ok _ _ wu
             (logged INFO (MsgFilesFound (length (files env))) wu) tt)
    by reflexivity.
  set (wl := logged INFO (MsgFilesFound (length (files env))) wu).
  assert (good wl) as Hgl by exact Hgu.
  case_bool_decide as Hfiles.
  - destruct Hgu as [[live Hc] _]. subst wl. unfold logger, logged.
    cbn [conn]. rewrite Hc. eexists. reflexivity.
  - destruct (total_for_each (files env) (process_file lower)
                (total_process_file lower) wl) as [wf Ef].
    rewrite (bind_ok _ _ _ _ _ Ef).
    destruct (sound_process_files lower _ _ _ _ Hgl Ef) as [Hgf Hlef].
    destruct (statistics_ok wf Hgf) as (we & Ee & Hce).
    { eapply has_catalog_le; [exact Hlef | exact Hcatu]. }
    rewrite Ee. destruct Hgf as [[live Hc] _]. rewrite Hce, Hc.
    eexists. reflexivity.
Qed.

End RunFacts.

(** C8, as stated, fails: the sheet after a failing sheet of the same
    workbook is not processed, although it is when the failing sheet is
    not there. *)
Lemma later_sheet_skipped :
  disk (run_of [workbook [bad_sheet; good_sheet]]) !! u "book_Prices" = None /\
  is_Some (disk (run_of [workbook [good_sheet]]) !! u "book_Prices") /\
  (ERROR, MsgExcelFailed (u "doc/book.xlsx") ReadError)
    ∈ log (run_of [workbook [bad_sheet; good_sheet]]) /\
  (INFO, MsgProcessingSheet (u "Prices"))
    ∉ log (run_of [workbook [bad_sheet; good_sheet]]).
Proof.
  split; [vm_compute; reflexivity|].
  split; [vm_compute; eexists; reflexivity|].
  split; apply (bool_decide_unpack _); vm_compute; exact I.
Qed.

Section IsolationClaim.
Variable lower : list N -> list N.

(** A workbook that cannot be opened is logged and left. *)
Lemma excel_file_unreadable (f : file) (size : N) (w : world) (e : exn) :
  getsize f = Ok size ->
  excel_file f = Raise e ->
  process_excel_file lower f w =
  (Ok tt, logged ERROR (MsgExcelFailed (file_path f) e)
            (logged INFO (MsgProcessingFile (file_path f)) w)).
Proof.
  intros Hsize Hopen. unfold process_excel_file, try_except.
  rewrite Hsize, Hopen. reflexivity.
Qed.

(** C8, amended: an exception raised while a file is processed is
    caught and logged by the method that processes that file, which
    then returns normally: the loop over the files goes on with the next
    file and never raises.  In a workbook the sheet that raises and
    every sheet after it are skipped, the sheets before it keep their
    effects.  A connection that cannot be opened makes the run raise
    that exception, with the database file untouched. *)
Theorem failures_are_isolated_per_file :
  (forall fs, total (for_each fs (process_file lower))) /\
  (forall f size w e,
     getsize f = Ok size -> excel_file f = Raise e ->
     process_excel_file lower f w =
     (Ok tt, logged ERROR (MsgExcelFailed (file_path f) e)
               (logged INFO (MsgProcessingFile (file_path f)) w))) /\
  (forall f size pre post sh w w1 w2 e,
     getsize f = Ok size ->
     excel_file f = Ok (pre ++ sh :: post) ->
     for_each pre (excel_sheet_body lower f size)
       (logged INFO (MsgProcessingFile (file_path f)) w) = (Ok tt, w1) ->
     excel_sheet_body lower f size sh w1 = (Raise e, w2) ->
     process_excel_file lower f w =
     (Ok tt, logged ERROR (MsgExcelFailed (file_path f) e) w2)) /\
  (forall env w e,
     connect_failure env = Some e ->
     exists w', merge_all_pricelists lower env w = (Raise e, w') /\
       disk w' = disk w /\ (ERROR, MsgConnectFailed e) ∈ log w') /\
  (forall env w,
     connect_failure env = None -> sane (disk w) ->
     exists w', merge_all_pricelists lower env w = (Ok tt, w')).
Proof.
  split; [|split; [|split; [|split]]].
  - intros fs. apply total_for_each, total_process_file.
  - intros f size w e. apply excel_file_unreadable.
  - intros f size pre post sh w w1 w2 e.
    apply excel_file_stops_at_failure.
  - intros env w e. apply connect_failure_propagates.
  - intros env w. apply merge_returns.
Qed.

End IsolationClaim.

(** A run over one workbook whose first sheet cannot be decoded. *)
Lemma failures_are_isolated_per_file_witness :
  sane (disk empty_world) /\
  exists w',
    merge_all_pricelists lower_basic
      {| connect_failure := None;
         files := [workbook [bad_sheet; good_sheet]] |} empty_world
    = (Ok tt, w').
Proof.
  assert (sane (disk empty_world)) as Hs.
  { intros t H. cbn in H. by rewrite lookup_empty in H. }
  split; [exact Hs|].
  exact (proj2 (proj2 (proj2 (proj2
           (failures_are_isolated_per_file lower_basic))))
           {| connect_failure := None;
              files := [workbook [bad_sheet; good_sheet]] |}
           empty_world eq_refl Hs).
Defined.

(** ** The catalog query *)

Lemma like_percent_step (p s : list N) :
  like (percent :: p) s =
  like p s || match s with
              | [] => false
              | _ :: s' => like (percent :: p) s'
              end.
Proof. destruct s; reflexivity. Qed.

Lemma like_percent (p s : list N) :
  like (percent :: p) s = true <->
  exists l1 l2, s = l1 ++ l2 /\ like p l2 = true.
Proof.
  induction s as [|d s IH]; rewrite like_percent_step, orb_true_iff.
  - split.
    + intros [H | H]; [|discriminate]. by exists [], [].
    + intros (l1 & l2 & E & H). left.
      symmetry in E. apply app_eq_nil in E as [-> ->]. done.
  - rewrite IH. split.
    + intros [H | (l1 & l2 & -> & H)].
      * by exists [], (d :: s).
      * by exists (d :: l1), l2.
    + intros ([|d' l1] & l2 & E & H); simpl in E.
      * left. by rewrite E.
      * right. injection E as -> ->. eauto.
Qed.

Lemma like_percent_only (s : list N) : like [percent] s = true.
Proof. apply like_percent. exists s, []. by rewrite app_nil_r. Qed.

Lemma like_plain (w p s : list N) :
  Forall plain_char w ->
  like (w ++ p) s = true <->
  exists x rest, s = x ++ rest /\
    ascii_fold <$> x = ascii_fold <$> w /\ like p rest = true.
Proof.
  intros Hw. revert s. induction Hw as [|c w [Hc1 Hc2] Hw IH]; intros s.
  - cbn [app]. split.
    + intros H. by exists [], s.
    + intros (x & rest & -> & E & H).
      apply fmap_nil_inv in E as ->. done.
  - cbn [app like].
    rewrite (proj2 (N.eqb_neq c percent)) by done.
    rewrite (proj2 (N.eqb_neq c underscore)) by done.
    destruct s as [|d s].
    + split; [discriminate|]. intros (x & rest & E & Ex & _).
      destruct x; [discriminate Ex | discriminate E].
    + rewrite orb_false_l, andb_true_iff, N.eqb_eq, IH. split.
      * intros (Hcd & x & rest & -> & Ex & H).
        exists (d :: x), rest. rewrite !fmap_cons, Ex, Hcd. done.
      * intros ([|d' x] & rest & E & Ex & H); [discriminate Ex|].
        rewrite !fmap_cons in Ex. injection E as -> ->.
        injection Ex as Hd Ex. eauto 10.
Qed.

(** Without wild cards, [%w%] is a substring test up to ASCII case. *)
Lemma like_word (w name : list N) :
  Forall plain_char w ->
  like (percent :: w ++ [percent]) name =
  contains (ascii_fold <$> w) (ascii_fold <$> name).
Proof.
  intros Hw. apply eq_true_iff_eq.
  rewrite like_percent, contains_spec. split.
  - intros (l1 & l2 & -> & H).
    apply (like_plain w [percent] l2 Hw) in H as (x & rest & -> & Ex & _).
    exists (ascii_fold <$> l1), (ascii_fold <$> rest).
    by rewrite !fmap_app, Ex.
  - intros (a & b & E).
    apply fmap_app_inv in E as (l1 & l2 & -> & E2 & ->).
    symmetry in E2. apply fmap_app_inv in E2 as (x & rest & Ex & -> & ->).
    exists l1, (x ++ rest). split; [done|].
    apply (like_plain w [percent] _ Hw). exists x, rest.
    split; [done|]. split; [done | apply like_percent_only].
Qed.

(** [split()[0]] is the first run of characters that are not white
    space. *)
Lemma word_prefix_spec (t : list N) :
  exists rest, t = word_prefix t ++ rest /\
    Forall (fun c => is_space c = false) (word_prefix t) /\
    (forall c, head rest = Some c -> is_space c = true).
Proof.
  induction t as [|c t (rest & E & Hw & Hr)]; cbn [word_prefix].
  - exists []. split; [done|]. split; [constructor | discriminate].
  - destruct (is_space c) eqn:Ec.
    + exists (c :: t). split; [done|]. split; [constructor|].
      by intros ? [= <-].
    + exists rest. split; [by rewrite E at 1|]. split; [by constructor | done].
Qed.

Lemma first_word_spec (q w : list N) :
  first_word q = Ok w ->
  exists sp rest, q = sp ++ w ++ rest /\
    Forall (fun c => is_space c = true) sp /\
    w ≠ [] /\ Forall (fun c => is_space c = false) w /\
    (forall c, head rest = Some c -> is_space c = true).
Proof.
  unfold first_word. destruct (lstrip_by_spec is_space q) as (sp & E & Hsp).
  pose proof (lstrip_by_head is_space q) as Hhead.
  destruct (lstrip_by is_space q) as [|c t] eqn:Et; [discriminate|].
  intros [= <-].
  destruct (word_prefix_spec (c :: t)) as (rest & Ew & Hw & Hr).
  exists sp, rest. split; [by rewrite E, Ew at 1|].
  split; [done|]. split; [|done].
  cbn [word_prefix]. by rewrite (Hhead c eq_refl).
Qed.

(** C9, as stated, fails: only the first word of the query is used. *)
Lemma query_uses_first_word_only :
  search_by_source (u "price list") small_catalog =
    TablesFound [(SText (u "price"), SText (u "CSV"), SInt 2)] /\
  rows_containing (u "price list") small_catalog = [].
Proof. split; vm_compute; reflexivity. Qed.

(** C9, amended: for a query with at least one word, the fetch returns,
    in catalog order, exactly the rows whose stored file name matches
    the LIKE pattern [%w%], [w] being the first white-space-delimited word
    of the query; when [w] holds no [%] and no [_], these are the rows
    whose file name contains [w] up to the case of ASCII letters. *)
Theorem catalog_query_matches_first_word (q w : list N)
    (s : gmap (list N) table) (t : table) :
  first_word q = Ok w ->
  s !! pricelists_metadata = Some t ->
  forallb (fun c => bool_decide (c ∈ tcolumns t)) query_columns = true ->
  let hits :=
    map project
      (filter (fun r => like_value (percent :: w ++ [percent])
                          (r !! source_file) = true) (trows t)) in
  fetch_by_source q s = Ok hits /\
  search_by_source q s =
    match hits with [] => FileNotFound | _ => TablesFound hits end /\
  export_by_source q s =
    match hits with [] => ExportFalse | _ => ExportTrue hits end /\
  (exists sp rest, q = sp ++ w ++ rest /\
     Forall (fun c => is_space c = true) sp /\
     w ≠ [] /\ Forall (fun c => is_space c = false) w /\
     (forall c, head rest = Some c -> is_space c = true)) /\
  (Forall plain_char w ->
   hits = map project
            (filter (fun r => name_contains_folded w (r !! source_file) = true)
                    (trows t))).
Proof.
  intros Hw Ht Hcols hits.
  assert (fetch_by_source q s = Ok hits) as Hfetch.
  { unfold fetch_by_source. by rewrite Hw, Ht, Hcols. }
  split; [exact Hfetch|].
  split; [unfold search_by_source; by rewrite Hfetch|].
  split; [unfold export_by_source; by rewrite Hfetch|].
  split; [by apply first_word_spec|].
  intros Hplain. subst hits. f_equal. apply list_filter_iff. intros r.
  unfold like_value, name_contains_folded.
  destruct (r !! source_file) as [[| | |name]|]; [done..| |done].
  by rewrite like_word.
Qed.

(** The query ["  Stock list"] against a catalog of two files. *)
Lemma catalog_query_matches_first_word_witness :
  first_word (u "  Stock list") = Ok (u "Stock") /\
  fetch_by_source (u "  Stock list") small_catalog =
    Ok [(SText (u "stock"), SText (u "CSV"), SInt 2)].
Proof.
  assert (first_word (u "  Stock list") = Ok (u "Stock")) as Hw
    by (vm_compute; reflexivity).
  split; [exact Hw|].
  assert (small_catalog !! pricelists_metadata =
          Some {| tcolumns := metadata_columns;
                  trows := [catalog_entry (u "price") (u "price.csv");
                            catalog_entry (u "stock") (u "Stock.csv")] |})
    as Ht by (vm_compute; reflexivity).
  assert (forallb (fun c => bool_decide (c ∈ metadata_columns)) query_columns
          = true) as Hc by (vm_compute; reflexivity).
  rewrite (proj1 (catalog_query_matches_first_word _ _ _ _ Hw Ht Hc)).
  vm_compute. reflexivity.
Defined.

(** ** A header, whatever it is *)

Lemma table_column_names_length (cols : list (list N)) (E : gset (list N)) :
  length (table_column_names cols E) = length cols.
Proof.
  revert E. induction cols as [|c cols IH]; intros E; [done|].
  cbn [table_column_names clean_column_name_with]. cbv zeta.
  cbn [length]. by rewrite IH.
Qed.

Lemma table_column_names_fresh (cols : list (list N)) (E : gset (list N)) :
  NoDup (table_column_names cols E) /\
  forall n, n ∈ table_column_names cols E -> n ∉ E.
Proof.
  revert E. induction cols as [|c cols IH]; intros E.
  - split; [constructor|]. intros n H. by apply elem_of_nil in H.
  - cbn [table_column_names clean_column_name_with]. cbv zeta.
    destruct (IH ({[dedup E (clean_base c)]} ∪ E)) as [Hnd Hfresh].
    pose proof (dedup_fresh E (clean_base c)) as Hd. split.
    + apply NoDup_cons. split; [|done]. intros Hin.
      apply Hfresh in Hin. apply Hin, elem_of_union_l, elem_of_singleton.
      reflexivity.
    + intros n [->|Hin]%elem_of_cons; [done|].
      apply Hfresh in Hin. intros HE. apply Hin. by apply elem_of_union_r.
Qed.

Lemma table_column_names_cover (cols : list (list N)) (E : gset (list N))
    (col : list N) :
  col ∈ cols ->
  sanitize col ∈ E \/ sanitize col ∈ table_column_names cols E.
Proof.
  revert E. induction cols as [|c cols IH]; intros E Hin.
  - by apply elem_of_nil in Hin.
  - cbn [table_column_names clean_column_name_with]. cbv zeta.
    destruct (decide (sanitize col ∈ E)) as [|Hout]; [by left | right].
    apply elem_of_cons in Hin as [->|Hin].
    + apply elem_of_cons. left. symmetry.
      apply (dedup_free E (clean_base c)). exact Hout.
    + destruct (IH ({[dedup E (clean_base c)]} ∪ E) Hin) as [HE|Hn].
      * apply elem_of_union in HE as [HE%elem_of_singleton|HE]; [|done].
        apply elem_of_cons. by left.
      * apply elem_of_cons. by right.
Qed.

Lemma table_column_names_candidate (cols : list (list N)) (E : gset (list N))
    (j : nat) (n c : list N) :
  table_column_names cols E !! j = Some n -> cols !! j = Some c ->
  exists k, n = candidate (sanitize c) k.
Proof.
  revert E j. induction cols as [|c0 cols IH]; intros E j; [done|].
  cbn [table_column_names clean_column_name_with]. cbv zeta.
  destruct j as [|j]; cbn.
  - intros [= <-] [= <-]. destruct (dedup_spec E (clean_base c0)) as (k & Hk & _).
    by exists k.
  - apply IH.
Qed.

(** X1: whatever the header, [create_table_for_file] names one column
    per header cell, all different; each name is the sanitized cell or
    one of its suffixed forms, and the plain sanitized form of every cell
    is among the names, so that row insertion finds a column for every
    cell. *)
Theorem header_columns_distinct (cols : list (list N)) :
  length (table_column_names cols ∅) = length cols /\
  NoDup (table_column_names cols ∅) /\
  (forall j n c, table_column_names cols ∅ !! j = Some n ->
     cols !! j = Some c -> exists k, n = candidate (sanitize c) k) /\
  (forall col, col ∈ cols -> sanitize col ∈ table_column_names cols ∅).
Proof.
  split; [apply table_column_names_length|].
  split; [apply table_column_names_fresh|].
  split; [apply table_column_names_candidate|].
  intros col Hcol.
  destruct (table_column_names_cover cols ∅ col Hcol) as [H|H]; [|done].
  by apply not_elem_of_empty in H.
Qed.

(** ** Table names *)

Lemma Forall_infix {A : Type} (P : A -> Prop) (l1 s l2 : list A) :
  Forall P (l1 ++ s ++ l2) -> Forall P s.
Proof.
  intros H. apply Forall_app in H as [_ H]. by apply Forall_app in H as [H _].
Qed.

Lemma strip_by_Forall (P : N -> Prop) (f : N -> bool) (s : list N) :
  Forall P s -> Forall P (strip_by f s).
Proof.
  intros H. destruct (strip_by_infix f s) as (l1 & l2 & E).
  rewrite E in H. by apply Forall_infix in H.
Qed.

Lemma lstrip_by_Forall (P : N -> Prop) (f : N -> bool) (s : list N) :
  Forall P s -> Forall P (lstrip_by f s).
Proof.
  intros H. destruct (lstrip_by_spec f s) as (l & E & _).
  rewrite E in H. by apply Forall_app in H as [_ H].
Qed.

Lemma truncate_Forall (P : N -> Prop) (n : nat) (s : list N) :
  Forall P s -> Forall P (truncate n s).
Proof.
  intros H. destruct (truncate_prefix n s) as (l & E).
  rewrite E in H. by apply Forall_app in H as [H _].
Qed.

Lemma squeeze_Forall (P : N -> Prop) (s : list N) :
  Forall P s -> Forall P (squeeze s).
Proof.
  rewrite !Forall_forall. intros H c Hc. by apply H, squeeze_elem.
Qed.

Lemma unnamed_table_word : Forall (fun c => is_word c = true) unnamed_table.
Proof. apply (bool_decide_unpack _). vm_compute. exact I. Qed.

Lemma table_prefix_word : Forall (fun c => is_word c = true) (u "table_").
Proof. apply (bool_decide_unpack _). vm_compute. exact I. Qed.

(** X2: whatever the file stem and the sheet title,
    [get_safe_table_name] returns a storage identifier (not empty, only
    [[A-Za-z0-9_]], no leading digit) of at most 56 characters: 50 after
    the cut, and 6 more when the prefix [table_] is added. *)
Theorem table_name_is_identifier (file_name : list N)
    (sheet_name : option (list N)) :
  valid_identifier (get_safe_table_name file_name sheet_name) /\
  (length (get_safe_table_name file_name sheet_name) <= 56)%nat.
Proof.
  unfold get_safe_table_name. cbv zeta.
  generalize (match sheet_name with
              | Some sh =>
                  if bool_decide (sh ≠ []) && bool_decide (sh ≠ u "CSV")
                  then file_name ++ underscore :: sh
                  else file_name
              | None => file_name
              end). intros raw.
  set (t5 := truncate 50 _).
  assert (Forall (fun c => is_word c = true) t5) as Hw5.
  { subst t5. apply truncate_Forall, strip_by_Forall, lstrip_by_Forall,
      strip_by_Forall, squeeze_Forall.
    apply Forall_forall. intros c (d & -> & _)%list_elem_of_fmap.
    destruct (is_word d) eqn:E; [done|]. reflexivity. }
  assert (length t5 <= 50)%nat as Hl5 by apply truncate_length.
  clearbody t5.
  set (t6 := if bool_decide (t5 = []) then unnamed_table else t5).
  assert (Forall (fun c => is_word c = true) t6 /\ t6 ≠ [] /\
          (length t6 <= 50)%nat) as (Hw6 & Hne6 & Hl6).
  { subst t6. case_bool_decide as E.
    - split; [apply unnamed_table_word|].
      split; [|apply Nat.leb_le; vm_compute; reflexivity].
      intros H. apply (f_equal length) in H. vm_compute in H. discriminate.
    - done. }
  clearbody t6. destruct (starts_with_digit t6) eqn:Ed.
  - split; [split; [|split]|].
    + intros H. apply (f_equal length) in H. rewrite length_app in H.
      change (length (u "table_")) with 6%nat in H. cbn [length] in H. lia.
    + apply Forall_app. split; [apply table_prefix_word | done].
    + reflexivity.
    + rewrite length_app. change (length (u "table_")) with 6%nat. lia.
  - split; [done | lia].
Qed.

(** ** Where the sanitizer is idempotent *)

Lemma lstrip_by_id (f : N -> bool) (s : list N) :
  (forall c, head s = Some c -> f c = false) -> lstrip_by f s = s.
Proof.
  destruct s as [|a s]; [done|]. intros H. cbn.
  by rewrite (H a eq_refl).
Qed.

Lemma rstrip_by_id (f : N -> bool) (s : list N) :
  (forall c, last s = Some c -> f c = false) -> rstrip_by f s = s.
Proof.
  intros H. unfold rstrip_by. rewrite lstrip_by_id.
  - apply reverse_involutive.
  - intros c Hc. apply H. by rewrite <- head_reverse.
Qed.

Lemma strip_by_id (f : N -> bool) (s : list N) :
  (forall c, head s = Some c -> f c = false) ->
  (forall c, last s = Some c -> f c = false) -> strip_by f s = s.
Proof.
  intros Hh Hl. unfold strip_by. rewrite (lstrip_by_id f s Hh).
  by apply rstrip_by_id.
Qed.

Lemma replace_invalid_id (s : list N) :
  Forall (fun c => c ∉ invalid_chars) s -> replace_invalid s = s.
Proof.
  intros H. unfold replace_invalid. rewrite fold_replace_char.
  induction H as [|c s Hc _ IH]; [done|]. cbn [map].
  rewrite IH. by rewrite bool_decide_eq_false_2.
Qed.

Lemma collapse_id (s : list N) :
  contains dunder s = false -> collapse s = s.
Proof.
  intros H. unfold collapse. destruct (length s); [done|].
  cbn [collapse_loop]. by rewrite H.
Qed.

Lemma clean_base_fixed (y : list N) :
  y ≠ [] -> (length y <= 50)%nat ->
  Forall (fun c => c ∉ invalid_chars) y ->
  contains dunder y = false ->
  head y ≠ Some underscore -> last y ≠ Some underscore ->
  starts_with_digit y = false ->
  clean_base y = y.
Proof.
  intros Hne Hlen Hchars Hdd Hhead Hlast Hdigit.
  assert (strip_underscore y = y) as Hstrip.
  { apply strip_by_id; intros c Hc; apply N.eqb_neq; intros ->; congruence. }
  rewrite clean_base_unfold. cbv zeta.
  rewrite (replace_invalid_id y Hchars), (collapse_id y Hdd), Hstrip.
  rewrite (bool_decide_eq_false_2 _ Hne).
  assert (strip_leading_digits y = y) as ->.
  { apply lstrip_by_id. intros c Hc. destruct y as [|a y]; [done|].
    injection Hc as ->. exact Hdigit. }
  rewrite Hstrip, (bool_decide_eq_false_2 _ Hne).
  unfold truncate. destruct (Nat.ltb_spec 50 (length y)); [lia|done].
Qed.

(** X3: the sanitizer is idempotent on every output that does not start
    with a digit and does not end with an underscore; the two ways an
    output can move under a second pass are a digit uncovered by the
    second strip and an underscore left at the end by the cut at 50
    characters. *)
Theorem sanitize_idempotent_when_settled (x : list N) :
  starts_with_digit (sanitize x) = false ->
  last (sanitize x) ≠ Some underscore ->
  sanitize (sanitize x) = sanitize x.
Proof.
  unfold sanitize, clean_column_name. intros Hdigit Hlast.
  apply clean_base_fixed; try done.
  - apply clean_base_nonempty.
  - apply clean_base_length.
  - apply clean_base_chars.
  - apply clean_base_no_dunder.
  - apply clean_base_head.
Qed.

Lemma sanitize_idempotent_when_settled_witness :
  starts_with_digit (sanitize (u "Цена (руб.)")) = false /\
  last (sanitize (u "Цена (руб.)")) ≠ Some underscore /\
  sanitize (sanitize (u "Цена (руб.)")) = sanitize (u "Цена (руб.)").
Proof.
  assert (starts_with_digit (sanitize (u "Цена (руб.)")) = false) as H1
    by (vm_compute; reflexivity).
  assert (last (sanitize (u "Цена (руб.)")) ≠ Some underscore) as H2
    by (apply (bool_decide_unpack _); vm_compute; exact I).
  split; [exact H1|]. split; [exact H2|].
  apply (sanitize_idempotent_when_settled _ H1 H2).
Defined.

(** ** The header index *)

Section HeaderIndex.
Variable lower : list N -> list N.

Lemma scan_rows_range (rs : list (list cell)) (i k : nat) :
  scan_rows lower i rs = Some k -> (i <= k < i + length rs)%nat.
Proof.
  intros H. apply scan_rows_some in H as (j & r & -> & Hj & _).
  apply lookup_lt_Some in Hj. lia.
Qed.

Lemma header_index_bound (df : list (list cell)) :
  (detect_data_start_row lower df < 30)%nat /\
  (detect_data_start_row lower df <= length df - 1)%nat.
Proof.
  unfold detect_data_start_row. rewrite rows_visited.
  destruct (scan_rows lower 0 (take 30 df)) as [k|] eqn:E; [|lia].
  apply scan_rows_range in E. rewrite length_take in E. lia.
Qed.

(** X4: the index [detect_data_start_row] returns is below 30 and,
    unless the grid has no row, the index of one of its rows; rows from
    the 31st on play no part in it. *)
Theorem header_index_in_range (df : list (list cell)) :
  (detect_data_start_row lower df < 30)%nat /\
  (detect_data_start_row lower df <= length df - 1)%nat /\
  detect_data_start_row lower df = detect_data_start_row lower (take 30 df).
Proof.
  destruct (header_index_bound df) as [H30 Hlen].
  split; [done|]. split; [done|].
  unfold detect_data_start_row. rewrite !rows_visited.
  by rewrite take_take, Nat.min_id.
Qed.

(** X5: [clean_dataframe] at the index the detector returns keeps the
    chosen header row as its first row and every row after it; the rows
    it drops are the ones before that index. *)
Theorem clean_dataframe_starts_at_header (df : list (list cell)) :
  df ≠ [] ->
  let i := detect_data_start_row lower df in
  exists r rest,
    (clean_dataframe df (Z.of_nat i)).1 = r :: rest /\
    df !! i = Some r /\
    df = take i df ++ r :: rest.
Proof.
  intros Hne. cbv zeta.
  destruct (header_index_bound df) as [_ Hb].
  generalize dependent (detect_data_start_row lower df). intros i Hb.
  assert (i < length df)%nat as Hi.
  { destruct df; [done|]. cbn [length] in Hb |- *. lia. }
  destruct (lookup_lt_is_Some_2 df i Hi) as [r Hr].
  exists r, (drop (S i) df).
  assert (drop i df = r :: drop (S i) df) as Hd by (by apply drop_S).
  split; [|split; [done|]].
  - unfold clean_dataframe. destruct (Z.ltb_spec 0 (Z.of_nat i)).
    + cbn [fst]. rewrite Nat2Z.id. exact Hd.
    + assert (i = 0%nat) as E by lia. subst i.
      rewrite drop_0 in Hd. exact Hd.
  - rewrite <- Hd. by rewrite take_drop.
Qed.

End HeaderIndex.

Lemma clean_dataframe_starts_at_header_witness :
  banner_grid ≠ [] /\
  exists r rest,
    (clean_dataframe banner_grid
       (Z.of_nat (detect_data_start_row lower_basic banner_grid))).1
    = r :: rest /\
    banner_grid !! detect_data_start_row lower_basic banner_grid = Some r /\
    banner_grid =
      take (detect_data_start_row lower_basic banner_grid) banner_grid
      ++ r :: rest.
Proof.
  assert (banner_grid ≠ []) as H by discriminate.
  split; [exact H|].
  apply (clean_dataframe_starts_at_header lower_basic banner_grid H).
Defined.

(** ** Reading a CSV file *)

Lemma try_encodings_skip (f : file) (pre rest : list encoding) (w : world) :
  Forall (fun e => read_csv f e = CsvUnicodeError) pre ->
  try_encodings f (pre ++ rest) w = try_encodings f rest w.
Proof.
  induction 1 as [|e pre He _ IH]; cbn [app try_encodings]; [done|].
  by rewrite He.
Qed.

(** X6: the encodings are tried in order and the first that decodes
    wins: it is logged, its table is the result, and the encodings after
    it are not consulted; an exception other than a decoding error ends
    the search at once with that exception. *)
Theorem first_decodable_encoding_wins (f : file) (pre post : list encoding)
    (enc : encoding) (w : world) :
  Forall (fun e => read_csv f e = CsvUnicodeError) pre ->
  try_encodings f (pre ++ enc :: post) w =
  match read_csv f enc with
  | CsvDecoded df => (Ok (Some df), logged INFO (MsgCsvEncoding enc) w)
  | CsvUnicodeError => try_encodings f post w
  | CsvRaises e => (Raise e, w)
  end.
Proof.
  intros Hpre. rewrite (try_encodings_skip f pre _ w Hpre).
  cbn [try_encodings]. by destruct (read_csv f enc).
Qed.

Lemma first_decodable_encoding_wins_witness :
  Forall (fun e => read_csv latin_file e = CsvUnicodeError) [utf_8] /\
  try_encodings latin_file ([utf_8] ++ cp1251 :: [windows_1251; iso_8859_1])
    empty_world =
  match read_csv latin_file cp1251 with
  | CsvDecoded df => (Ok (Some df), logged INFO (MsgCsvEncoding cp1251) empty_world)
  | CsvUnicodeError => try_encodings latin_file [windows_1251; iso_8859_1] empty_world
  | CsvRaises e => (Raise e, empty_world)
  end.
Proof.
  assert (Forall (fun e => read_csv latin_file e = CsvUnicodeError) [utf_8]) as H
    by (repeat constructor).
  split; [exact H|].
  apply (first_decodable_encoding_wins latin_file [utf_8]
           [windows_1251; iso_8859_1] cp1251 empty_world H).
Defined.

(** X7: a CSV file that none of the four encodings decodes is given up
    with one ERROR line: [process_csv_file] returns normally and the
    database, committed and live, is as before. *)
Theorem undecodable_csv_changes_nothing (f : file) (size : N) (w : world) :
  getsize f = Ok size ->
  (forall e, read_csv f e = CsvUnicodeError) ->
  process_csv_file f w =
  (Ok tt, logged ERROR (MsgCsvUndecodable (file_path f))
            (logged INFO (MsgProcessingCsv (file_path f)) w)).
Proof.
  intros Hsize Hdec. unfold process_csv_file, try_except, bind, logger.
  cbn [disk conn log]. rewrite Hsize. cbn [lift ret].
  cbn [try_encodings]. rewrite !Hdec. reflexivity.
Qed.

Lemma undecodable_csv_changes_nothing_witness :
  getsize binary_file = Ok 4096 /\
  (forall e, read_csv binary_file e = CsvUnicodeError) /\
  process_csv_file binary_file ready_world =
  (Ok tt, logged ERROR (MsgCsvUndecodable (file_path binary_file))
            (logged INFO (MsgProcessingCsv (file_path binary_file))
               ready_world)).
Proof.
  assert (getsize binary_file = Ok 4096) as H1 by reflexivity.
  assert (forall e, read_csv binary_file e = CsvUnicodeError) as H2
    by (intros e; reflexivity).
  split; [exact H1|]. split; [exact H2|].
  apply (undecodable_csv_changes_nothing binary_file 4096 ready_world H1 H2).
Defined.

(** ** Properties kept across commits and rollbacks *)

Section Preserves.
Variable J : gmap (list N) table -> Prop.

Lemma preserves_ret {A : Type} (a : A) : preserves J (ret a).
Proof. by intros w r w' H [= <- <-]. Qed.

Lemma preserves_raise {A : Type} (e : exn) : preserves J (@raise A e).
Proof. by intros w r w' H [= <- <-]. Qed.

Lemma preserves_lift {A : Type} (x : outcome A) : preserves J (lift x).
Proof. destruct x; [apply preserves_ret | apply preserves_raise]. Qed.

Lemma preserves_logger (l : level) (m : message) : preserves J (logger l m).
Proof. by intros w r w' H [= <- <-]. Qed.

Lemma preserves_query {A : Type} (q : gmap (list N) table -> outcome A) :
  preserves J (query q).
Proof.
  intros w r w' H. unfold query. by destruct (conn w); intros [= <- <-].
Qed.

Lemma preserves_commit : preserves J commit.
Proof.
  intros w r w' ([live Hc] & Hd & Hl). unfold commit. rewrite Hc.
  rewrite (live_of_conn w live Hc) in Hl.
  intros [= <- <-]. split; [by eexists|]. split; exact Hl.
Qed.

Lemma preserves_rollback : preserves J rollback.
Proof.
  intros w r w' ([live Hc] & Hd & Hl). unfold rollback. rewrite Hc.
  intros [= <- <-]. split; [by eexists|]. split; exact Hd.
Qed.

Lemma preserves_execute
    (stmt : gmap (list N) table -> outcome (gmap (list N) table)) :
  stable J stmt -> preserves J (execute stmt).
Proof.
  intros Hst w r w' ([live Hc] & Hd & Hl). unfold execute. rewrite Hc.
  rewrite (live_of_conn w live Hc) in Hl.
  destruct (stmt live) as [live'|e] eqn:E; intros [= <- <-].
  - split; [by eexists|]. split; [exact Hd|]. by apply (Hst live live').
  - split; [by eexists|]. split; [exact Hd|].
    by rewrite (live_of_conn w live Hc).
Qed.

Lemma preserves_bind_post {A B : Type} (Q : A -> Prop) (m : M A)
    (k : A -> M B) :
  returns Q m -> preserves J m -> (forall a, Q a -> preserves J (k a)) ->
  preserves J (bind m k).
Proof.
  intros HQ Hm Hk w r w' Hw H.
  apply bind_inv in H as [(a & w1 & H1 & H2) | (e & H1 & ->)].
  - apply (Hk a (HQ _ _ _ H1) w1 r w'); [|done]. by apply (Hm w (Ok a) w1).
  - by apply (Hm w (Raise e) w').
Qed.

Lemma preserves_bind {A B : Type} (m : M A) (k : A -> M B) :
  preserves J m -> (forall a, preserves J (k a)) -> preserves J (bind m k).
Proof.
  intros Hm Hk. apply (preserves_bind_post (fun _ => True)); [done..|].
  intros a _. apply Hk.
Qed.

Lemma preserves_try_except {A : Type} (m : M A) (h : exn -> M A) :
  preserves J m -> (forall e, preserves J (h e)) ->
  preserves J (try_except m h).
Proof.
  intros Hm Hh w r w' Hw H.
  apply try_except_inv in H as [(a & H1 & ->) | (e & w1 & H1 & H2)].
  - by apply (Hm w (Ok a) w').
  - apply (Hh e w1 r w'); [|done]. by apply (Hm w (Raise e) w1).
Qed.

Lemma preserves_for_each {A : Type} (l : list A) (body : A -> M unit) :
  (forall x, x ∈ l -> preserves J (body x)) -> preserves J (for_each l body).
Proof.
  induction l as [|x l IH]; intros Hb; cbn [for_each].
  - apply preserves_ret.
  - apply preserves_bind.
    + apply Hb, elem_of_cons. by left.
    + intros _. apply IH. intros y Hy. apply Hb, elem_of_cons. by right.
Qed.

Lemma returns_lift {A : Type} (x : outcome A) :
  returns (fun a => x = Ok a) (lift x).
Proof. intros w a w'. destruct x; [|done]. by intros [= <- _]. Qed.

End Preserves.

Lemma returns_try_encodings (f : file) (encodings : list encoding) :
  returns (fun r => forall df, r = Some df ->
             exists enc, read_csv f enc = CsvDecoded df)
          (try_encodings f encodings).
Proof.
  induction encodings as [|enc rest IH]; intros w a w';
    cbn [try_encodings].
  - intros [= <- _]. discriminate.
  - destruct (read_csv f enc) as [df| |e] eqn:E.
    + intros [= <- _] df' [= <-]. by exists enc.
    + apply IH.
    + discriminate.
Qed.

(** ** The methods keep what the statements keep *)

Ltac pres_step :=
  first
    [ apply preserves_ret | apply preserves_raise | apply preserves_logger
    | apply preserves_lift | apply preserves_query | apply preserves_commit
    | apply preserves_rollback
    | apply preserves_execute; solve [auto]
    | apply preserves_try_except; [ | intros ? ]
    | apply preserves_bind; [ | intros ? ] ].
Ltac pres_auto :=
  repeat first
    [ pres_step
    | match goal with
      | |- preserves _ (let _ := _ in _) => cbv zeta
      | |- preserves _ (let '(_, _) := ?x in _) => destruct x
      end ].

Section Methods.
Variable J : gmap (list N) table -> Prop.
Variable allowed : list N -> Prop.
Hypothesis J_create : forall name cols,
  stable J (create_table_if_not_exists name cols).
Hypothesis J_insert : forall name data, stable J (insert_into name data).
Hypothesis J_replace : forall data,
  stable J (insert_or_replace pricelists_metadata table_name_col data).
Hypothesis J_alter : forall c,
  allowed c -> stable J (alter_table_add_column all_pricelists c).

Lemma preserves_add_column (column_name : list N) :
  allowed (sanitize column_name) ->
  preserves J (add_column_to_unified_table column_name).
Proof.
  intros Hc. unfold add_column_to_unified_table. cbv zeta.
  pres_auto.
Qed.

Lemma preserves_insert_to_unified_table (df : dataframe)
    (file_name sheet_name : list N) :
  (forall col, col ∈ columns df -> allowed (sanitize col)) ->
  preserves J (insert_to_unified_table df file_name sheet_name).
Proof.
  intros Hcols. unfold insert_to_unified_table. pres_auto.
  - apply preserves_for_each. intros col Hcol.
    by apply preserves_add_column, Hcols.
  - apply preserves_for_each. intros [index row] _. pres_auto.
Qed.

Lemma preserves_create_table_for_file (table_name : list N)
    (df : dataframe) :
  preserves J (create_table_for_file table_name df).
Proof. unfold create_table_for_file. cbv zeta. pres_auto. Qed.

Lemma preserves_insert_data_to_table (table_name : list N)
    (df : dataframe) :
  preserves J (insert_data_to_table table_name df).
Proof.
  unfold insert_data_to_table. pres_auto.
  apply preserves_for_each. intros [index row] _. pres_auto.
Qed.

Lemma preserves_add_metadata (table_name file_name sheet_name : list N)
    (n_rows n_columns : nat) (size : N) (file_format : list N) :
  preserves J (add_metadata table_name file_name sheet_name n_rows
                 n_columns size file_format).
Proof. unfold add_metadata. cbv zeta. pres_auto. Qed.

Lemma preserves_ingest (table_name file_name sheet_name : list N)
    (df : dataframe) (size : N) (file_format : list N) :
  (forall col, col ∈ columns df -> allowed (sanitize col)) ->
  preserves J
    (create_table_for_file table_name df ;;
     insert_data_to_table table_name df ;;
     insert_to_unified_table df file_name sheet_name ;;
     add_metadata table_name file_name sheet_name
       (length (rows df)) (length (columns df)) size file_format).
Proof.
  intros Hcols.
  apply preserves_bind; [apply preserves_create_table_for_file | intros _].
  apply preserves_bind; [apply preserves_insert_data_to_table | intros _].
  apply preserves_bind;
    [by apply preserves_insert_to_unified_table | intros _].
  apply preserves_add_metadata.
Qed.

Section Files.
Variable lower : list N -> list N.

Lemma preserves_excel_sheet_body (f : file) (file_size : N) (sh : sheet) :
  (forall raw df col, read_raw sh = Ok raw ->
     read_with_header sh (detect_data_start_row lower raw) = Ok df ->
     col ∈ columns df -> allowed (sanitize col)) ->
  preserves J (excel_sheet_body lower f file_size sh).
Proof.
  intros Hcells. unfold excel_sheet_body. cbv zeta.
  apply preserves_bind; [apply preserves_logger | intros _].
  apply (preserves_bind_post J (fun raw => read_raw sh = Ok raw));
    [apply returns_lift | apply preserves_lift | intros raw Hraw].
  destruct (grid_empty raw); [apply preserves_logger|].
  apply preserves_bind; [apply preserves_logger | intros _].
  apply (preserves_bind_post J
           (fun df => read_with_header sh
                        (detect_data_start_row lower raw) = Ok df));
    [apply returns_lift | apply preserves_lift | intros df Hdf].
  destruct (df_empty df); [apply preserves_logger|].
  apply preserves_ingest. intros col Hcol. by apply (Hcells raw df).
Qed.

Lemma preserves_process_excel_file (f : file) :
  (forall col, header_cell lower f col -> allowed (sanitize col)) ->
  preserves J (process_excel_file lower f).
Proof.
  intros Hcells. unfold process_excel_file.
  apply preserves_try_except; [|intros e; apply preserves_logger].
  apply preserves_bind; [apply preserves_logger | intros _].
  apply preserves_bind; [apply preserves_lift | intros size].
  apply (preserves_bind_post J (fun sheets => excel_file f = Ok sheets));
    [apply returns_lift | apply preserves_lift | intros sheets Hsheets].
  apply preserves_for_each. intros sh Hsh.
  apply preserves_excel_sheet_body. intros raw df col Hraw Hdf Hcol.
  apply Hcells. left. by exists sheets, sh, raw, df.
Qed.

Lemma preserves_try_encodings (f : file) (encodings : list encoding) :
  preserves J (try_encodings f encodings).
Proof.
  induction encodings as [|enc rest IH]; cbn [try_encodings].
  - apply preserves_ret.
  - destruct (read_csv f enc); [pres_auto | exact IH | pres_auto].
Qed.

Lemma preserves_process_csv_file (f : file) :
  (forall col, header_cell lower f col -> allowed (sanitize col)) ->
  preserves J (process_csv_file f).
Proof.
  intros Hcells. unfold process_csv_file.
  apply preserves_try_except; [|intros e; apply preserves_logger].
  apply preserves_bind; [apply preserves_logger | intros _].
  apply preserves_bind; [apply preserves_lift | intros size].
  eapply preserves_bind_post;
    [apply returns_try_encodings | apply preserves_try_encodings |].
  intros [df|] Hdf; [|apply preserves_logger].
  destruct (Hdf df eq_refl) as [enc Henc].
  destruct (df_empty df); [apply preserves_logger|].
  apply preserves_ingest. intros col Hcol.
  apply Hcells. right. by exists enc, df.
Qed.

Lemma preserves_process_file (f : file) :
  (forall col, header_cell lower f col -> allowed (sanitize col)) ->
  preserves J (process_file lower f).
Proof.
  intros Hcells. unfold process_file. cbv zeta.
  apply preserves_bind; [apply preserves_logger | intros _].
  repeat case_bool_decide;
    [by apply preserves_process_excel_file
    | by apply preserves_process_csv_file | apply preserves_logger].
Qed.

Lemma preserves_process_files (fs : list file) :
  (forall f col, f ∈ fs -> header_cell lower f col ->
     allowed (sanitize col)) ->
  preserves J (for_each fs (process_file lower)).
Proof.
  intros Hcells. apply preserves_for_each. intros f Hf.
  apply preserves_process_file. intros col. by apply Hcells.
Qed.

End Files.
End Methods.

(** ** What each statement leaves in place *)

Lemma create_table_effect (name : list N) (cols : list (list N))
    (s s' : gmap (list N) table) :
  create_table_if_not_exists name cols s = Ok s' ->
  forall n t, s !! n = Some t -> s' !! n = Some t.
Proof.
  unfold create_table_if_not_exists.
  destruct (s !! name) as [t0|] eqn:E.
  - by intros [= <-].
  - case_bool_decide; [|discriminate]. intros [= <-] n t Hn.
    rewrite lookup_insert_ne; [done|]. intros ->. by rewrite E in Hn.
Qed.

Lemma alter_table_effect (name col : list N) (s s' : gmap (list N) table) :
  alter_table_add_column name col s = Ok s' ->
  forall n t, s !! n = Some t ->
    exists t', s' !! n = Some t' /\ trows t' = trows t /\
      (n ≠ name -> t' = t) /\
      (n = name -> tcolumns t' = tcolumns t ++ [col]).
Proof.
  unfold alter_table_add_column.
  destruct (s !! name) as [t0|] eqn:E; [|discriminate].
  case_bool_decide; [discriminate|]. intros [= <-] n t Hn.
  destruct (decide (n = name)) as [->|Hne].
  - rewrite E in Hn. injection Hn as <-. eexists.
    rewrite lookup_insert_eq. done.
  - exists t. rewrite lookup_insert_ne by done. done.
Qed.

Lemma insert_into_effect (name : list N) (data : gmap (list N) sqlval)
    (s s' : gmap (list N) table) :
  insert_into name data s = Ok s' ->
  forall n t, s !! n = Some t ->
    exists t', s' !! n = Some t' /\ tcolumns t' = tcolumns t /\
      (n ≠ name -> t' = t) /\
      (n = name -> trows t' = trows t ++ [data]).
Proof.
  unfold insert_into.
  destruct (s !! name) as [t0|] eqn:E; [|discriminate].
  destruct (names_known data t0); [|discriminate]. intros [= <-] n t Hn.
  destruct (decide (n = name)) as [->|Hne].
  - rewrite E in Hn. injection Hn as <-. eexists.
    rewrite lookup_insert_eq. done.
  - exists t. rewrite lookup_insert_ne by done. done.
Qed.

Lemma insert_or_replace_effect (name key : list N)
    (data : gmap (list N) sqlval) (s s' : gmap (list N) table) :
  insert_or_replace name key data s = Ok s' ->
  forall n t, s !! n = Some t ->
    exists t', s' !! n = Some t' /\ tcolumns t' = tcolumns t /\
      (n ≠ name -> t' = t).
Proof.
  unfold insert_or_replace.
  destruct (s !! name) as [t0|] eqn:E; [|discriminate].
  destruct (names_known data t0); [|discriminate]. intros [= <-] n t Hn.
  destruct (decide (n = name)) as [->|Hne].
  - rewrite E in Hn. injection Hn as <-. eexists.
    rewrite lookup_insert_eq. done.
  - exists t. rewrite lookup_insert_ne by done. done.
Qed.

(** ** Schemas fixed at creation *)

Section SchemasFixed.
Variable s0 : gmap (list N) table.

Lemma schemas_fixed_create (name : list N) (cols : list (list N)) :
  stable (schemas_fixed s0) (create_table_if_not_exists name cols).
Proof.
  intros s s' HJ E n t Hne Hn. destruct (HJ n t Hne Hn) as (t1 & H1 & Ec).
  exists t1. split; [|done]. by apply (create_table_effect _ _ _ _ E).
Qed.

Lemma schemas_fixed_insert (name : list N) (data : gmap (list N) sqlval) :
  stable (schemas_fixed s0) (insert_into name data).
Proof.
  intros s s' HJ E n t Hne Hn. destruct (HJ n t Hne Hn) as (t1 & H1 & Ec).
  destruct (insert_into_effect _ _ _ _ E n t1 H1) as (t2 & H2 & Ec2 & _).
  exists t2. split; [done | congruence].
Qed.

Lemma schemas_fixed_replace (name key : list N)
    (data : gmap (list N) sqlval) :
  stable (schemas_fixed s0) (insert_or_replace name key data).
Proof.
  intros s s' HJ E n t Hne Hn. destruct (HJ n t Hne Hn) as (t1 & H1 & Ec).
  destruct (insert_or_replace_effect _ _ _ _ _ E n t1 H1)
    as (t2 & H2 & Ec2 & _).
  exists t2. split; [done | congruence].
Qed.

Lemma schemas_fixed_alter (c : list N) :
  stable (schemas_fixed s0) (alter_table_add_column all_pricelists c).
Proof.
  intros s s' HJ E n t Hne Hn. destruct (HJ n t Hne Hn) as (t1 & H1 & Ec).
  destruct (alter_table_effect _ _ _ _ E n t1 H1) as (t2 & H2 & _ & Hsame & _).
  exists t2. split; [done|]. by rewrite (Hsame Hne).
Qed.

End SchemasFixed.

Lemma schemas_fixed_of_schema (s s' : gmap (list N) table) :
  schema s' = schema s -> schemas_fixed s s'.
Proof.
  intros E name t _ H.
  assert (schema s' !! name = Some (tcolumns t)) as H'.
  { rewrite E. unfold schema. by rewrite lookup_fmap, H. }
  unfold schema in H'. rewrite lookup_fmap in H'.
  destruct (s' !! name) as [t'|]; [|done].
  injection H' as H'. by exists t'.
Qed.

Lemma schemas_fixed_trans (s1 s2 s3 : gmap (list N) table) :
  schemas_fixed s1 s2 -> schemas_fixed s2 s3 -> schemas_fixed s1 s3.
Proof.
  intros H12 H23 name t Hne H.
  destruct (H12 _ _ Hne H) as (t2 & H2 & E2).
  destruct (H23 _ _ Hne H2) as (t3 & H3 & E3).
  exists t3. split; [done | congruence].
Qed.

(** X8: whatever files are processed, and whether steps fail or not,
    a table other than the union table keeps the columns it was created
    with, in the committed store and in the store the connection sees:
    only [all_pricelists] is ever altered. *)
Theorem per_source_schemas_fixed (lower : list N -> list N)
    (fs : list file) (w w' : world) (r : outcome unit) :
  good w ->
  for_each fs (process_file lower) w = (r, w') ->
  schemas_fixed (disk w) (disk w') /\
  schemas_fixed (live_of w) (live_of w').
Proof.
  intros [Hc Hs] H.
  assert (holds (schemas_fixed (disk w)) w) as Hw.
  { split; [done|]. split; [|by apply schemas_fixed_of_schema].
    by apply schemas_fixed_of_schema. }
  pose proof (preserves_process_files (schemas_fixed (disk w))
                (fun _ => True)
                (schemas_fixed_create _) (schemas_fixed_insert _)
                (schemas_fixed_replace _ _ _)
                (fun c _ => schemas_fixed_alter _ c)
                lower fs (fun _ _ _ _ => I) w r w' Hw H) as (_ & Hd & Hl).
  split; [done|].
  apply (schemas_fixed_trans _ (disk w)); [|done].
  by apply schemas_fixed_of_schema.
Qed.

Lemma per_source_schemas_fixed_witness :
  good ready_world /\
  schemas_fixed (disk ready_world)
    (disk (for_each [workbook [good_sheet]] (process_file lower_basic)
             ready_world).2).
Proof.
  assert (good ready_world) as Hg.
  { split; [vm_compute; eexists; reflexivity | vm_compute; reflexivity]. }
  split; [exact Hg|].
  refine (proj1 (per_source_schemas_fixed lower_basic
            [workbook [good_sheet]] ready_world _ _ Hg _)).
  apply surjective_pairing.
Defined.

(** ** Rows are only appended *)

Section RowsKept.
Variable s0 : gmap (list N) table.

Lemma rows_kept_create (name : list N) (cols : list (list N)) :
  stable (rows_kept s0) (create_table_if_not_exists name cols).
Proof.
  intros s s' HJ E n t Hne Hn.
  destruct (HJ n t Hne Hn) as (t1 & more & H1 & Er).
  exists t1, more. split; [|done]. by apply (create_table_effect _ _ _ _ E).
Qed.

Lemma rows_kept_insert (name : list N) (data : gmap (list N) sqlval) :
  stable (rows_kept s0) (insert_into name data).
Proof.
  intros s s' HJ E n t Hne Hn.
  destruct (HJ n t Hne Hn) as (t1 & more & H1 & Er).
  destruct (insert_into_effect _ _ _ _ E n t1 H1)
    as (t2 & H2 & _ & Hother & Hthis).
  destruct (decide (n = name)) as [Heq|Hneq].
  - exists t2, (more ++ [data]). split; [done|].
    by rewrite (Hthis Heq), Er, app_assoc.
  - exists t2, more. split; [done|]. by rewrite (Hother Hneq).
Qed.

Lemma rows_kept_replace (data : gmap (list N) sqlval) :
  stable (rows_kept s0)
    (insert_or_replace pricelists_metadata table_name_col data).
Proof.
  intros s s' HJ E n t Hne Hn.
  destruct (HJ n t Hne Hn) as (t1 & more & H1 & Er).
  destruct (insert_or_replace_effect _ _ _ _ _ E n t1 H1)
    as (t2 & H2 & _ & Hother).
  exists t2, more. split; [done|]. by rewrite (Hother Hne).
Qed.

Lemma rows_kept_alter (c : list N) :
  stable (rows_kept s0) (alter_table_add_column all_pricelists c).
Proof.
  intros s s' HJ E n t Hne Hn.
  destruct (HJ n t Hne Hn) as (t1 & more & H1 & Er).
  destruct (alter_table_effect _ _ _ _ E n t1 H1) as (t2 & H2 & Erows & _).
  exists t2, more. split; [done | congruence].
Qed.

End RowsKept.

Lemma rows_kept_refl (s : gmap (list N) table) : rows_kept s s.
Proof. intros n t _ H. exists t, []. by rewrite app_nil_r. Qed.

(** X9: whatever files are processed, and whether steps fail or not,
    the rows committed before stay where they are in every table other
    than the catalog: the run only appends to them, and only the
    catalog has rows replaced. *)
Theorem committed_rows_are_kept (lower : list N -> list N)
    (fs : list file) (w w' : world) (r : outcome unit) :
  conn w = Some (disk w) ->
  for_each fs (process_file lower) w = (r, w') ->
  rows_kept (disk w) (disk w').
Proof.
  intros Hc H.
  assert (holds (rows_kept (disk w)) w) as Hw.
  { split; [by eexists|]. rewrite (live_of_conn _ _ Hc).
    split; apply rows_kept_refl. }
  by pose proof (preserves_process_files (rows_kept (disk w))
                (fun _ => True)
                (rows_kept_create _) (rows_kept_insert _)
                (rows_kept_replace _)
                (fun c _ => rows_kept_alter _ c)
                lower fs (fun _ _ _ _ => I) w r w' Hw H) as (_ & Hd & _).
Qed.

Lemma committed_rows_are_kept_witness :
  conn ready_world = Some (disk ready_world) /\
  rows_kept (disk ready_world)
    (disk (for_each [workbook [good_sheet]] (process_file lower_basic)
             ready_world).2).
Proof.
  assert (conn ready_world = Some (disk ready_world)) as Hc
    by (vm_compute; reflexivity).
  split; [exact Hc|].
  refine (committed_rows_are_kept lower_basic
            [workbook [good_sheet]] ready_world _ _ Hc _).
  apply surjective_pairing.
Defined.

(** ** Where the columns of the union table come from *)

Section UnionWithin.
Variable allowed : list N -> Prop.

Lemma union_within_create (name : list N) (cols : list (list N)) :
  stable (union_within allowed) (create_table_if_not_exists name cols).
Proof.
  intros s s' (t & Ht & Hall) E. exists t. split; [|done].
  by apply (create_table_effect _ _ _ _ E).
Qed.

Lemma union_within_insert (name : list N) (data : gmap (list N) sqlval) :
  stable (union_within allowed) (insert_into name data).
Proof.
  intros s s' (t & Ht & Hall) E.
  destruct (insert_into_effect _ _ _ _ E _ t Ht) as (t2 & H2 & Ec & _).
  exists t2. split; [done|]. by rewrite Ec.
Qed.

Lemma union_within_replace (name key : list N)
    (data : gmap (list N) sqlval) :
  stable (union_within allowed) (insert_or_replace name key data).
Proof.
  intros s s' (t & Ht & Hall) E.
  destruct (insert_or_replace_effect _ _ _ _ _ E _ t Ht) as (t2 & H2 & Ec & _).
  exists t2. split; [done|]. by rewrite Ec.
Qed.

Lemma union_within_alter (c : list N) :
  allowed c ->
  stable (union_within allowed) (alter_table_add_column all_pricelists c).
Proof.
  intros Hc s s' (t & Ht & Hall) E.
  destruct (alter_table_effect _ _ _ _ E _ t Ht) as (t2 & H2 & _ & _ & Ec).
  exists t2. split; [done|]. rewrite (Ec eq_refl).
  intros c' [Hin | ->%list_elem_of_singleton]%elem_of_app; [by apply Hall | done].
Qed.

Lemma union_within_files (lower : list N -> list N) (fs : list file) :
  (forall f col, f ∈ fs -> header_cell lower f col ->
     allowed (sanitize col)) ->
  preserves (union_within allowed) (for_each fs (process_file lower)).
Proof.
  apply (preserves_process_files (union_within allowed) allowed
           union_within_create union_within_insert
           (union_within_replace _ _) union_within_alter).
Qed.

End UnionWithin.

Lemma union_within_good (allowed : list N -> Prop) (w : world) :
  good w -> is_Some (live_of w !! all_pricelists) ->
  (forall c, c ∈ union_columns w -> allowed c) ->
  holds (union_within allowed) w.
Proof.
  intros [Hc Hs] [t Ht] Hall. unfold union_columns, table_info in Hall.
  rewrite Ht in Hall. split; [done|]. split; [|by exists t].
  assert (schema (disk w) !! all_pricelists = Some (tcolumns t)) as H'.
  { rewrite <- Hs. unfold schema. by rewrite lookup_fmap, Ht. }
  unfold schema in H'. rewrite lookup_fmap in H'.
  destruct (disk w !! all_pricelists) as [t'|] eqn:Et; [|done].
  injection H' as H'. exists t'. split; [done|]. by rewrite H'.
Qed.



(** ** Statements that succeed *)

Lemma execute_ok (stmt : gmap (list N) table -> outcome (gmap (list N) table))
    (d live live' : gmap (list N) table) (lg : list (level * message)) :
  stmt live = Ok live' ->
  execute stmt {| disk := d; conn := Some live; log := lg |} =
  (Ok tt, {| disk := d; conn := Some live'; log := lg |}).
Proof. intros H. unfold execute. cbn [conn]. by rewrite H. Qed.

Lemma table_eta (t : table) :
  {| tcolumns := tcolumns t; trows := trows t |} = t.
Proof. by destruct t. Qed.

Lemma for_each_insert {A : Type} (l : list A) (body : A -> M unit)
    (data : A -> gmap (list N) sqlval) (name : list N) (t : table)
    (d s : gmap (list N) table) (lg : list (level * message)) :
  (forall x, body x = execute (insert_into name (data x))) ->
  s !! name = Some t ->
  (forall x, x ∈ l -> names_known (data x) t = true) ->
  for_each l body {| disk := d; conn := Some s; log := lg |} =
  (Ok tt,
   {| disk := d;
      conn := Some (<[name := {| tcolumns := tcolumns t;
                                 trows := trows t ++ (data <$> l) |}]> s);
      log := lg |}).
Proof.
  intros Hbody. revert s t.
  induction l as [|x l IH]; intros s t Ht Hknown.
  - cbn [for_each fmap list_fmap]. rewrite app_nil_r, table_eta.
    by rewrite insert_id.
  - cbn [for_each]. unfold bind at 1. rewrite Hbody.
    assert (names_known (data x) t = true) as Hx
      by (apply Hknown, elem_of_cons; by left).
    rewrite (execute_ok _ d s
               (<[name := {| tcolumns := tcolumns t;
                             trows := trows t ++ [data x] |}]> s)).
    2:{ unfold insert_into. by rewrite Ht, Hx. }
    rewrite (IH _ {| tcolumns := tcolumns t; trows := trows t ++ [data x] |}).
    + cbn [tcolumns trows fmap list_fmap]. rewrite insert_insert_eq.
      by rewrite <- app_assoc.
    + apply lookup_insert_eq.
    + intros y Hy. unfold names_known. cbn [tcolumns].
      apply (Hknown y), elem_of_cons. by right.
Qed.

(** ** The keys of the two dicts *)

Lemma table_step_dom (tc : list (list N)) (l : list (list N * cell))
    (d : gmap (list N) sqlval) :
  dom d ⊆ (list_to_set tc : gset (list N)) ->
  dom (fold_left (table_step tc) l d) ⊆ (list_to_set tc : gset (list N)).
Proof.
  revert d. induction l as [|[col v] l IH]; intros d Hd; [done|].
  cbn [fold_left]. apply IH. unfold table_step.
  case_bool_decide as Hin; [|done].
  rewrite dom_insert. apply union_subseteq. split; [|done].
  apply singleton_subseteq_l, elem_of_list_to_set. exact Hin.
Qed.

Lemma table_data_known (df : dataframe) (index : nat) (row : list cell)
    (t : table) :
  source_row ∈ tcolumns t ->
  names_known (insert_data_for_table (tcolumns t) df index row) t = true.
Proof.
  intros Hsr. unfold names_known. apply bool_decide_eq_true.
  unfold insert_data_for_table. apply table_step_dom.
  rewrite dom_singleton. by apply singleton_subseteq_l, elem_of_list_to_set.
Qed.

Lemma unified_step_dom (tc : list (list N)) (l : list (list N * cell))
    (d : gmap (list N) sqlval) :
  (forall col v, (col, v) ∈ l -> sanitize col ∈ tc) ->
  dom d ⊆ (list_to_set tc : gset (list N)) ->
  dom (fold_left unified_step l d) ⊆ (list_to_set tc : gset (list N)).
Proof.
  revert d. induction l as [|[col v] l IH]; intros d Hl Hd; [done|].
  cbn [fold_left]. apply IH.
  - intros col' v' Hin. apply (Hl col' v'), elem_of_cons. by right.
  - unfold unified_step. rewrite dom_insert. apply union_subseteq.
    split; [|done]. apply singleton_subseteq_l, elem_of_list_to_set.
    apply (Hl col v), elem_of_cons. by left.
Qed.

Lemma unified_data_known (df : dataframe) (file_name sheet_name : list N)
    (index : nat) (row : list cell) (t : table) :
  source_file ∈ tcolumns t -> sheet_name_col ∈ tcolumns t ->
  source_row ∈ tcolumns t ->
  (forall col, col ∈ columns df -> sanitize col ∈ tcolumns t) ->
  names_known (insert_data_for_unified df file_name sheet_name index row) t
  = true.
Proof.
  intros Hsf Hsn Hsr Hcols. unfold names_known. apply bool_decide_eq_true.
  unfold insert_data_for_unified. apply unified_step_dom.
  - intros col v Hin. apply Hcols. by apply elem_of_zip_l in Hin.
  - rewrite !dom_insert, dom_singleton.
    repeat (apply union_subseteq; split);
      by apply singleton_subseteq_l, elem_of_list_to_set.
Qed.

(** ** Adding columns to the union table *)

Lemma add_column_effect (col : list N) (d : gmap (list N) table)
    (lg : list (level * message)) (t : table) :
  d !! all_pricelists = Some t ->
  exists t',
    add_column_to_unified_table col
      {| disk := d; conn := Some d; log := lg |} =
    (Ok tt, {| disk := <[all_pricelists := t']> d;
               conn := Some (<[all_pricelists := t']> d); log := lg |}) /\
    trows t' = trows t /\
    (forall c, c ∈ tcolumns t -> c ∈ tcolumns t') /\
    sanitize col ∈ tcolumns t'.
Proof.
  intros Ht.
  unfold add_column_to_unified_table, try_except, bind, execute. cbv zeta.
  cbn [conn]. unfold alter_table_add_column. rewrite Ht.
  fold (sanitize col). case_bool_decide as Hin.
  - exists t. rewrite insert_id by done. done.
  - eexists. unfold commit. cbn [conn disk log]. split; [reflexivity|].
    cbn [trows tcolumns]. split; [done|]. split.
    + intros c Hc. apply elem_of_app. by left.
    + apply elem_of_app. right. by apply list_elem_of_singleton.
Qed.

Lemma add_columns_effect (cols : list (list N)) (d : gmap (list N) table)
    (lg : list (level * message)) (t : table) :
  d !! all_pricelists = Some t ->
  exists t',
    for_each cols add_column_to_unified_table
      {| disk := d; conn := Some d; log := lg |} =
    (Ok tt, {| disk := <[all_pricelists := t']> d;
               conn := Some (<[all_pricelists := t']> d); log := lg |}) /\
    trows t' = trows t /\
    (forall c, c ∈ tcolumns t -> c ∈ tcolumns t') /\
    (forall col, col ∈ cols -> sanitize col ∈ tcolumns t').
Proof.
  revert d t. induction cols as [|col cols IH]; intros d t Ht.
  - exists t. cbn [for_each]. rewrite insert_id by done.
    split; [done|]. split; [done|]. split; [done|].
    intros col H. by apply elem_of_nil in H.
  - destruct (add_column_effect col d lg t Ht) as (t1 & E1 & Hr1 & Hc1 & Hin1).
    destruct (IH (<[all_pricelists := t1]> d) t1 (lookup_insert_eq _ _ _))
      as (t2 & E2 & Hr2 & Hc2 & Hin2).
    exists t2. cbn [for_each]. unfold bind at 1. rewrite E1, E2.
    rewrite insert_insert_eq. split; [done|]. split; [congruence|].
    split; [by intros c Hc; apply Hc2, Hc1|].
    intros c [->|Hc]%elem_of_cons; [by apply Hc2 | by apply Hin2].
Qed.

(** ** The four steps of one source, when nothing fails *)

Lemma create_table_for_file_fresh (table_name : list N) (df : dataframe)
    (d live : gmap (list N) table) (lg : list (level * message)) :
  live !! table_name = None ->
  NoDup (system_columns ++ table_column_names (columns df) ∅) ->
  create_table_for_file table_name df
    {| disk := d; conn := Some live; log := lg |} =
  (Ok tt,
   {| disk := <[table_name :=
                  {| tcolumns := system_columns ++
                                 table_column_names (columns df) ∅;
                     trows := [] |}]> live;
      conn := Some (<[table_name :=
                  {| tcolumns := system_columns ++
                                 table_column_names (columns df) ∅;
                     trows := [] |}]> live);
      log := lg ++ [(INFO, MsgTableCreated table_name)] |}).
Proof.
  intros Hfresh Hnd. unfold create_table_for_file, try_except. cbv zeta.
  unfold bind at 1. erewrite execute_ok.
  2:{ unfold create_table_if_not_exists. rewrite Hfresh.
      by rewrite bool_decide_true. }
  reflexivity.
Qed.

Lemma create_table_for_file_again (table_name : list N) (df : dataframe)
    (d live : gmap (list N) table) (lg : list (level * message)) :
  is_Some (live !! table_name) ->
  create_table_for_file table_name df
    {| disk := d; conn := Some live; log := lg |} =
  (Ok tt, {| disk := live; conn := Some live;
             log := lg ++ [(INFO, MsgTableCreated table_name)] |}).
Proof.
  intros [t Ht]. unfold create_table_for_file, try_except. cbv zeta.
  unfold bind at 1. rewrite (execute_ok _ d live live).
  2:{ unfold create_table_if_not_exists. by rewrite Ht. }
  reflexivity.
Qed.

Lemma insert_data_to_table_ok (table_name : list N) (df : dataframe)
    (d s : gmap (list N) table) (lg : list (level * message)) (t : table) :
  s !! table_name = Some t -> source_row ∈ tcolumns t ->
  insert_data_to_table table_name df
    {| disk := d; conn := Some s; log := lg |} =
  (Ok tt,
   {| disk := <[table_name :=
                  {| tcolumns := tcolumns t;
                     trows := trows t ++
                       ((fun p => insert_data_for_table (tcolumns t) df
                                    p.1 p.2) <$> iterrows df) |}]> s;
      conn := Some (<[table_name :=
                  {| tcolumns := tcolumns t;
                     trows := trows t ++
                       ((fun p => insert_data_for_table (tcolumns t) df
                                    p.1 p.2) <$> iterrows df) |}]> s);
      log := lg ++ [(INFO, MsgRowsInserted (length (rows df)) table_name)] |}).
Proof.
  intros Ht Hsr. unfold insert_data_to_table, try_except.
  unfold bind at 1. unfold query. cbn [conn].
  unfold table_info. rewrite Ht.
  unfold bind at 1.
  rewrite (for_each_insert (iterrows df) _
             (fun p => insert_data_for_table (tcolumns t) df p.1 p.2)
             table_name t d s lg).
  - reflexivity.
  - by intros [index row].
  - exact Ht.
  - intros [index row] _. by apply table_data_known.
Qed.

Lemma insert_to_unified_table_ok (df : dataframe)
    (file_name sheet_name : list N) (d : gmap (list N) table)
    (lg : list (level * message)) (t : table) :
  d !! all_pricelists = Some t ->
  source_file ∈ tcolumns t -> sheet_name_col ∈ tcolumns t ->
  source_row ∈ tcolumns t ->
  exists t',
    insert_to_unified_table df file_name sheet_name
      {| disk := d; conn := Some d; log := lg |} =
    (Ok tt, {| disk := <[all_pricelists := t']> d;
               conn := Some (<[all_pricelists := t']> d);
               log := lg ++ [(INFO, MsgUnifiedInserted)] |}) /\
    trows t' = trows t ++
      ((fun p => insert_data_for_unified df file_name sheet_name p.1 p.2)
         <$> iterrows df) /\
    (forall c, c ∈ tcolumns t -> c ∈ tcolumns t') /\
    (forall col, col ∈ columns df -> sanitize col ∈ tcolumns t').
Proof.
  intros Ht Hsf Hsn Hsr.
  destruct (add_columns_effect (columns df) d lg t Ht)
    as (t1 & E1 & Hr1 & Hc1 & Hin1).
  eexists. unfold insert_to_unified_table, try_except.
  unfold bind at 1. rewrite E1.
  unfold bind at 1.
  rewrite (for_each_insert (iterrows df) _
             (fun p => insert_data_for_unified df file_name sheet_name
                         p.1 p.2)
             all_pricelists t1 _ _ lg).
  - unfold bind, commit, logger. cbn [conn disk log].
    rewrite !insert_insert_eq. split; [reflexivity|].
    cbn [trows tcolumns]. rewrite Hr1. done.
  - by intros [index row].
  - apply lookup_insert_eq.
  - intros [index row] _. apply unified_data_known; auto.
Qed.

Lemma metadata_keys_known (record : gmap (list N) sqlval) (t : table) :
  dom record ⊆ (list_to_set metadata_columns : gset (list N)) ->
  Forall (fun c => c ∈ tcolumns t) metadata_columns ->
  names_known record t = true.
Proof.
  intros Hdom Hall. unfold names_known. apply bool_decide_eq_true.
  intros k Hk. apply Hdom in Hk. apply elem_of_list_to_set in Hk.
  apply elem_of_list_to_set. rewrite Forall_forall in Hall. by apply Hall.
Qed.

Lemma add_metadata_ok (table_name file_name sheet_name : list N)
    (n_rows n_columns : nat) (size : N) (file_format : list N)
    (d s : gmap (list N) table) (lg : list (level * message)) (t : table) :
  s !! pricelists_metadata = Some t ->
  Forall (fun c => c ∈ tcolumns t) metadata_columns ->
  exists record,
    add_metadata table_name file_name sheet_name n_rows n_columns size
      file_format {| disk := d; conn := Some s; log := lg |} =
    (Ok tt,
     {| disk := <[pricelists_metadata :=
                    {| tcolumns := tcolumns t;
                       trows := filter (fun r => r !! table_name_col ≠
                                                 Some (SText table_name))
                                       (trows t) ++ [record] |}]> s;
        conn := Some (<[pricelists_metadata :=
                    {| tcolumns := tcolumns t;
                       trows := filter (fun r => r !! table_name_col ≠
                                                 Some (SText table_name))
                                       (trows t) ++ [record] |}]> s);
        log := lg ++ [(INFO, MsgMetadataAdded table_name)] |}) /\
    record !! table_name_col = Some (SText table_name) /\
    record !! source_file = Some (SText file_name) /\
    record !! row_count = Some (SInt (Z.of_nat n_rows)).
Proof.
  intros Ht Hall. eexists. unfold add_metadata, try_except. cbv zeta.
  set (record := <[table_name_col := SText table_name]> _).
  assert (record !! table_name_col = Some (SText table_name)) as Hkey
    by (vm_compute; reflexivity).
  unfold bind at 1. erewrite execute_ok.
  2:{ unfold insert_or_replace. rewrite Ht.
      rewrite metadata_keys_known; [reflexivity | | exact Hall].
      apply (bool_decide_unpack _). vm_compute. exact I. }
  rewrite Hkey. unfold bind, commit, logger. cbn [conn disk log].
  split; [reflexivity|]. split; [exact Hkey|].
  split; vm_compute; reflexivity.
Qed.

Lemma union_is_not_catalog : all_pricelists ≠ pricelists_metadata.
Proof. apply (bool_decide_unpack _). vm_compute. exact I. Qed.

Lemma unified_columns_base (t : table) :
  Forall (fun c => c ∈ tcolumns t) unified_columns ->
  source_file ∈ tcolumns t /\ sheet_name_col ∈ tcolumns t /\
  source_row ∈ tcolumns t.
Proof.
  rewrite Forall_forall. intros H.
  repeat split; apply H; apply (bool_decide_unpack _); vm_compute; exact I.
Qed.

(** The three steps after [create_table_for_file], on a store where the
    source's table, the union table and the catalog are in place. *)
Lemma ingest_steps_ok (table_name file_name sheet_name file_format : list N)
    (df : dataframe) (size : N) (s : gmap (list N) table)
    (lg : list (level * message)) (t tu tc : table) :
  s !! table_name = Some t -> source_row ∈ tcolumns t ->
  table_name ≠ all_pricelists -> table_name ≠ pricelists_metadata ->
  s !! all_pricelists = Some tu ->
  Forall (fun c => c ∈ tcolumns tu) unified_columns ->
  s !! pricelists_metadata = Some tc ->
  Forall (fun c => c ∈ tcolumns tc) metadata_columns ->
  exists s' lg' tu' record,
    (insert_data_to_table table_name df ;;
     insert_to_unified_table df file_name sheet_name ;;
     add_metadata table_name file_name sheet_name
       (length (rows df)) (length (columns df)) size file_format)
      {| disk := s; conn := Some s; log := lg |} =
    (Ok tt, {| disk := s'; conn := Some s'; log := lg' |}) /\
    s' !! table_name =
      Some {| tcolumns := tcolumns t;
              trows := trows t ++
                ((fun p => insert_data_for_table (tcolumns t) df p.1 p.2)
                   <$> iterrows df) |} /\
    s' !! all_pricelists = Some tu' /\
    trows tu' = trows tu ++
      ((fun p => insert_data_for_unified df file_name sheet_name p.1 p.2)
         <$> iterrows df) /\
    s' !! pricelists_metadata =
      Some {| tcolumns := tcolumns tc;
              trows := filter (fun r => r !! table_name_col ≠
                                        Some (SText table_name))
                              (trows tc) ++ [record] |} /\
    record !! table_name_col = Some (SText table_name) /\
    record !! source_file = Some (SText file_name) /\
    record !! row_count = Some (SInt (Z.of_nat (length (rows df)))).
Proof.
  intros Ht Hsr Hnu Hnc Htu Hbase Htc Hmeta.
  destruct (unified_columns_base tu Hbase) as (Hsf & Hsn & Hsrow).
  pose proof union_is_not_catalog as Huc.
  unfold bind at 1.
  rewrite (insert_data_to_table_ok table_name df s s lg t Ht Hsr).
  set (s1 := <[table_name := _]> s).
  assert (s1 !! all_pricelists = Some tu) as Htu1
    by (subst s1; by rewrite lookup_insert_ne).
  destruct (insert_to_unified_table_ok df file_name sheet_name s1
              (lg ++ [(INFO, MsgRowsInserted (length (rows df)) table_name)])
              tu Htu1 Hsf Hsn Hsrow) as (tu' & E2 & Hr2 & _ & _).
  unfold bind at 1. rewrite E2.
  set (s2 := <[all_pricelists := tu']> s1).
  assert (s2 !! pricelists_metadata = Some tc) as Htc2.
  { subst s2 s1. rewrite lookup_insert_ne by done.
    by rewrite lookup_insert_ne. }
  destruct (add_metadata_ok table_name file_name sheet_name
              (length (rows df)) (length (columns df)) size file_format
              s2 s2 (lg ++ [(INFO, MsgRowsInserted (length (rows df)) table_name)]
                        ++ [(INFO, MsgUnifiedInserted)])
              tc Htc2 Hmeta) as (record & E3 & Hk1 & Hk2 & Hk3).
  rewrite <- app_assoc. rewrite E3.
  eexists _, _, tu', record. split; [reflexivity|].
  split.
  { rewrite lookup_insert_ne by done. subst s2.
    rewrite lookup_insert_ne by done. subst s1. apply lookup_insert_eq. }
  split.
  { rewrite lookup_insert_ne by done. subst s2. apply lookup_insert_eq. }
  split; [exact Hr2|].
  split; [apply lookup_insert_eq|]. done.
Qed.

(** ** One source, from the file to the three tables *)

Lemma source_row_is_system (names : list (list N)) :
  source_row ∈ system_columns ++ names.
Proof.
  apply elem_of_app. left. apply (bool_decide_unpack _). vm_compute. exact I.
Qed.

(** The four steps on a store where the source has no table yet. *)
Lemma ingest_fresh_ok (table_name file_name sheet_name file_format : list N)
    (df : dataframe) (size : N) (d s : gmap (list N) table)
    (lg : list (level * message)) (tu tc : table) :
  s !! table_name = None ->
  NoDup (system_columns ++ table_column_names (columns df) ∅) ->
  s !! all_pricelists = Some tu ->
  Forall (fun c => c ∈ tcolumns tu) unified_columns ->
  s !! pricelists_metadata = Some tc ->
  Forall (fun c => c ∈ tcolumns tc) metadata_columns ->
  exists s' lg' tu' record,
    (create_table_for_file table_name df ;;
     insert_data_to_table table_name df ;;
     insert_to_unified_table df file_name sheet_name ;;
     add_metadata table_name file_name sheet_name
       (length (rows df)) (length (columns df)) size file_format)
      {| disk := d; conn := Some s; log := lg |} =
    (Ok tt, {| disk := s'; conn := Some s'; log := lg' |}) /\
    s' !! table_name =
      Some {| tcolumns := system_columns ++
                          table_column_names (columns df) ∅;
              trows :=
                (fun p => insert_data_for_table
                            (system_columns ++
                             table_column_names (columns df) ∅) df p.1 p.2)
                  <$> iterrows df |} /\
    s' !! all_pricelists = Some tu' /\
    trows tu' = trows tu ++
      ((fun p => insert_data_for_unified df file_name sheet_name p.1 p.2)
         <$> iterrows df) /\
    s' !! pricelists_metadata =
      Some {| tcolumns := tcolumns tc;
              trows := filter (fun r => r !! table_name_col ≠
                                        Some (SText table_name))
                              (trows tc) ++ [record] |} /\
    record !! table_name_col = Some (SText table_name) /\
    record !! source_file = Some (SText file_name) /\
    record !! row_count = Some (SInt (Z.of_nat (length (rows df)))).
Proof.
  intros Hfresh Hnd Htu Hbase Htc Hmeta.
  assert (table_name ≠ all_pricelists) as Hnu by (intros ->; congruence).
  assert (table_name ≠ pricelists_metadata) as Hnc by (intros ->; congruence).
  unfold bind at 1.
  rewrite (create_table_for_file_fresh table_name df d s lg Hfresh Hnd).
  set (t0 := {| tcolumns := system_columns ++
                            table_column_names (columns df) ∅;
                trows := [] |}).
  destruct (ingest_steps_ok table_name file_name sheet_name file_format df
              size (<[table_name := t0]> s)
              (lg ++ [(INFO, MsgTableCreated table_name)]) t0 tu tc)
    as (s' & lg' & tu' & record & E & H1 & H2 & H3 & H4 & H5);
    [apply lookup_insert_eq | apply source_row_is_system | done | done
    | by rewrite lookup_insert_ne | done | by rewrite lookup_insert_ne
    | done |].
  exists s', lg', tu', record. split; [exact E|]. split; [exact H1|].
  split; [exact H2|]. split; [exact H3|]. split; [exact H4 | exact H5].
Qed.

(** The four steps on a store where the source's table is there,
    as after an earlier run. *)
Lemma ingest_again_ok (table_name file_name sheet_name file_format : list N)
    (df : dataframe) (size : N) (d s : gmap (list N) table)
    (lg : list (level * message)) (t tu tc : table) :
  s !! table_name = Some t -> source_row ∈ tcolumns t ->
  table_name ≠ all_pricelists -> table_name ≠ pricelists_metadata ->
  s !! all_pricelists = Some tu ->
  Forall (fun c => c ∈ tcolumns tu) unified_columns ->
  s !! pricelists_metadata = Some tc ->
  Forall (fun c => c ∈ tcolumns tc) metadata_columns ->
  exists s' lg' tu' record,
    (create_table_for_file table_name df ;;
     insert_data_to_table table_name df ;;
     insert_to_unified_table df file_name sheet_name ;;
     add_metadata table_name file_name sheet_name
       (length (rows df)) (length (columns df)) size file_format)
      {| disk := d; conn := Some s; log := lg |} =
    (Ok tt, {| disk := s'; conn := Some s'; log := lg' |}) /\
    s' !! table_name =
      Some {| tcolumns := tcolumns t;
              trows := trows t ++
                ((fun p => insert_data_for_table (tcolumns t) df p.1 p.2)
                   <$> iterrows df) |} /\
    s' !! all_pricelists = Some tu' /\
    trows tu' = trows tu ++
      ((fun p => insert_data_for_unified df file_name sheet_name p.1 p.2)
         <$> iterrows df) /\
    s' !! pricelists_metadata =
      Some {| tcolumns := tcolumns tc;
              trows := filter (fun r => r !! table_name_col ≠
                                        Some (SText table_name))
                              (trows tc) ++ [record] |} /\
    record !! table_name_col = Some (SText table_name) /\
    record !! source_file = Some (SText file_name) /\
    record !! row_count = Some (SInt (Z.of_nat (length (rows df)))).
Proof.
  intros Ht Hsr Hnu Hnc Htu Hbase Htc Hmeta.
  unfold bind at 1.
  rewrite (create_table_for_file_again table_name df d s lg) by eauto.
  apply ingest_steps_ok; done.
Qed.

(** The CSV path up to the four steps. *)
Lemma process_csv_file_decoded (f : file) (size : N)
    (pre post : list encoding) (enc : encoding) (df : dataframe)
    (w : world) :
  getsize f = Ok size ->
  [utf_8; cp1251; windows_1251; iso_8859_1] = pre ++ enc :: post ->
  Forall (fun e => read_csv f e = CsvUnicodeError) pre ->
  read_csv f enc = CsvDecoded df ->
  df_empty df = false ->
  process_csv_file f w =
  try_except
    (create_table_for_file
       (get_safe_table_name (stem f) (Some (u "CSV"))) df ;;
     insert_data_to_table
       (get_safe_table_name (stem f) (Some (u "CSV"))) df ;;
     insert_to_unified_table df (basename f) (u "CSV") ;;
     add_metadata (get_safe_table_name (stem f) (Some (u "CSV")))
       (basename f) (u "CSV")
       (length (rows df)) (length (columns df)) size (u "csv"))
    (fun e => logger ERROR (MsgCsvFailed (file_path f) e))
    (logged INFO (MsgCsvEncoding enc)
       (logged INFO (MsgProcessingCsv (file_path f)) w)).
Proof.
  intros Hsize Hencs Hpre Hdec Hne.
  unfold process_csv_file. rewrite Hencs, Hsize.
  unfold try_except at 1.
  rewrite (bind_ok _ _ w (logged INFO (MsgProcessingCsv (file_path f)) w) tt)
    by reflexivity.
  rewrite (bind_ok _ _ _ (logged INFO (MsgProcessingCsv (file_path f)) w) size)
    by reflexivity.
  rewrite (bind_ok _ _ _
             (logged INFO (MsgCsvEncoding enc)
                (logged INFO (MsgProcessingCsv (file_path f)) w)) (Some df)).
  2:{ rewrite (try_encodings_skip f pre _ _ Hpre). cbn [try_encodings].
      by rewrite Hdec. }
  rewrite Hne. reflexivity.
Qed.



Lemma filter_none {A : Type} (P : A -> Prop) `{!forall x, Decision (P x)}
    (l : list A) :
  Forall (fun x => ~ P x) l -> filter P l = [].
Proof.
  induction 1 as [|x l Hx _ IH]; [done|].
  rewrite filter_cons, decide_False by done. exact IH.
Qed.



(** ** One sheet of a workbook *)



(** ** The catalog *)

Lemma filter_filter_not {A : Type} (P : A -> Prop)
    `{!forall x, Decision (P x)} (l : list A) :
  filter P (filter (fun x => ~ P x) l) = [].
Proof.
  apply filter_none, Forall_forall. intros x Hx.
  by apply list_elem_of_filter in Hx as [Hx _].
Qed.

Lemma filter_idemp {A : Type} (P : A -> Prop)
    `{!forall x, Decision (P x)} (l : list A) :
  filter P (filter P l) = filter P l.
Proof.
  induction l as [|x l IH]; [done|]. rewrite filter_cons.
  destruct (decide (P x)) as [Hx|Hx]; [|exact IH].
  rewrite filter_cons, decide_True by done. by rewrite IH.
Qed.

(** X14: [add_metadata] is an upsert on the table name: when the
    catalog is there with its columns, the call returns and commits; the
    catalog then has exactly one row for that table name, the one just
    written with the row count given, and every row of another table
    name is kept, in order; table names that were distinct stay
    distinct. *)
Theorem catalog_has_one_row_per_table
    (table_name file_name sheet_name file_format : list N)
    (n_rows n_columns : nat) (size : N)
    (w : world) (s : gmap (list N) table) (t : table) :
  conn w = Some s ->
  s !! pricelists_metadata = Some t ->
  Forall (fun c => c ∈ tcolumns t) metadata_columns ->
  exists w' t' record,
    add_metadata table_name file_name sheet_name n_rows n_columns size
      file_format w = (Ok tt, w') /\
    conn w' = Some (disk w') /\
    disk w' !! pricelists_metadata = Some t' /\
    tcolumns t' = tcolumns t /\
    filter (fun r => r !! table_name_col = Some (SText table_name))
      (trows t') = [record] /\
    record !! row_count = Some (SInt (Z.of_nat n_rows)) /\
    filter (fun r => r !! table_name_col ≠ Some (SText table_name))
      (trows t') =
    filter (fun r => r !! table_name_col ≠ Some (SText table_name))
      (trows t) /\
    (NoDup ((fun r => r !! table_name_col) <$> trows t) ->
     NoDup ((fun r => r !! table_name_col) <$> trows t')).
Proof.
  intros Hc Ht Hmeta. destruct w as [d c lg]. cbn [conn] in Hc. subst c.
  destruct (add_metadata_ok table_name file_name sheet_name n_rows
              n_columns size file_format d s lg t Ht Hmeta)
    as (record & E & Hk & _ & Hrc).
  eexists _, _, record. split; [exact E|]. cbn [disk conn].
  split; [reflexivity|]. split; [apply lookup_insert_eq|].
  cbn [tcolumns trows]. split; [reflexivity|].
  split; [|split; [exact Hrc|split]].
  - rewrite filter_app, filter_cons, filter_nil, decide_True by exact Hk.
    rewrite filter_none; [done|]. apply Forall_forall. intros r Hr.
    apply list_elem_of_filter in Hr as [Hr _]. exact Hr.
  - rewrite filter_app, filter_cons, filter_nil.
    rewrite decide_False by (intros H; by apply H).
    by rewrite filter_idemp, app_nil_r.
  - intros Hnd. rewrite fmap_app. apply NoDup_app. split; [|split].
    + revert Hnd. generalize (trows t). intros l.
      induction l as [|r l IH]; [done|]. cbn [fmap list_fmap].
      intros [Hr Hl]%NoDup_cons. rewrite filter_cons.
      destruct (decide (r !! table_name_col ≠ Some (SText table_name)));
        [|by apply IH].
      cbn [fmap list_fmap]. apply NoDup_cons. split; [|by apply IH].
      intros (r' & E' & Hin)%list_elem_of_fmap.
      apply list_elem_of_filter in Hin as [_ Hin].
      apply Hr. apply list_elem_of_fmap. by exists r'.
    + intros k (r & -> & Hin)%list_elem_of_fmap.
      apply list_elem_of_filter in Hin as [Hne _].
      cbn [fmap list_fmap]. rewrite list_elem_of_singleton. congruence.
    + cbn [fmap list_fmap]. apply NoDup_singleton.
Qed.

Lemma catalog_has_one_row_per_table_witness :
  conn once_world = Some (live_of once_world) /\
  is_Some (live_of once_world !! pricelists_metadata) /\
  exists w' t' record,
    add_metadata (u "price") (u "price.csv") (u "CSV") 7 2 4096 (u "csv")
      once_world = (Ok tt, w') /\
    disk w' !! pricelists_metadata = Some t' /\
    filter (fun r => r !! table_name_col = Some (SText (u "price")))
      (trows t') = [record] /\
    record !! row_count = Some (SInt (Z.of_nat 7)).
Proof.
  set (nil_table := {| tcolumns := []; trows := [] |}).
  set (t := default nil_table (live_of once_world !! pricelists_metadata)).
  assert (conn once_world = Some (live_of once_world)) as H1
    by (vm_compute; reflexivity).
  assert (live_of once_world !! pricelists_metadata = Some t) as H2
    by (vm_compute; reflexivity).
  assert (Forall (fun c => c ∈ tcolumns t) metadata_columns) as H3
    by (apply (bool_decide_unpack _); vm_compute; exact I).
  split; [exact H1|]. split; [exists t; exact H2|].
  destruct (catalog_has_one_row_per_table (u "price") (u "price.csv")
              (u "CSV") (u "csv") 7 2 4096 once_world (live_of once_world)
              t H1 H2 H3)
    as (w' & t' & record & E & _ & Ht' & _ & Hf & Hrc & _).
  exists w', t', record.
  split; [exact E|]. split; [exact Ht'|]. split; [exact Hf | exact Hrc].
Defined.

(** ** A failed insertion *)

Lemma for_each_execute_world {A : Type} (l : list A) (body : A -> M unit)
    (stmt : A -> gmap (list N) table -> outcome (gmap (list N) table))
    (d s : gmap (list N) table) (lg : list (level * message))
    (r : outcome unit) (w1 : world) :
  (forall x, body x = execute (stmt x)) ->
  for_each l body {| disk := d; conn := Some s; log := lg |} = (r, w1) ->
  exists s1, w1 = {| disk := d; conn := Some s1; log := lg |}.
Proof.
  intros Hbody. revert s. induction l as [|x l IH]; intros s.
  - intros [= <- <-]. by exists s.
  - cbn [for_each]. unfold bind at 1. rewrite Hbody. unfold execute.
    cbn [conn disk log]. destruct (stmt x s) as [s'|e].
    + apply IH.
    + intros [= <- <-]. by exists s.
Qed.

(** X15: when [insert_data_to_table] raises, nothing of the call
    stays: the connection is back at the committed store, the committed
    store is as before the call, one ERROR line is logged, and the
    exception raised is the one that stopped the insertion. *)
Theorem insert_failure_rolls_back (table_name : list N) (df : dataframe)
    (w w' : world) (s : gmap (list N) table) (e : exn) :
  conn w = Some s ->
  insert_data_to_table table_name df w = (Raise e, w') ->
  w' = {| disk := disk w; conn := Some (disk w);
          log := log w ++ [(ERROR, MsgInsertFailed table_name e)] |}.
Proof.
  intros Hc. destruct w as [d c lg]. cbn [conn disk log] in *. subst c.
  unfold insert_data_to_table. intros H.
  apply try_except_inv in H as [(a & _ & [=]) | (e1 & w1 & Hbody & Hh)].
  assert (exists s1, w1 = {| disk := d; conn := Some s1; log := lg |})
    as [s1 ->].
  { apply bind_inv in Hbody
      as [(tc & w0 & Hq & Hrest) | (e0 & Hq & _)]; [|discriminate Hq].
    injection Hq as _ <-.
    apply bind_inv in Hrest as [([] & w2 & Hloop & Hrest) | (e0 & Hloop & _)].
    - apply (for_each_execute_world _ _
               (fun p => insert_into table_name
                           (insert_data_for_table tc df p.1 p.2)))
        in Hloop as [s2 ->]; [|by intros [index row]].
      discriminate Hrest.
    - apply (for_each_execute_world _ _
               (fun p => insert_into table_name
                           (insert_data_for_table tc df p.1 p.2)))
        in Hloop as [s2 ->]; [|by intros [index row]].
      by exists s2. }
  revert Hh. unfold bind, logger, rollback, raise. cbn [conn disk log].
  by intros [= <- <-].
Qed.

Lemma insert_failure_rolls_back_witness :
  conn ready_world = Some (live_of ready_world) /\
  insert_data_to_table (u "absent") two_columns ready_world =
    (Raise (SqlError NoSuchTable),
     (insert_data_to_table (u "absent") two_columns ready_world).2) /\
  (insert_data_to_table (u "absent") two_columns ready_world).2 =
  {| disk := disk ready_world; conn := Some (disk ready_world);
     log := log ready_world ++
            [(ERROR, MsgInsertFailed (u "absent") (SqlError NoSuchTable))] |}.
Proof.
  assert (conn ready_world = Some (live_of ready_world)) as H1
    by (vm_compute; reflexivity).
  assert (insert_data_to_table (u "absent") two_columns ready_world =
          (Raise (SqlError NoSuchTable),
           (insert_data_to_table (u "absent") two_columns ready_world).2))
    as H2 by (vm_compute; reflexivity).
  split; [exact H1|]. split; [exact H2|].
  exact (insert_failure_rolls_back (u "absent") two_columns ready_world _
           (live_of ready_world) (SqlError NoSuchTable) H1 H2).
Defined.

(** ** The connection at the end of a run *)

(** X16: however the run goes (the connection fails to open, or the
    run returns), [merge_all_pricelists] leaves no connection open: the
    [finally] clause closes it. *)
Theorem run_closes_connection (lower : list N -> list N)
    (env : environment) (w : world) :
  conn (merge_all_pricelists lower env w).2 = None.
Proof.
  unfold merge_all_pricelists, finally.
  destruct (try_except _ _ w) as [r w1].
  destruct (conn w1) as [live|] eqn:E.
  - reflexivity.
  - cbn. exact E.
Qed.

(** ** Queries that name no file *)

(** X17: a query with no word in it (empty, or white space only) is
    not run against the catalog: [split()[0]] raises, so
    [search_by_source] reports the failure and [export_by_source]
    returns [False], whatever the catalog holds. *)
Theorem blank_query_fails (q : list N) (s : gmap (list N) table) :
  Forall (fun c => is_space c = true) q ->
  search_by_source q s = SearchFailed IndexError /\
  export_by_source q s = ExportFalse.
Proof.
  intros Hq. unfold search_by_source, export_by_source, fetch_by_source,
    first_word. by rewrite (lstrip_by_all is_space q Hq).
Qed.

Lemma blank_query_fails_witness :
  Forall (fun c => is_space c = true) (u "  ") /\
  search_by_source (u "  ") small_catalog = SearchFailed IndexError /\
  export_by_source (u "  ") small_catalog = ExportFalse.
Proof.
  assert (Forall (fun c => is_space c = true) (u "  ")) as H
    by (apply (bool_decide_unpack _); vm_compute; exact I).
  split; [exact H|]. exact (blank_query_fails (u "  ") small_catalog H).
Defined.

(** X18: the first word of the query goes into the LIKE pattern as it
    is, so a word made of [%] signs only is a wild card: the query then
    returns every catalog row whose file name is a text. *)
Theorem percent_query_matches_all (q w : list N)
    (s : gmap (list N) table) (t : table) :
  first_word q = Ok w ->
  Forall (fun c => c = percent) w ->
  s !! pricelists_metadata = Some t ->
  forallb (fun c => bool_decide (c ∈ tcolumns t)) query_columns = true ->
  Forall (fun r => exists name, r !! source_file = Some (SText name))
         (trows t) ->
  fetch_by_source q s = Ok (map project (trows t)).
Proof.
  intros Hw Hpct Ht Hcols Htext. unfold fetch_by_source.
  rewrite Hw, Ht, Hcols. f_equal. f_equal.
  assert (forall p name, Forall (fun c => c = percent) p ->
            like (p ++ [percent]) name = true) as Hlike.
  { intros p name Hp. induction Hp as [|c p -> _ IH]; cbn [app].
    - apply like_percent_only.
    - apply like_percent. exists [], name. done. }
  induction Htext as [|r l [name Hr] _ IH]; [done|].
  rewrite filter_cons, IH. rewrite decide_True; [done|].
  rewrite Hr. cbn [like_value]. apply (Hlike (percent :: w)).
  by constructor.
Qed.

Lemma percent_query_matches_all_witness :
  first_word (u "% any") = Ok (u "%") /\
  Forall (fun c => c = percent) (u "%") /\
  fetch_by_source (u "% any") small_catalog =
  Ok (map project
        [catalog_entry (u "price") (u "price.csv");
         catalog_entry (u "stock") (u "Stock.csv")]).
Proof.
  assert (first_word (u "% any") = Ok (u "%")) as H1
    by (vm_compute; reflexivity).
  assert (Forall (fun c => c = percent) (u "%")) as H2
    by (repeat constructor).
  assert (small_catalog !! pricelists_metadata =
          Some {| tcolumns := metadata_columns;
                  trows := [catalog_entry (u "price") (u "price.csv");
                            catalog_entry (u "stock") (u "Stock.csv")] |})
    as H3 by (vm_compute; reflexivity).
  assert (forallb (fun c => bool_decide (c ∈ metadata_columns))
            query_columns = true) as H4 by (vm_compute; reflexivity).
  assert (Forall (fun r => exists name, r !! source_file = Some (SText name))
            [catalog_entry (u "price") (u "price.csv");
             catalog_entry (u "stock") (u "Stock.csv")]) as H5.
  { repeat constructor; eexists; vm_compute; reflexivity. }
  split; [exact H1|]. split; [exact H2|].
  exact (percent_query_matches_all (u "% any") (u "%") small_catalog _
           H1 H2 H3 H4 H5).
Defined.

(** ** Sheets with nothing to ingest *)

Section BlankSheets.
Variable lower : list N -> list N.

Lemma blank_sheet_skipped (f : file) (size : N) (sh : sheet) (w : world) :
  blank_sheet lower sh ->
  exists more,
    excel_sheet_body lower f size sh w =
    (Ok tt, {| disk := disk w; conn := conn w; log := log w ++ more |}) /\
    (INFO, MsgProcessingSheet (sheet_title sh)) ∈ more /\
    (forall m, (ERROR, m) ∉ more).
Proof.
  intros (raw & Hraw & Hblank). unfold excel_sheet_body. cbv zeta.
  rewrite Hraw.
  rewrite (bind_ok _ _ w
             (logged INFO (MsgProcessingSheet (sheet_title sh)) w) tt)
    by reflexivity.
  rewrite (bind_ok _ _ _
             (logged INFO (MsgProcessingSheet (sheet_title sh)) w) raw)
    by reflexivity.
  destruct Hblank as [Hgrid | (Hgrid & df & Hdf & Hempty)]; rewrite Hgrid.
  - exists [(INFO, MsgProcessingSheet (sheet_title sh));
            (WARNING, MsgSheetEmpty (sheet_title sh))].
    unfold logger, logged. cbn [disk conn log]. rewrite <- app_assoc.
    split; [reflexivity|]. split.
    + apply elem_of_cons. by left.
    + intros m. rewrite !elem_of_cons, elem_of_nil.
      intros [H|[H|[]]]; discriminate H.
  - rewrite Hdf.
    rewrite (bind_ok _ _ _
               (logged INFO (header_message lower raw)
                  (logged INFO (MsgProcessingSheet (sheet_title sh)) w)) tt)
      by reflexivity.
    rewrite (bind_ok _ _ _
               (logged INFO (header_message lower raw)
                  (logged INFO (MsgProcessingSheet (sheet_title sh)) w)) df)
      by reflexivity.
    rewrite Hempty.
    exists [(INFO, MsgProcessingSheet (sheet_title sh));
            (INFO, header_message lower raw);
            (WARNING, MsgSheetEmptyAfterHeader (sheet_title sh))].
    unfold logger, logged. cbn [disk conn log]. rewrite <- !app_assoc.
    split; [reflexivity|]. split.
    + apply elem_of_cons. by left.
    + intros m. rewrite !elem_of_cons, elem_of_nil.
      intros [H|[H|[H|[]]]]; discriminate H.
Qed.

Lemma blank_sheets_skipped (f : file) (size : N) (sheets : list sheet)
    (w : world) :
  Forall (blank_sheet lower) sheets ->
  exists more,
    for_each sheets (excel_sheet_body lower f size) w =
    (Ok tt, {| disk := disk w; conn := conn w; log := log w ++ more |}) /\
    Forall (fun sh => (INFO, MsgProcessingSheet (sheet_title sh)) ∈ more)
           sheets /\
    (forall m, (ERROR, m) ∉ more).
Proof.
  intros Hall. revert w. induction Hall as [|sh sheets Hsh _ IH]; intros w.
  - exists []. rewrite app_nil_r. split; [by destruct w|].
    split; [constructor|]. intros m H. by apply elem_of_nil in H.
  - destruct (blank_sheet_skipped f size sh w Hsh) as (m1 & E1 & Hin1 & Hno1).
    destruct (IH {| disk := disk w; conn := conn w; log := log w ++ m1 |})
      as (m2 & E2 & Hin2 & Hno2).
    exists (m1 ++ m2). cbn [for_each]. rewrite (bind_ok _ _ _ _ _ E1), E2.
    cbn [disk conn log]. rewrite app_assoc. split; [reflexivity|]. split.
    + constructor; [apply elem_of_app; by left|].
      eapply Forall_impl; [exact Hin2|]. intros sh' H. cbn beta in H.
      apply elem_of_app. by right.
    + intros m [H|H]%elem_of_app; [by apply (Hno1 m) | by apply (Hno2 m)].
Qed.

(** X19: a sheet that is empty, or whose table read at the detected
    header row is empty, is skipped with a warning and does not end the
    workbook: a workbook made of such sheets only is processed to its
    last sheet, nothing in the database changes, and no error is
    logged. *)
Theorem blank_workbook_changes_nothing (f : file) (size : N)
    (sheets : list sheet) (w : world) :
  getsize f = Ok size ->
  excel_file f = Ok sheets ->
  Forall (blank_sheet lower) sheets ->
  exists more,
    process_excel_file lower f w =
    (Ok tt, {| disk := disk w; conn := conn w; log := log w ++ more |}) /\
    Forall (fun sh => (INFO, MsgProcessingSheet (sheet_title sh)) ∈ more)
           sheets /\
    (forall m, (ERROR, m) ∉ more).
Proof.
  intros Hsize Hopen Hall.
  destruct (blank_sheets_skipped f size sheets
              (logged INFO (MsgProcessingFile (file_path f)) w) Hall)
    as (more & E & Hin & Hno).
  exists ((INFO, MsgProcessingFile (file_path f)) :: more).
  unfold process_excel_file, try_except. rewrite Hsize, Hopen.
  rewrite (bind_ok _ _ w (logged INFO (MsgProcessingFile (file_path f)) w) tt)
    by reflexivity.
  rewrite (bind_ok _ _ _ (logged INFO (MsgProcessingFile (file_path f)) w) size)
    by reflexivity.
  rewrite (bind_ok _ _ _ (logged INFO (MsgProcessingFile (file_path f)) w)
             sheets) by reflexivity.
  rewrite E. unfold logged. cbn [disk conn log]. rewrite <- app_assoc.
  split; [reflexivity|]. split.
  - eapply Forall_impl; [exact Hin|]. intros sh H. cbn beta in H.
    apply elem_of_cons. by right.
  - intros m [H|H]%elem_of_cons; [discriminate H | by apply (Hno m)].
Qed.

End BlankSheets.

Lemma blank_workbook_changes_nothing_witness :
  getsize (workbook [empty_sheet; header_only_sheet]) = Ok 2048 /\
  excel_file (workbook [empty_sheet; header_only_sheet]) =
    Ok [empty_sheet; header_only_sheet] /\
  Forall (blank_sheet lower_basic) [empty_sheet; header_only_sheet] /\
  exists more,
    process_excel_file lower_basic (workbook [empty_sheet; header_only_sheet])
      ready_world =
    (Ok tt, {| disk := disk ready_world; conn := conn ready_world;
               log := log ready_world ++ more |}) /\
    Forall (fun sh => (INFO, MsgProcessingSheet (sheet_title sh)) ∈ more)
           [empty_sheet; header_only_sheet] /\
    (forall m, (ERROR, m) ∉ more).
Proof.
  assert (getsize (workbook [empty_sheet; header_only_sheet]) = Ok 2048)
    as H1 by reflexivity.
  assert (excel_file (workbook [empty_sheet; header_only_sheet]) =
          Ok [empty_sheet; header_only_sheet]) as H2 by reflexivity.
  assert (Forall (blank_sheet lower_basic) [empty_sheet; header_only_sheet])
    as H3.
  { constructor; [|constructor; [|constructor]].
    - exists []. split; [reflexivity|]. left. reflexivity.
    - exists [header_row]. split; [reflexivity|]. right.
      split; [vm_compute; reflexivity|].
      eexists. split; [reflexivity|]. vm_compute. reflexivity. }
  split; [exact H1|]. split; [exact H2|]. split; [exact H3|].
  exact (blank_workbook_changes_nothing lower_basic
           (workbook [empty_sheet; header_only_sheet]) 2048
           [empty_sheet; header_only_sheet] ready_world H1 H2 H3).
Defined.

(** ** The committed store at the end of a run *)

Lemma create_table_other (name : list N) (cols : list (list N))
    (s s' : gmap (list N) table) (n : list N) :
  create_table_if_not_exists name cols s = Ok s' -> n ≠ name ->
  s' !! n = s !! n.
Proof.
  unfold create_table_if_not_exists. destruct (s !! name).
  - by intros [= <-].
  - case_bool_decide; [|discriminate]. intros [= <-] Hne.
    by rewrite lookup_insert_ne.
Qed.

Lemma setup_exact (w : world) :
  exists s1 s2 lg,
    create_table_if_not_exists pricelists_metadata metadata_columns (disk w)
      = Ok s1 /\
    create_table_if_not_exists all_pricelists unified_columns s1 = Ok s2 /\
    connect_db None w = (Ok tt, {| disk := disk w; conn := Some (disk w);
                                   log := log w ++ [(INFO, MsgConnected)] |}) /\
    create_metadata_table
      {| disk := disk w; conn := Some (disk w);
         log := log w ++ [(INFO, MsgConnected)] |} =
      (Ok tt, {| disk := s1; conn := Some s1;
                 log := (log w ++ [(INFO, MsgConnected)]) ++
                        [(INFO, MsgMetadataTableCreated)] |}) /\
    create_unified_table
      {| disk := s1; conn := Some s1;
         log := (log w ++ [(INFO, MsgConnected)]) ++
                [(INFO, MsgMetadataTableCreated)] |} =
      (Ok tt, {| disk := s2; conn := Some s2; log := lg |}).
Proof.
  destruct (create_table_ok pricelists_metadata metadata_columns (disk w)
              metadata_columns_NoDup) as (s1 & E1 & _).
  destruct (create_table_ok all_pricelists unified_columns s1
              unified_columns_NoDup) as (s2 & E2 & _).
  exists s1, s2. eexists. split; [exact E1|]. split; [exact E2|].
  split; [reflexivity|]. split.
  - unfold create_metadata_table, try_except. unfold bind at 1.
    erewrite execute_ok by exact E1. reflexivity.
  - unfold create_unified_table, try_except. unfold bind at 1.
    erewrite execute_ok by exact E2. reflexivity.
Qed.

Lemma statistics_disk (w w' : world) (r : outcome unit) :
  (total_tables ← query (select_count pricelists_metadata) ;
   total_rows ← query (select_sum pricelists_metadata row_count) ;
   logger INFO MsgDone ;;
   logger INFO (MsgTablesCreated total_tables) ;;
   logger INFO (MsgTotalRows (default 0%Z total_rows))) w = (r, w') ->
  disk w' = disk w.
Proof.
  unfold bind, query, logger.
  destruct (conn w) as [live|] eqn:Hc; [|by intros [= _ <-]].
  destruct (select_count pricelists_metadata live);
    [|by intros [= _ <-]].
  cbv beta iota. rewrite Hc.
  destruct (select_sum pricelists_metadata row_count live);
    intros H; cbn [disk conn log] in H; by injection H as _ <-.
Qed.

Section RunDisk.
Variable lower : list N -> list N.

(** With a connection that opens, the database file at the end of the
    run is the committed store the loop over the files leaves. *)
Lemma merge_disk (env : environment) (w : world) :
  connect_failure env = None ->
  exists s1 s2 lg wf,
    create_table_if_not_exists pricelists_metadata metadata_columns (disk w)
      = Ok s1 /\
    create_table_if_not_exists all_pricelists unified_columns s1 = Ok s2 /\
    for_each (files env) (process_file lower)
      {| disk := s2; conn := Some s2; log := lg |} = (Ok tt, wf) /\
    disk (merge_all_pricelists lower env w).2 = disk wf.
Proof.
  intros Hconn.
  destruct (setup_exact (logged INFO MsgStart w))
    as (s1 & s2 & lg & E1 & E2 & Ec & Em & Eu).
  destruct (total_for_each (files env) (process_file lower)
              (total_process_file lower)
              (logged INFO (MsgFilesFound (length (files env)))
                 {| disk := s2; conn := Some s2; log := lg |})) as [wf Ef].
  exists s1, s2, (lg ++ [(INFO, MsgFilesFound (length (files env)))]), wf.
  split; [exact E1|]. split; [exact E2|]. split; [exact Ef|].
  unfold merge_all_pricelists, finally, try_except. rewrite Hconn.
  rewrite (bind_ok _ _ w (logged INFO MsgStart w) tt) by reflexivity.
  rewrite (bind_ok _ _ _ _ _ Ec), (bind_ok _ _ _ _ _ Em),
    (bind_ok _ _ _ _ _ Eu).
  cbv zeta.
  rewrite (bind_ok _ _ _
             (logged INFO (MsgFilesFound (length (files env)))
                {| disk := s2; conn := Some s2; log := lg |}) tt)
    by reflexivity.
  case_bool_decide as Hfiles.
  - rewrite Hfiles in Ef. cbn [for_each] in Ef. injection Ef as <-.
    reflexivity.
  - rewrite (bind_ok _ _ _ _ _ Ef).
    match goal with
    | |- context [(bind (query (select_count _)) ?k) wf] =>
        destruct (bind (query (select_count pricelists_metadata)) k wf)
          as [r w2] eqn:Est
    end.
    apply statistics_disk in Est. rewrite <- Est.
    destruct r as [[]|e].
    + destruct (conn w2); reflexivity.
    + unfold bind, logger, raise. cbn [conn disk log].
      destruct (conn w2); reflexivity.
Qed.

End RunDisk.

(** ** The export of the union table *)

Lemma export_needs_separator (s : gmap (list N) table) :
  (forall t, s !! all_pricelists = Some t ->
     section_separator ∉ tcolumns t) ->
  forall data sections stats,
    export_unified_table s ≠ UnifiedWritten data sections stats.
Proof.
  intros Hno data sections stats. unfold export_unified_table.
  destruct (s !! all_pricelists) as [t|] eqn:Et; [|discriminate].
  destruct (negb (bool_decide (u "id" ∈ tcolumns t))); [discriminate|].
  case_bool_decide; [discriminate|].
  rewrite (bool_decide_eq_false_2 _ (Hno t eq_refl)). discriminate.
Qed.

Lemma separator_not_unified : section_separator ∉ unified_columns.
Proof. apply (bool_decide_unpack _). vm_compute. exact I. Qed.

Section UnionExport.
Variable lower : list N -> list N.

Lemma run_keeps_separator_out (env : environment) (w : world) :
  (forall t, disk w !! all_pricelists = Some t ->
     section_separator ∉ tcolumns t) ->
  (forall f col, f ∈ files env -> header_cell lower f col ->
     sanitize col ≠ section_separator) ->
  forall t,
    disk (merge_all_pricelists lower env w).2 !! all_pricelists = Some t ->
    section_separator ∉ tcolumns t.
Proof.
  intros Hdisk Hcells.
  destruct (connect_failure env) as [e|] eqn:Hconn.
  - destruct (connect_failure_propagates lower env w e Hconn)
      as (w' & E & Hd & _).
    rewrite E. cbn [snd]. rewrite Hd. exact Hdisk.
  - destruct (merge_disk lower env w Hconn)
      as (s1 & s2 & lg & wf & E1 & E2 & Ef & ->).
    set (allowed := fun c : list N => c ≠ section_separator).
    assert (union_within allowed s2) as Hs2.
    { pose proof (create_table_other _ _ _ _ all_pricelists E1
                    union_is_not_catalog) as H1.
      destruct (create_table_ok all_pricelists unified_columns s1
                  unified_columns_NoDup) as (s2' & E2' & _ & _ & Hnew).
      rewrite E2 in E2'. injection E2' as <-.
      destruct (s1 !! all_pricelists) as [t1|] eqn:Et1.
      - exists t1. split.
        + by apply (create_table_effect _ _ _ _ E2).
        + intros c Hc ->. apply (Hdisk t1); [by rewrite <- H1 | done].
      - eexists. split; [by apply Hnew|]. cbn [tcolumns].
        intros c Hc ->. by apply separator_not_unified. }
    assert (holds (union_within allowed)
              {| disk := s2; conn := Some s2; log := lg |}) as Hw.
    { split; [by eexists|]. split; exact Hs2. }
    destruct (union_within_files allowed lower (files env) Hcells _ _ _ Hw Ef)
      as (_ & (t & Ht & Hall) & _).
    intros t' Ht'. rewrite Ht in Ht'. injection Ht' as <-.
    intros Hin. by apply (Hall _ Hin).
Qed.


End UnionExport.


(** ** The preview of a table *)

Lemma display_base_system : display_base = system_columns.
Proof. reflexivity. Qed.

Lemma data_cols_system : data_cols system_columns = [].
Proof. vm_compute. reflexivity. Qed.

(** X21: for a table as [create_table_for_file] makes it, the preview
    of [search_by_source] never fails for a missing column: it shows the
    three system columns followed by the first three header columns
    whose name does not start with [Unnamed], six columns at most. *)
Theorem preview_of_created_table (names : list (list N)) :
  NoDup (system_columns ++ names) ->
  preview_columns (system_columns ++ names) =
  Some (system_columns ++
        take 3 (filter (fun c => starts_with (u "Unnamed") c = false) names)) /\
  (length (display_cols (system_columns ++ names)) <= 6)%nat.
Proof.
  intros Hnd.
  assert (data_cols (system_columns ++ names) =
          filter (fun c => starts_with (u "Unnamed") c = false) names) as Hd.
  { unfold data_cols. rewrite filter_app.
    fold (data_cols system_columns). rewrite data_cols_system. cbn [app].
    apply NoDup_app in Hnd as (_ & Hdisj & _). clear -Hdisj.
    induction names as [|c names IH]; [done|].
    rewrite !filter_cons, IH.
    2:{ intros x Hx. specialize (Hdisj x Hx). intros Hin. apply Hdisj.
        apply elem_of_cons. by right. }
    assert (c ∉ display_base) as Hc.
    { rewrite display_base_system. intros Hin. apply (Hdisj c Hin).
      apply elem_of_cons. by left. }
    rewrite (bool_decide_eq_false_2 _ Hc). cbn [negb andb].
    destruct (starts_with (u "Unnamed") c) eqn:Es; cbn [negb].
    - rewrite decide_False by discriminate.
      by rewrite decide_False by discriminate.
    - rewrite decide_True by reflexivity.
      by rewrite decide_True by reflexivity. }
  split.
  - unfold preview_columns, display_cols. rewrite Hd, display_base_system.
    rewrite (proj2 (forallb_forall _ _)); [done|].
    intros c Hc%list_elem_of_In. apply bool_decide_eq_true.
    apply elem_of_app in Hc as [Hc|Hc]; apply elem_of_app; [by left|].
    right. apply elem_of_take in Hc as (i & Hc & _).
    apply list_elem_of_lookup_2 in Hc.
    by apply list_elem_of_filter in Hc as [_ Hc].
  - unfold display_cols. rewrite length_app, length_take.
    change (length display_base) with 3%nat. lia.
Qed.

Lemma preview_of_created_table_witness :
  NoDup (system_columns ++ [u "Артикул"; u "Unnamed_1"; u "Цена"]) /\
  preview_columns (system_columns ++ [u "Артикул"; u "Unnamed_1"; u "Цена"]) =
  Some (system_columns ++ [u "Артикул"; u "Цена"]).
Proof.
  assert (NoDup (system_columns ++ [u "Артикул"; u "Unnamed_1"; u "Цена"]))
    as H by (apply (bool_decide_unpack _); vm_compute; exact I).
  split; [exact H|].
  exact (proj1 (preview_of_created_table
                  [u "Артикул"; u "Unnamed_1"; u "Цена"] H)).
Defined.

(** ** Cells under their own names *)

Lemma unified_fold_last (l1 l2 : list (list N * cell))
    (d : gmap (list N) sqlval) (col : list N) (v : cell) :
  (forall col' v', (col', v') ∈ l2 -> sanitize col' ≠ sanitize col) ->
  fold_left unified_step (l1 ++ (col, v) :: l2) d !! sanitize col =
  Some (value_for_unified v).
Proof.
  intros Hlast. rewrite fold_left_app. cbn [fold_left].
  rewrite unified_fold_untouched by done.
  unfold unified_step at 1. fold (sanitize col). apply lookup_insert_eq.
Qed.

Lemma zip_split_at {A B : Type} (l : list A) (k : list B) (j : nat)
    (a : A) (b : B) :
  l !! j = Some a -> k !! j = Some b ->
  zip l k = zip (take j l) (take j k) ++
            (a, b) :: zip (drop (S j) l) (drop (S j) k).
Proof.
  revert k j. induction l as [|x l IH]; intros k j Hl Hk; [done|].
  destruct k as [|y k]; [done|]. destruct j as [|j].
  - injection Hl as ->. injection Hk as ->.
    cbn [take drop zip zip_with app]. by rewrite !drop_0.
  - cbn in Hl, Hk. cbn [take drop zip zip_with app]. f_equal.
    by apply IH.
Qed.

Lemma later_names_differ (cols : list (list N)) (j : nat) (c : list N)
    (row : list cell) :
  NoDup (sanitize <$> cols) -> cols !! j = Some c ->
  forall col' v',
    (col', v') ∈ zip (drop (S j) cols) (drop (S j) row) ->
    sanitize col' ≠ sanitize c.
Proof.
  intros Hnd Hc col' v' Hin Heq. apply elem_of_zip_l in Hin.
  rewrite <- (take_drop_middle cols j c Hc) in Hnd.
  rewrite fmap_app, fmap_cons in Hnd.
  apply NoDup_app in Hnd as (_ & _ & Hnd).
  apply NoDup_cons in Hnd as [Hnot _]. apply Hnot.
  rewrite <- Heq. apply list_elem_of_fmap. by exists col'.
Qed.

Lemma base_keys_differ :
  source_row ≠ source_file /\ sheet_name_col ≠ source_file /\
  source_row ≠ sheet_name_col.
Proof.
  repeat split; apply (bool_decide_unpack _); vm_compute; exact I.
Qed.

(** X22: when the header cells sanitize to names that are pairwise
    distinct and that are none of the reserved columns, nothing is lost
    between a data row and the two [insert_data] dicts: the table has
    the plain sanitized names as its columns, every cell is bound under
    the sanitized name of its own header cell (as it is in the table
    dict, as text in the union dict), and the provenance keys hold the
    file name, the sheet name and the row index plus one. *)
Theorem cells_kept_under_own_names (df : dataframe)
    (file_name sheet_name : list N) (index j : nat) (row : list cell)
    (c : list N) (v : cell) :
  NoDup (sanitize <$> columns df) ->
  (forall col, col ∈ columns df -> sanitize col ∉ unified_columns) ->
  columns df !! j = Some c -> row !! j = Some v ->
  table_column_names (columns df) ∅ = sanitize <$> columns df /\
  insert_data_for_table
    (system_columns ++ table_column_names (columns df) ∅) df index row
    !! sanitize c = Some (value_for_table v) /\
  insert_data_for_table
    (system_columns ++ table_column_names (columns df) ∅) df index row
    !! source_row = Some (SInt (Z.of_nat index + 1)) /\
  insert_data_for_unified df file_name sheet_name index row
    !! sanitize c = Some (value_for_unified v) /\
  insert_data_for_unified df file_name sheet_name index row
    !! source_file = Some (SText file_name) /\
  insert_data_for_unified df file_name sheet_name index row
    !! sheet_name_col = Some (SText sheet_name) /\
  insert_data_for_unified df file_name sheet_name index row
    !! source_row = Some (SInt (Z.of_nat index + 1)).
Proof.
  intros Hnd Hres Hc Hv.
  destruct base_keys_differ as (Hk1 & Hk2 & Hk3).
  assert (table_column_names (columns df) ∅ = sanitize <$> columns df)
    as Hnames.
  { apply table_column_names_plain; [done|]. intros col _.
    apply not_elem_of_empty. }
  assert (forall k, k ∈ unified_columns ->
            forall col v', (col, v') ∈ zip (columns df) row ->
              sanitize col ≠ k) as Hfree.
  { intros k Hk col v' Hin Heq. apply elem_of_zip_l in Hin.
    apply (Hres col Hin). by rewrite Heq. }
  assert (source_row ∈ unified_columns) as Hsr
    by (apply (bool_decide_unpack _); vm_compute; exact I).
  assert (source_file ∈ unified_columns) as Hsf
    by (apply (bool_decide_unpack _); vm_compute; exact I).
  assert (sheet_name_col ∈ unified_columns) as Hsn
    by (apply (bool_decide_unpack _); vm_compute; exact I).
  pose proof (zip_split_at (columns df) row j c v Hc Hv) as Hzip.
  pose proof (later_names_differ (columns df) j c row Hnd Hc) as Hlater.
  split; [exact Hnames|]. rewrite Hnames.
  split; [|split; [|split; [|split; [|split]]]].
  - rewrite insert_data_for_table_fold, Hzip.
    apply table_fold_last; [|exact Hlater].
    apply elem_of_app. right. apply list_elem_of_fmap. exists c.
    split; [done|]. by apply list_elem_of_lookup_2 in Hc.
  - rewrite insert_data_for_table_fold.
    rewrite table_fold_untouched by (apply Hfree; exact Hsr).
    apply lookup_singleton_eq.
  - rewrite insert_data_for_unified_fold, Hzip.
    by apply unified_fold_last.
  - rewrite insert_data_for_unified_fold.
    rewrite unified_fold_untouched by (apply Hfree; exact Hsf).
    rewrite lookup_insert_ne by exact Hk1.
    rewrite lookup_insert_ne by exact Hk2.
    apply lookup_singleton_eq.
  - rewrite insert_data_for_unified_fold.
    rewrite unified_fold_untouched by (apply Hfree; exact Hsn).
    rewrite lookup_insert_ne by exact Hk3.
    apply lookup_insert_eq.
  - rewrite insert_data_for_unified_fold.
    rewrite unified_fold_untouched by (apply Hfree; exact Hsr).
    apply lookup_insert_eq.
Qed.

Lemma cells_kept_under_own_names_witness :
  NoDup (sanitize <$> columns two_columns) /\
  (forall col, col ∈ columns two_columns ->
     sanitize col ∉ unified_columns) /\
  columns two_columns !! 1%nat = Some (u "Цена (руб.)") /\
  [CStr (u "Кабель"); CNum 120] !! 1%nat = Some (CNum 120) /\
  insert_data_for_table
    (system_columns ++ table_column_names (columns two_columns) ∅)
    two_columns 0 [CStr (u "Кабель"); CNum 120]
    !! sanitize (u "Цена (руб.)") = Some (value_for_table (CNum 120)) /\
  insert_data_for_unified two_columns (u "a.csv") (u "CSV") 0
    [CStr (u "Кабель"); CNum 120]
    !! sanitize (u "Цена (руб.)") = Some (value_for_unified (CNum 120)).
Proof.
  assert (NoDup (sanitize <$> columns two_columns)) as H1
    by (apply (bool_decide_unpack _); vm_compute; exact I).
  assert (forall col, col ∈ columns two_columns ->
            sanitize col ∉ unified_columns) as H2.
  { intros col Hcol. cbn [columns two_columns] in Hcol.
    apply elem_of_cons in Hcol as [->|Hcol];
      [apply (bool_decide_unpack _); vm_compute; exact I|].
    apply list_elem_of_singleton in Hcol. subst col.
    apply (bool_decide_unpack _). vm_compute. exact I. }
  assert (columns two_columns !! 1%nat = Some (u "Цена (руб.)")) as H3
    by reflexivity.
  assert ([CStr (u "Кабель"); CNum 120] !! 1%nat = Some (CNum 120)) as H4
    by reflexivity.
  split; [exact H1|]. split; [exact H2|]. split; [exact H3|].
  split; [exact H4|].
  destruct (cells_kept_under_own_names two_columns (u "a.csv") (u "CSV")
              0 1 [CStr (u "Кабель"); CNum 120] (u "Цена (руб.)") (CNum 120)
              H1 H2 H3 H4) as (_ & Ht & _ & Hu & _).
  split; [exact Ht | exact Hu].
Defined.
